(** * mcp-agents: session ledger, delegation contexts and batch coordinator

    A shallow embedding of the control core of the MCP agents server
    ([src/session-store.ts], [src/index.ts], [src/agent-registry.ts] and
    the constants and error codes of [types.ts] as compiled in
    [dist/types.js]) together with the properties its specification states
    about it and further properties of the code.

    Conventions of the embedding.
    - A JavaScript [Map<string, V>] is an association list kept in insertion
      order ([JsMap]): [Map.prototype.values()] iterates in that order and
      [SessionStore.list] depends on it.
    - [Date] values are their [getTime()] readings, integers in [Z].  Every
      operation that executes [new Date()] or [Date.now()] receives the
      reading as an argument.
    - A function that may throw returns a [Result]; an asynchronous function
      is modelled by its settled outcome, the environment's answers (the
      outcome of [Query.interrupt()], the event stream of the execution
      engine) being arguments.
    - [runAgent] is a run on its own, with no other task at work while it
      waits.  [runAgentAmong] is the same run with the other tasks of the
      event loop acting on the module state at each of its awaits; the
      properties that depend on what those tasks do are stated for it.
      [SessionStore.cancel] takes what the other tasks do to the store
      during its single await as an argument, and [runAgentsBatch] takes
      the settled outcome of each task, so neither depends on a schedule.
    - Effects on the outside world that a property speaks about (interrupt
      requests, engine calls, the anomaly log lines) are collected in a trace
      of [Effect]s.  The progress diagnostics [runAgent] and [runAgentsBatch]
      write to stderr carry a random execution id and are left out.
    - The file system the registry loads from is a function from directory
      paths to what [stat] and [readdir] answer.  Reading a file and parsing
      it with [parseAgentFile] is taken by its outcome, the agent definition
      or the error thrown; the frontmatter parser itself is not modelled.
    - The tool-call handler is modelled for requests that carry an arguments
      object; what it serialises with [JSON.stringify] is kept as a value. *)

From Stdlib Require Import String Ascii List ZArith Arith Bool Lia.
From Stdlib Require Import Permutation Sorted DecimalString DecimalNat.
Import ListNotations.
Open Scope string_scope.
Open Scope list_scope.

Set Implicit Arguments.

(* ====================================================================== *)
(** * JavaScript helpers                                                   *)
(* ====================================================================== *)

(** Truthiness of a string: only the empty string is falsy. *)
Definition truthy (s : string) : bool :=
  match s with
  | EmptyString => false
  | String _ _ => true
  end.

(** Truthiness of [string | undefined]. *)
Definition truthy_opt (o : option string) : bool :=
  match o with
  | Some s => truthy s
  | None => false
  end.

(** [Array.prototype.join]. *)
Definition join (sep : string) (l : list string) : string := String.concat sep l.

(** [Array.prototype.includes] on an array of strings. *)
Definition includes (l : list string) (x : string) : bool :=
  existsb (fun y => String.eqb y x) l.

(** Template-literal rendering of a non-negative integer. *)
Definition nat_to_string (n : nat) : string :=
  NilEmpty.string_of_uint (Nat.to_uint n).

(** ** Insertion-ordered maps with string keys *)
Module JsMap.
Section Ops.
Variable V : Type.

Definition t := list (string * V).

Definition empty : t := [].

Fixpoint get (m : t) (k : string) : option V :=
  match m with
  | [] => None
  | (k', v) :: m' => if String.eqb k' k then Some v else get m' k
  end.

Definition has (m : t) (k : string) : bool :=
  match get m k with
  | Some _ => true
  | None => false
  end.

(** [set] keeps the position of an existing key and appends a new one. *)
Fixpoint set (m : t) (k : string) (v : V) : t :=
  match m with
  | [] => [(k, v)]
  | (k', v') :: m' =>
      if String.eqb k' k then (k', v) :: m' else (k', v') :: set m' k v
  end.

(** [delete] drops the entry of the key; a map built by [set] and [delete]
    holds at most one. *)
Definition delete (m : t) (k : string) : t :=
  filter (fun kv => negb (String.eqb (fst kv) k)) m.

Definition values (m : t) : list V := map snd m.

Definition keys (m : t) : list string := map fst m.

Definition size (m : t) : nat := length m.
End Ops.
Arguments empty {V}.
End JsMap.

(* ====================================================================== *)
(** * types.ts                                                             *)
(* ====================================================================== *)

Definition MAX_DELEGATION_DEPTH : nat := 5.

Record AgentConfig := {
  name : string;
  description : string;
  systemPrompt : string;
  model : option string
}.

Record SessionInfo := {
  session_id : string;
  agent : string;
  initial_task : string;
  created_at : Z;
  last_active : Z;
  is_active : bool
}.

Record ExecutionContext := {
  depth : nat;
  agentStack : list string;
  rootSessionId : string
}.

Inductive AgentErrorCode :=
| AGENT_NOT_FOUND
| SESSION_NOT_FOUND
| SESSION_ALREADY_ACTIVE
| EXECUTION_FAILED
| CANCELLED
| INVALID_CONFIG
| DELEGATION_DEPTH_EXCEEDED
| DELEGATION_CYCLE_DETECTED
| DELEGATION_FAILED.

(** The enum's members are their own names as strings. *)
Definition code_string (c : AgentErrorCode) : string :=
  match c with
  | AGENT_NOT_FOUND => "AGENT_NOT_FOUND"
  | SESSION_NOT_FOUND => "SESSION_NOT_FOUND"
  | SESSION_ALREADY_ACTIVE => "SESSION_ALREADY_ACTIVE"
  | EXECUTION_FAILED => "EXECUTION_FAILED"
  | CANCELLED => "CANCELLED"
  | INVALID_CONFIG => "INVALID_CONFIG"
  | DELEGATION_DEPTH_EXCEEDED => "DELEGATION_DEPTH_EXCEEDED"
  | DELEGATION_CYCLE_DETECTED => "DELEGATION_CYCLE_DETECTED"
  | DELEGATION_FAILED => "DELEGATION_FAILED"
  end.

(** The [details] record an [AgentError] carries, one shape per throw site. *)
Inductive ErrorDetails :=
| DepthDetails (depth max_depth : nat) (chain : list string)
| CycleDetails (cycle_agent : string) (chain : list string)
| SessionDetails (session_id : string)
| AgentDetails (agent : string) (available : list string).

(** What a [throw] can raise: an [AgentError], a plain [Error], or any other
    value, kept as its [String(value)] rendering. *)
Inductive Thrown :=
| AgentError (message : string) (code : AgentErrorCode) (details : ErrorDetails)
| Error (message : string)
| ThrownValue (rendering : string).

(** [error instanceof Error ? error.message : String(error)] *)
Definition errMsgOf (e : Thrown) : string :=
  match e with
  | AgentError m _ _ => m
  | Error m => m
  | ThrownValue s => s
  end.

(** [error instanceof AgentError ? error.code : 'UNKNOWN_ERROR'] *)
Definition errorCodeOf (e : Thrown) : string :=
  match e with
  | AgentError _ c _ => code_string c
  | _ => "UNKNOWN_ERROR"
  end.

Inductive Result (A : Type) :=
| Return (a : A)
| Throw (e : Thrown).
Arguments Return {A} a.
Arguments Throw {A} e.

Record RunAgentParams := {
  rp_agent : string;
  rp_task : string;
  rp_resume : option string;
  rp_fork : option bool
}.

Record AgentResult := {
  ar_success : bool;
  ar_session_id : string;
  ar_summary : string;
  ar_artifacts : option (list string);
  ar_error : option string
}.

Record BatchTask := {
  bt_agent : string;
  bt_task : string;
  bt_id : option string
}.

Record BatchTaskResult := {
  btr_id : string;
  btr_success : bool;
  btr_session_id : string;
  btr_summary : string;
  btr_artifacts : option (list string);
  btr_error : option string;
  btr_duration_ms : Z
}.

Record BatchResult := {
  all_success : bool;
  succeeded : nat;
  failed : nat;
  total_duration_ms : Z;
  results : list BatchTaskResult
}.

(** [context_data] is kept as what the code inspects of it: the number of
    its own keys and its [JSON.stringify(_, null, 2)] rendering. *)
Record ContextData := {
  cd_keys : nat;
  cd_json : string
}.

Record DelegateToAgentParams := {
  dp_agent : string;
  dp_task : string;
  dp_context_data : option ContextData;
  dp_wait_for_result : option bool
}.

Record ContextSnapshot := {
  snap_depth : nat;
  snap_chain : list string
}.

Record DelegationResult := {
  dr_success : bool;
  dr_agent : string;
  dr_session_id : string;
  dr_result : string;
  dr_artifacts : option (list string);
  dr_error : option string;
  dr_context : ContextSnapshot
}.

(** The in-flight handle of an execution ([Query] of the agent SDK); only its
    identity matters here. *)
Record Query := { handle_id : nat }.

(** The part of the SDK [Options] that depends on the call. *)
Record Options := {
  opt_systemPrompt : string;
  opt_resume : option string;
  opt_forkSession : option bool
}.

(** Effects the modelled functions have on the outside world.
    [ELogError msg error] is [console.error(msg, error)]: the text followed
    by the thrown value itself, as the console renders it. *)
Inductive Effect :=
| EInterrupt (q : Query)
| ELog (msg : string)
| ELogError (msg : string) (error : Thrown)
| EQuery (prompt : string) (options : Options).

(** ** Messages of the execution engine ([SDKMessage]) *)

Inductive ContentBlock :=
| ToolUse (tool_name : string) (file_path : option string)
| OtherBlock.

Inductive SDKMessage :=
| MsgSystemInit (sid : string)
| MsgSystemOther
| MsgResultSuccess (result : string)
| MsgResultError (subtype : string) (errors : option (list string))
| MsgAssistant (content : option (list ContentBlock))
| MsgOther.

(** How the stream of one execution ends. *)
Inductive StreamEnd :=
| StreamDone
| StreamThrows (e : Thrown).

(** One execution as [runAgent] observes it: the handle [query()] returns,
    the messages the [for await] loop receives, each with the clock reading
    at the time it is processed, and the end of the stream with the clock
    reading at cleanup. *)
Record Execution := {
  ex_query : Query;
  ex_messages : list (Z * SDKMessage);
  ex_end : StreamEnd;
  ex_end_time : Z
}.

Inductive EngineResponse :=
| QueryThrows (e : Thrown)
| QueryStarted (ex : Execution).

(** The execution engine: [query({ prompt, options })]. *)
Definition Engine := string -> Options -> EngineResponse.

(** ** [Array.prototype.sort]

    ECMAScript requires the sort to be stable; for a consistent comparator
    the result is then the same for every conforming algorithm.  The model
    is a stable insertion sort: an element moves behind exactly those
    elements the comparator places strictly before it. *)
Section ArraySort.
Variable A : Type.
Variable cmp : A -> A -> Z.

Fixpoint sort_insert (x : A) (l : list A) : list A :=
  match l with
  | [] => [x]
  | y :: l' =>
      if (0 <? cmp x y)%Z then y :: sort_insert x l' else x :: y :: l'
  end.

Definition Array_sort (l : list A) : list A :=
  fold_right sort_insert [] l.
End ArraySort.

(* ====================================================================== *)
(** * session-store.ts                                                     *)
(* ====================================================================== *)

Record ListFilter := {
  f_agent : option string;
  f_active_only : option bool
}.

Module SessionStore.

Record t := {
  sessions : JsMap.t SessionInfo;
  activeQueries : JsMap.t Query
}.

Definition new : t :=
  {| sessions := JsMap.empty; activeQueries := JsMap.empty |}.

Definition save (now : Z) (st : t) (sessionId agent task : string)
    (query : option Query) : t :=
  let existing := JsMap.get (sessions st) sessionId in
  {| sessions :=
       JsMap.set (sessions st) sessionId
         {| session_id := sessionId;
            agent := agent;
            initial_task :=
              match existing with
              | Some e => initial_task e
              | None => task
              end;
            created_at :=
              match existing with
              | Some e => created_at e
              | None => now
              end;
            last_active := now;
            is_active :=
              match query with
              | Some _ => true
              | None => false
              end |};
     activeQueries :=
       match query with
       | Some q => JsMap.set (activeQueries st) sessionId q
       | None => activeQueries st
       end |}.

Definition complete (now : Z) (st : t) (sessionId : string) : t :=
  {| sessions :=
       match JsMap.get (sessions st) sessionId with
       | Some session =>
           JsMap.set (sessions st) sessionId
             {| session_id := session_id session;
                agent := agent session;
                initial_task := initial_task session;
                created_at := created_at session;
                last_active := now;
                is_active := false |}
       | None => sessions st
       end;
     activeQueries := JsMap.delete (activeQueries st) sessionId |}.

Definition get (st : t) (sessionId : string) : option SessionInfo :=
  JsMap.get (sessions st) sessionId.

Definition getOrThrow (st : t) (sessionId : string) : Result SessionInfo :=
  match JsMap.get (sessions st) sessionId with
  | Some session => Return session
  | None =>
      Throw (AgentError ("Session not found: " ++ sessionId)
               SESSION_NOT_FOUND (SessionDetails sessionId))
  end.

Definition getQuery (st : t) (sessionId : string) : option Query :=
  JsMap.get (activeQueries st) sessionId.

Definition has (st : t) (sessionId : string) : bool :=
  JsMap.has (sessions st) sessionId.

Definition isActive (st : t) (sessionId : string) : bool :=
  match JsMap.get (sessions st) sessionId with
  | Some session => is_active session
  | None => false
  end.

(** [cancel] suspends once, at [await query.interrupt()].  [interrupt] is
    the settlement of that call, [during] what the other tasks did to the
    store in the meantime (the identity when nothing else ran), and [now]
    the clock reading when [cancel] resumes. *)
Definition cancel (now : Z) (interrupt : Result unit) (during : t -> t)
    (st : t) (sessionId : string) : bool * t * list Effect :=
  match JsMap.get (activeQueries st) sessionId with
  | Some query =>
      match interrupt with
      | Return _ =>
          (true, complete now (during st) sessionId, [EInterrupt query])
      | Throw error =>
          (true, complete now (during st) sessionId,
           [EInterrupt query;
            ELogError ("[SessionStore] Failed to cancel " ++ sessionId ++ ":")
              error])
      end
  | None => (false, st, [])
  end.

Definition remove (st : t) (sessionId : string) : bool * t :=
  (JsMap.has (sessions st) sessionId,
   {| sessions := JsMap.delete (sessions st) sessionId;
      activeQueries := JsMap.delete (activeQueries st) sessionId |}).

(** [clear] requests an interrupt of every live handle and ignores how
    the requests settle. *)
Definition clear (st : t) : t * list Effect :=
  (new, map EInterrupt (JsMap.values (activeQueries st))).

Definition size (st : t) : nat := JsMap.size (sessions st).

Definition activeCount (st : t) : nat := JsMap.size (activeQueries st).

Definition list (st : t) (filter : option ListFilter) : list SessionInfo :=
  let sessions0 := JsMap.values (sessions st) in
  let sessions1 :=
    match filter with
    | Some {| f_agent := Some a |} =>
        if truthy a
        then List.filter (fun s => String.eqb (agent s) a) sessions0
        else sessions0
    | _ => sessions0
    end in
  let sessions2 :=
    match filter with
    | Some {| f_active_only := Some true |} =>
        List.filter (fun s => is_active s) sessions1
    | _ => sessions1
    end in
  Array_sort (fun a b => (last_active b - last_active a)%Z) sessions2.

End SessionStore.

(** The operations a client can apply to a store, with the environment's
    answers they consume.  A [cancel] that other operations interleave with
    acts on the store as those operations followed by [complete], so
    [OpCancel] stands for the uninterrupted one. *)
Inductive StoreOp :=
| OpSave (now : Z) (sessionId agent task : string) (query : option Query)
| OpComplete (now : Z) (sessionId : string)
| OpCancel (now : Z) (interrupt : Result unit) (sessionId : string)
| OpRemove (sessionId : string)
| OpClear.

Definition apply_op (st : SessionStore.t) (op : StoreOp) : SessionStore.t :=
  match op with
  | OpSave now sid a t q => SessionStore.save now st sid a t q
  | OpComplete now sid => SessionStore.complete now st sid
  | OpCancel now i sid =>
      snd (fst (SessionStore.cancel now i (fun s => s) st sid))
  | OpRemove sid => snd (SessionStore.remove st sid)
  | OpClear => fst (SessionStore.clear st)
  end.

(** The store after a sequence of operations on a fresh store. *)
Definition run_ops (ops : list StoreOp) : SessionStore.t :=
  fold_left apply_op ops SessionStore.new.

(* ====================================================================== *)
(** * agent-registry.ts                                                    *)
(* ====================================================================== *)

(** The double-quote character of the [getOrThrow] message. *)
Definition dquote : string := String (ascii_of_nat 34) EmptyString.

Module AgentRegistry.

(** [agents: Map<string, AgentConfig>], as loaded. *)
Definition t := JsMap.t AgentConfig.

Definition listNames (reg : t) : list string := JsMap.keys reg.

Definition list (reg : t) : Datatypes.list AgentConfig := JsMap.values reg.

Definition getOrThrow (reg : t) (name : string) : Result AgentConfig :=
  match JsMap.get reg name with
  | Some config => Return config
  | None =>
      Throw (AgentError
               ("Agent not found: " ++ dquote ++ name ++ dquote
                ++ ". Available: "
                ++ (let names := join ", " (listNames reg) in
                    if truthy names then names else "none"))
               AGENT_NOT_FOUND
               (AgentDetails name (listNames reg)))
  end.

End AgentRegistry.

(* ====================================================================== *)
(** * index.ts: delegation contexts                                        *)
(* ====================================================================== *)

Definition createDefaultContext (agentName sessionId : string)
    : ExecutionContext :=
  {| depth := 0; agentStack := [agentName]; rootSessionId := sessionId |}.

Definition createChildContext (parentContext : ExecutionContext)
    (childAgentName : string) : Result ExecutionContext :=
  let newDepth := depth parentContext + 1 in
  if (MAX_DELEGATION_DEPTH <? newDepth)%nat then
    Throw (AgentError
             ("Delegation depth limit exceeded (max: "
              ++ nat_to_string MAX_DELEGATION_DEPTH ++ "). "
              ++ "Chain: " ++ join " → " (agentStack parentContext)
              ++ " → " ++ childAgentName)
             DELEGATION_DEPTH_EXCEEDED
             (DepthDetails newDepth MAX_DELEGATION_DEPTH
                (agentStack parentContext ++ [childAgentName])))
  else if includes (agentStack parentContext) childAgentName then
    Throw (AgentError
             ("Delegation cycle detected: " ++ childAgentName
              ++ " is already in the call chain. "
              ++ "Chain: " ++ join " → " (agentStack parentContext)
              ++ " → " ++ childAgentName)
             DELEGATION_CYCLE_DETECTED
             (CycleDetails childAgentName
                (agentStack parentContext ++ [childAgentName])))
  else
    Return {| depth := newDepth;
              agentStack := agentStack parentContext ++ [childAgentName];
              rootSessionId := rootSessionId parentContext |}.

(** Repeated descent: [descend_all ctx [c1; ...; cn]] derives the child
    contexts for [c1], ..., [cn] in turn and stops at the first failure. *)
Fixpoint descend_all (ctx : ExecutionContext) (children : list string)
    : Result ExecutionContext :=
  match children with
  | [] => Return ctx
  | c :: rest =>
      match createChildContext ctx c with
      | Return ctx' => descend_all ctx' rest
      | Throw e => Throw e
      end
  end.

(* ====================================================================== *)
(** * index.ts: agent execution                                            *)
(* ====================================================================== *)

(** The handler calls [processMessage] makes for one message, in order. *)
Inductive HandlerCall :=
| OnInit (sessionId : string)
| OnResult (result : string)
| OnArtifact (artifact : string)
| OnError (error : string).

Definition processMessage (message : SDKMessage) : list HandlerCall :=
  match message with
  | MsgSystemInit sid => [OnInit sid]
  | MsgSystemOther => []
  | MsgResultSuccess r => [OnResult r]
  | MsgResultError subtype errors =>
      let errors := match errors with Some es => es | None => [] end in
      let joined := join "; " errors in
      [OnError (if truthy joined then joined else subtype)]
  | MsgAssistant (Some content) =>
      flat_map
        (fun block =>
           match block with
           | ToolUse tool (Some path) =>
               if (String.eqb tool "Write" || String.eqb tool "Edit")
                  && truthy path
               then [OnArtifact path]
               else []
           | _ => []
           end)
        content
  | MsgAssistant None => []
  | MsgOther => []
  end.

(** The module-level state of index.ts. *)
Record State := {
  sessionStore : SessionStore.t;
  executionContexts : JsMap.t ExecutionContext
}.

(** What the server is started with: the loaded agent registry, the text
    [buildDelegationSystemPromptSection()] renders from it, and the
    execution engine. *)
Record Env := {
  registry : AgentRegistry.t;
  delegationInfo : string;
  engine : Engine
}.

(** The local variables of one [runAgent] call. *)
Record RunVars := {
  rv_sessionId : string;
  rv_result : string;
  rv_artifacts : list string;
  rv_errorMessage : option string;
  rv_executionContext : option ExecutionContext
}.

Definition applyHandler (params : RunAgentParams) (q : Query) (now : Z)
    (acc : State * RunVars) (h : HandlerCall) : State * RunVars :=
  let (st, rv) := acc in
  match h with
  | OnInit sid =>
      ({| sessionStore :=
            SessionStore.save now (sessionStore st) sid
              (rp_agent params) (rp_task params) (Some q);
          executionContexts := executionContexts st |},
       {| rv_sessionId := sid;
          rv_result := rv_result rv;
          rv_artifacts := rv_artifacts rv;
          rv_errorMessage := rv_errorMessage rv;
          rv_executionContext := rv_executionContext rv |})
  | OnResult r =>
      (st,
       {| rv_sessionId := rv_sessionId rv;
          rv_result := r;
          rv_artifacts := rv_artifacts rv;
          rv_errorMessage := rv_errorMessage rv;
          rv_executionContext := rv_executionContext rv |})
  | OnArtifact a =>
      (st,
       {| rv_sessionId := rv_sessionId rv;
          rv_result := rv_result rv;
          rv_artifacts := rv_artifacts rv ++ [a];
          rv_errorMessage := rv_errorMessage rv;
          rv_executionContext := rv_executionContext rv |})
  | OnError err =>
      (st,
       {| rv_sessionId := rv_sessionId rv;
          rv_result := rv_result rv;
          rv_artifacts := rv_artifacts rv;
          rv_errorMessage := Some err;
          rv_executionContext := rv_executionContext rv |})
  end.

(** The part of the loop body that runs on a session-established message
    before [processMessage]: fix the execution context and register it. *)
Definition registerContext (params : RunAgentParams) (sid : string)
    (acc : State * RunVars) : State * RunVars :=
  let (st, rv) := acc in
  let ctx :=
    match rv_executionContext rv with
    | None => createDefaultContext (rp_agent params) sid
    | Some c =>
        if negb (truthy (rootSessionId c))
        then {| depth := depth c;
                agentStack := agentStack c;
                rootSessionId := sid |}
        else c
    end in
  ({| sessionStore := sessionStore st;
      executionContexts := JsMap.set (executionContexts st) sid ctx |},
   {| rv_sessionId := sid;
      rv_result := rv_result rv;
      rv_artifacts := rv_artifacts rv;
      rv_errorMessage := rv_errorMessage rv;
      rv_executionContext := Some ctx |}).

(** One iteration of the [for await] loop. *)
Definition onMessage (params : RunAgentParams) (q : Query)
    (acc : State * RunVars) (tm : Z * SDKMessage) : State * RunVars :=
  let (now, message) := tm in
  let acc1 :=
    match message with
    | MsgSystemInit sid => registerContext params sid acc
    | _ => acc
    end in
  fold_left (applyHandler params q now) (processMessage message) acc1.

(** The cleanup both exits of the [try] perform. *)
Definition cleanup (now : Z) (st : State) (sessionId : string) : State :=
  if truthy sessionId then
    {| sessionStore := SessionStore.complete now (sessionStore st) sessionId;
       executionContexts := JsMap.delete (executionContexts st) sessionId |}
  else st.

Definition outputRequirements : string :=
  "

---
**Output Requirements**: When you complete this task, your final response MUST include:
1. A clear summary of what was accomplished
2. List of any files created or modified (with full paths)".

Definition newline : string := String (ascii_of_nat 10) EmptyString.

(** [options], as far as it depends on the call. *)
Definition sdkOptions (env : Env) (agentConfig : AgentConfig)
    (params : RunAgentParams) : Options :=
  {| opt_systemPrompt :=
       systemPrompt agentConfig ++ newline ++ newline ++ delegationInfo env;
     opt_resume :=
       if truthy_opt (rp_resume params) then rp_resume params else None;
     opt_forkSession :=
       match rp_fork params with
       | Some true => Some true
       | _ => None
       end |}.

(** [enhancedTask], the prompt sent to the engine. *)
Definition enhancedTaskOf (params : RunAgentParams) : string :=
  rp_task params ++ outputRequirements.

(** The local variables before the [try]. *)
Definition initialVars (context : option ExecutionContext) : RunVars :=
  {| rv_sessionId := EmptyString;
     rv_result := EmptyString;
     rv_artifacts := [];
     rv_errorMessage := None;
     rv_executionContext := context |}.

(** The result returned after the loop has run to the end of the stream. *)
Definition completedResult (rv : RunVars) : AgentResult :=
  {| ar_success := negb (truthy_opt (rv_errorMessage rv));
     ar_session_id := rv_sessionId rv;
     ar_summary :=
       if truthy (rv_result rv) then rv_result rv
       else if truthy_opt (rv_errorMessage rv)
            then "Error: "
                 ++ match rv_errorMessage rv with
                    | Some m => m
                    | None => EmptyString
                    end
            else "No result";
     ar_artifacts :=
       if (0 <? length (rv_artifacts rv))%nat
       then Some (rv_artifacts rv) else None;
     ar_error := rv_errorMessage rv |}.

(** The result returned by the [catch] block. *)
Definition caughtResult (rv : RunVars) (error : Thrown) : AgentResult :=
  let errMsg := errMsgOf error in
  {| ar_success := false;
     ar_session_id :=
       if truthy (rv_sessionId rv) then rv_sessionId rv else "unknown";
     ar_summary := "Agent execution failed: " ++ errMsg;
     ar_artifacts := None;
     ar_error := Some errMsg |}.

Definition runAgent (env : Env) (st : State) (params : RunAgentParams)
    (context : option ExecutionContext)
    : Result AgentResult * State * list Effect :=
  match AgentRegistry.getOrThrow (registry env) (rp_agent params) with
  | Throw e => (Throw e, st, [])
  | Return agentConfig =>
      let resumeId :=
        match rp_resume params with
        | Some r => r
        | None => EmptyString
        end in
      if truthy_opt (rp_resume params)
         && negb (SessionStore.has (sessionStore st) resumeId)
      then
        (Throw (AgentError ("Session not found: " ++ resumeId)
                  SESSION_NOT_FOUND (SessionDetails resumeId)), st, [])
      else if truthy_opt (rp_resume params)
              && SessionStore.isActive (sessionStore st) resumeId
      then
        (Throw (AgentError
                  ("Session " ++ resumeId
                   ++ " is already active. Use cancel_agent first.")
                  SESSION_ALREADY_ACTIVE (SessionDetails resumeId)), st, [])
      else
        let options := sdkOptions env agentConfig params in
        let enhancedTask := enhancedTaskOf params in
        match engine env enhancedTask options with
        | QueryThrows error =>
            (Return (caughtResult (initialVars context) error), st,
             [EQuery enhancedTask options])
        | QueryStarted ex =>
            let (st1, rv) :=
              fold_left (onMessage params (ex_query ex)) (ex_messages ex)
                (st, initialVars context) in
            match ex_end ex with
            | StreamThrows error =>
                (Return (caughtResult rv error),
                 cleanup (ex_end_time ex) st1 (rv_sessionId rv),
                 [EQuery enhancedTask options])
            | StreamDone =>
                (Return (completedResult rv),
                 cleanup (ex_end_time ex) st1 (rv_sessionId rv),
                 [EQuery enhancedTask options])
            end
        end
  end.

(** ** A run among the other tasks of the event loop

    [runAgent] suspends at every [await] of its [for await] loop: once
    before each message of the stream and once more before the stream
    ends.  [others i] is what the other tasks did to the module state
    during the [i]-th of these waits, counted from 0.  The precondition
    checks and the call of [query()] run before the first wait. *)
Fixpoint loopAmong (params : RunAgentParams) (q : Query)
    (others : nat -> State -> State) (i : nat)
    (msgs : list (Z * SDKMessage)) (acc : State * RunVars)
    : State * RunVars :=
  match msgs with
  | [] => acc
  | tm :: rest =>
      loopAmong params q others (S i) rest
        (onMessage params q (others i (fst acc), snd acc) tm)
  end.

Definition runAgentAmong (env : Env) (st : State) (params : RunAgentParams)
    (context : option ExecutionContext) (others : nat -> State -> State)
    : Result AgentResult * State * list Effect :=
  match AgentRegistry.getOrThrow (registry env) (rp_agent params) with
  | Throw e => (Throw e, st, [])
  | Return agentConfig =>
      let resumeId :=
        match rp_resume params with
        | Some r => r
        | None => EmptyString
        end in
      if truthy_opt (rp_resume params)
         && negb (SessionStore.has (sessionStore st) resumeId)
      then
        (Throw (AgentError ("Session not found: " ++ resumeId)
                  SESSION_NOT_FOUND (SessionDetails resumeId)), st, [])
      else if truthy_opt (rp_resume params)
              && SessionStore.isActive (sessionStore st) resumeId
      then
        (Throw (AgentError
                  ("Session " ++ resumeId
                   ++ " is already active. Use cancel_agent first.")
                  SESSION_ALREADY_ACTIVE (SessionDetails resumeId)), st, [])
      else
        let options := sdkOptions env agentConfig params in
        let enhancedTask := enhancedTaskOf params in
        match engine env enhancedTask options with
        | QueryThrows error =>
            (Return (caughtResult (initialVars context) error), st,
             [EQuery enhancedTask options])
        | QueryStarted ex =>
            let (st1, rv) :=
              loopAmong params (ex_query ex) others 0 (ex_messages ex)
                (st, initialVars context) in
            let st2 := others (length (ex_messages ex)) st1 in
            match ex_end ex with
            | StreamThrows error =>
                (Return (caughtResult rv error),
                 cleanup (ex_end_time ex) st2 (rv_sessionId rv),
                 [EQuery enhancedTask options])
            | StreamDone =>
                (Return (completedResult rv),
                 cleanup (ex_end_time ex) st2 (rv_sessionId rv),
                 [EQuery enhancedTask options])
            end
        end
  end.

(* ====================================================================== *)
(** * index.ts: delegation handlers                                        *)
(* ====================================================================== *)

(** [enhancedTask] of a delegation: the task, followed by the context data
    when there is any. *)
Definition delegatedTaskOf (params : DelegateToAgentParams) : string :=
  let task := dp_task params in
  match dp_context_data params with
  | Some cd =>
      if (0 <? cd_keys cd)%nat
      then task ++ "

---
**Context Data:**
```json
" ++ cd_json cd ++ "
```"
      else task
  | None => task
  end.

Definition handleDelegationWithContext (env : Env) (st : State)
    (params : DelegateToAgentParams) (parentContext : ExecutionContext)
    : DelegationResult * State * list Effect :=
  let targetAgent := dp_agent params in
  let announce :=
    [ELog ("[Delegation] "
           ++ nth (depth parentContext) (agentStack parentContext) "undefined"
           ++ " → " ++ targetAgent);
     ELog ("[Delegation] Depth: " ++ nat_to_string (depth parentContext + 1)
           ++ "/" ++ nat_to_string MAX_DELEGATION_DEPTH)] in
  let caught (st1 : State) (effects : list Effect) (error : Thrown) :=
    let errMsg := errMsgOf error in
    ({| dr_success := false;
        dr_agent := targetAgent;
        dr_session_id := EmptyString;
        dr_result := EmptyString;
        dr_error := Some errMsg;
        dr_artifacts := None;
        dr_context :=
          {| snap_depth := depth parentContext + 1;
             snap_chain := agentStack parentContext ++ [targetAgent] |} |},
     st1,
     announce ++ effects
     ++ [ELog ("[Delegation] Failed to delegate to " ++ targetAgent ++ ": "
               ++ errMsg)]) in
  match createChildContext parentContext targetAgent with
  | Throw error => caught st [] error
  | Return childContext =>
      let enhancedTask := delegatedTaskOf params in
      match runAgent env st
              {| rp_agent := targetAgent;
                 rp_task := enhancedTask;
                 rp_resume := None;
                 rp_fork := None |}
              (Some childContext) with
      | (Throw error, st1, effects) => caught st1 effects error
      | (Return result, st1, effects) =>
          ({| dr_success := ar_success result;
              dr_agent := targetAgent;
              dr_session_id := ar_session_id result;
              dr_result := ar_summary result;
              dr_artifacts := ar_artifacts result;
              dr_error := ar_error result;
              dr_context :=
                {| snap_depth := depth childContext;
                   snap_chain := agentStack childContext |} |},
           st1,
           announce ++ effects
           ++ [ELog ("[Delegation] " ++ targetAgent ++ " completed: "
                     ++ (if ar_success result then "success" else "failed"))])
      end
  end.

Definition handleDelegation (env : Env) (st : State)
    (params : DelegateToAgentParams) (parentSessionId : string)
    : DelegationResult * State * list Effect :=
  match JsMap.get (executionContexts st) parentSessionId with
  | None =>
      let tempContext := createDefaultContext "unknown" parentSessionId in
      let '(r, st1, effects) :=
        handleDelegationWithContext env st params tempContext in
      (r, st1,
       ELog ("[Delegation] Warning: No context found for session "
             ++ parentSessionId ++ ", using default") :: effects)
  | Some parentContext =>
      handleDelegationWithContext env st params parentContext
  end.

(* ====================================================================== *)
(** * index.ts: batch coordinator                                          *)
(* ====================================================================== *)

(** How one task of a batch went: the clock reading when its callback
    starts, the settlement of its [await runAgent(...)], and the clock
    reading when that settlement is turned into a task result. *)
Record TaskRun := {
  run_start : Z;
  run_outcome : Result AgentResult;
  run_end : Z
}.

(** The callback [runAgentsBatch] maps over the tasks. *)
Definition batchTask (invoke : nat -> RunAgentParams -> TaskRun)
    (index : nat) (task : BatchTask) : BatchTaskResult :=
  let positional := ("task-" ++ nat_to_string index)%string in
  let taskId :=
    match bt_id task with
    | Some i => if truthy i then i else positional
    | None => positional
    end in
  let run :=
    invoke index
      {| rp_agent := bt_agent task;
         rp_task := bt_task task;
         rp_resume := None;
         rp_fork := None |} in
  let taskStart := run_start run in
  match run_outcome run with
  | Return result =>
      {| btr_id := taskId;
         btr_success := ar_success result;
         btr_session_id := ar_session_id result;
         btr_summary := ar_summary result;
         btr_artifacts := ar_artifacts result;
         btr_error := ar_error result;
         btr_duration_ms := run_end run - taskStart |}
  | Throw error =>
      let errMsg := errMsgOf error in
      {| btr_id := taskId;
         btr_success := false;
         btr_session_id := "failed";
         btr_summary := "Failed: " ++ errMsg;
         btr_artifacts := None;
         btr_error := Some errMsg;
         btr_duration_ms := run_end run - taskStart |}
  end.

(** [Array.prototype.map] with the element's index. *)
Fixpoint mapi_from (A B : Type) (f : nat -> A -> B) (i : nat) (l : list A)
    : list B :=
  match l with
  | [] => []
  | x :: l' => f i x :: mapi_from f (S i) l'
  end.

(** [runAgentsBatch]: [invoke] answers for the concurrently pending
    [runAgent] calls, whatever their interleaving; [batchStart] and
    [batchEnd] are the two readings of [Date.now()] the function takes. *)
Definition runAgentsBatch (batchStart batchEnd : Z)
    (invoke : nat -> RunAgentParams -> TaskRun) (tasks : list BatchTask)
    : BatchResult :=
  let results := mapi_from (batchTask invoke) 0 tasks in
  let succeeded := length (filter (fun r => btr_success r) results) in
  let failed := length (filter (fun r => negb (btr_success r)) results) in
  let totalDuration := (batchEnd - batchStart)%Z in
  {| all_success := (failed =? 0)%nat;
     succeeded := succeeded;
     failed := failed;
     total_duration_ms := totalDuration;
     results := results |}.

(* ====================================================================== *)
(** * index.ts: the run_agents_batch case of the tool-call handler         *)
(* ====================================================================== *)

(** The [tasks] argument as the handler tests it. *)
Inductive TasksArg :=
| TasksFalsy
| TasksNotArray
| TasksArray (tasks : list BatchTask).

(** The handler's answer: the payload it serialises, or the error report of
    its [catch] block (sent with [isError: true]). *)
Inductive ToolResponse (A : Type) :=
| ToolOk (payload : A)
| ToolError (error : string) (code : string).
Arguments ToolOk {A} payload.
Arguments ToolError {A} error code.

(** The body of the [case 'run_agents_batch'] block; the second component
    is the list of task sequences handed to [runAgentsBatch]. *)
Definition run_agents_batch_case (batchStart batchEnd : Z)
    (invoke : nat -> RunAgentParams -> TaskRun) (tasks : TasksArg)
    : Result BatchResult * list (list BatchTask) :=
  match tasks with
  | TasksFalsy
  | TasksNotArray =>
      (Throw (Error "Missing required parameter: tasks (non-empty array)"), [])
  | TasksArray ts =>
      if (length ts =? 0)%nat then
        (Throw (Error "Missing required parameter: tasks (non-empty array)"),
         [])
      else if (10 <? length ts)%nat then
        (Throw (Error "Maximum 10 tasks per batch"), [])
      else (Return (runAgentsBatch batchStart batchEnd invoke ts), [ts])
  end.

Definition callTool_run_agents_batch (batchStart batchEnd : Z)
    (invoke : nat -> RunAgentParams -> TaskRun) (tasks : TasksArg)
    : ToolResponse BatchResult * list (list BatchTask) :=
  match run_agents_batch_case batchStart batchEnd invoke tasks with
  | (Return result, executed) => (ToolOk result, executed)
  | (Throw error, executed) =>
      (ToolError (errMsgOf error) (errorCodeOf error), executed)
  end.

(* ====================================================================== *)
(** * agent-registry.ts: loading                                           *)
(* ====================================================================== *)

(** What [stat(agentsDir)] answers. *)
Inductive StatResult :=
| IsDirectory
| NotDirectory
| NoEntry
| StatFails (e : Thrown).

(** One name of a directory listing: whether
    [extname(name).toLowerCase() === '.md'], and what reading the file and
    parsing it with [parseAgentFile] gives. *)
Record DirFile := {
  file_name : string;
  file_is_md : bool;
  file_load : Result AgentConfig
}.

Record Directory := {
  dir_stat : StatResult;
  dir_list : Result (list DirFile)
}.

(** The file system as the registry reads it. *)
Definition FileSystem := string -> Directory.

(** The fields of an [AgentRegistry] instance. *)
Record Registry := {
  agents : AgentRegistry.t;
  agentsDirs : list string;
  loaded : bool
}.

(** [(error as Error).message], as [console.error] prints it. *)
Definition messageOf (e : Thrown) : string :=
  match e with
  | AgentError m _ _ => m
  | Error m => m
  | ThrownValue _ => "undefined"
  end.

(** The [for (const file of mdFiles)] loop: a file that loads is added
    under its agent name, a file that fails is logged and skipped. *)
Definition loadFile (acc : AgentRegistry.t * list Effect) (file : DirFile)
    : AgentRegistry.t * list Effect :=
  let (table, log) := acc in
  match file_load file with
  | Return config => (JsMap.set table (name config) config, log)
  | Throw error =>
      (table,
       log ++ [ELog ("[AgentRegistry] Failed to load " ++ file_name file
                     ++ ": " ++ messageOf error)])
  end.

Definition loadDir (fs : FileSystem) (table : AgentRegistry.t)
    (agentsDir : string) : Result unit * AgentRegistry.t * list Effect :=
  match dir_stat (fs agentsDir) with
  | NotDirectory => (Return tt, table, [])
  | NoEntry => (Return tt, table, [])
  | StatFails error => (Throw error, table, [])
  | IsDirectory =>
      match dir_list (fs agentsDir) with
      | Throw error => (Throw error, table, [])
      | Return files =>
          let mdFiles := filter file_is_md files in
          let (table', log) := fold_left loadFile mdFiles (table, []) in
          (Return tt, table', log)
      end
  end.

(** The [for (const dir of dirs)] loop of [loadFromMultiple]; it stops at
    the first directory that throws. *)
Fixpoint loadDirs (fs : FileSystem) (table : AgentRegistry.t)
    (dirs : list string) : Result unit * AgentRegistry.t * list Effect :=
  match dirs with
  | [] => (Return tt, table, [])
  | dir :: rest =>
      match loadDir fs table dir with
      | (Throw error, table', log) => (Throw error, table', log)
      | (Return _, table', log) =>
          let '(r, table'', log') := loadDirs fs table' rest in
          (r, table'', log ++ log')
      end
  end.

Definition loadFromMultiple (fs : FileSystem) (reg : Registry)
    (dirs : list string) : Result unit * Registry * list Effect :=
  match loadDirs fs JsMap.empty dirs with
  | (Throw error, table, log) =>
      (Throw error,
       {| agents := table; agentsDirs := dirs; loaded := loaded reg |}, log)
  | (Return _, table, log) =>
      (Return tt,
       {| agents := table; agentsDirs := dirs; loaded := true |}, log)
  end.

Definition load (fs : FileSystem) (reg : Registry) (agentsDir : string)
    : Result unit * Registry * list Effect :=
  loadFromMultiple fs reg [agentsDir].

Definition reload (fs : FileSystem) (reg : Registry)
    : Result unit * Registry * list Effect :=
  if (0 <? length (agentsDirs reg))%nat
  then loadFromMultiple fs reg (agentsDirs reg)
  else (Return tt, reg, []).

(** What the server does on start and on every tool listing:
    [registry.loadFromMultiple([CWD_AGENTS_DIR, USER_AGENTS_DIR])]. *)
Definition loadServerAgents (fs : FileSystem) (reg : Registry)
    (CWD_AGENTS_DIR USER_AGENTS_DIR : string)
    : Result unit * Registry * list Effect :=
  loadFromMultiple fs reg [CWD_AGENTS_DIR; USER_AGENTS_DIR].

(* ====================================================================== *)
(** * session-store.ts: listJSON                                           *)
(* ====================================================================== *)

Record SessionInfoJSON := {
  json_session_id : string;
  json_agent : string;
  json_initial_task : string;
  json_created_at : string;
  json_last_active : string;
  json_is_active : bool
}.

(** [listJSON]; [toISOString] is [Date.prototype.toISOString]. *)
Definition listJSON (toISOString : Z -> string) (st : SessionStore.t)
    (filter : option ListFilter) : list SessionInfoJSON :=
  map (fun s =>
         {| json_session_id := session_id s;
            json_agent := agent s;
            json_initial_task := initial_task s;
            json_created_at := toISOString (created_at s);
            json_last_active := toISOString (last_active s);
            json_is_active := is_active s |})
    (SessionStore.list st filter).

(* ====================================================================== *)
(** * index.ts: the tool-call handler                                      *)
(* ====================================================================== *)

(** The [arguments] object of a tool call, as the fields the handler
    reads. *)
Record ToolArgs := {
  arg_agent : option string;
  arg_task : option string;
  arg_resume : option string;
  arg_fork : option bool;
  arg_tasks : TasksArg;
  arg_active_only : option bool;
  arg_session_id : option string
}.

(** What the handler serialises into its answer. *)
Inductive Payload :=
| AgentPayload (result : AgentResult)
| BatchPayload (result : BatchResult)
| SessionsPayload (sessions : list SessionInfoJSON)
| CancelPayload (success : bool) (session_id message : string).

(** What a tool call takes from its surroundings: the server environment,
    the date rendering, the clock readings and task settlements of a
    batch with the module state the batch leaves, and for a cancellation
    the clock reading, the settlement of the interrupt and what other
    tasks did to the store while it was pending. *)
Record CallWorld := {
  w_env : Env;
  w_toISOString : Z -> string;
  w_batchStart : Z;
  w_batchEnd : Z;
  w_invoke : nat -> RunAgentParams -> TaskRun;
  w_afterBatch : State -> State;
  w_cancelTime : Z;
  w_interrupt : Result unit;
  w_during : SessionStore.t -> SessionStore.t
}.

(** The [switch (name)] inside the handler's [try], for a request that
    carries an arguments object. *)
Definition callToolBody (w : CallWorld) (st : State) (toolName : string)
    (args : ToolArgs) : Result Payload * State * list Effect :=
  if String.eqb toolName "run_agent" then
    if negb (truthy_opt (arg_agent args)) || negb (truthy_opt (arg_task args))
    then (Throw (Error "Missing required parameters: agent and task"), st, [])
    else
      match runAgent (w_env w) st
              {| rp_agent :=
                   match arg_agent args with
                   | Some a => a
                   | None => EmptyString
                   end;
                 rp_task :=
                   match arg_task args with
                   | Some t => t
                   | None => EmptyString
                   end;
                 rp_resume := arg_resume args;
                 rp_fork := arg_fork args |}
              None with
      | (Return result, st1, effects) =>
          (Return (AgentPayload result), st1, effects)
      | (Throw error, st1, effects) => (Throw error, st1, effects)
      end
  else if String.eqb toolName "run_agents_batch" then
    match run_agents_batch_case (w_batchStart w) (w_batchEnd w) (w_invoke w)
            (arg_tasks args) with
    | (Return result, _) =>
        (Return (BatchPayload result), w_afterBatch w st, [])
    | (Throw error, _) => (Throw error, st, [])
    end
  else if String.eqb toolName "get_agent_sessions" then
    (Return (SessionsPayload
               (listJSON (w_toISOString w) (sessionStore st)
                  (Some {| f_agent := arg_agent args;
                           f_active_only := arg_active_only args |}))),
     st, [])
  else if String.eqb toolName "cancel_agent" then
    if negb (truthy_opt (arg_session_id args))
    then (Throw (Error "Missing required parameter: session_id"), st, [])
    else
      let sid :=
        match arg_session_id args with
        | Some s => s
        | None => EmptyString
        end in
      let '(cancelled, store, effects) :=
        SessionStore.cancel (w_cancelTime w) (w_interrupt w) (w_during w)
          (sessionStore st) sid in
      (Return (CancelPayload cancelled sid
                 (if cancelled then "Cancelled"
                  else "Not found or already completed")),
       {| sessionStore := store;
          executionContexts := executionContexts st |},
       effects)
  else (Throw (Error ("Unknown tool: " ++ toolName)), st, []).

(** The handler: the [catch] block turns whatever was thrown into an error
    report. *)
Definition callTool (w : CallWorld) (st : State) (toolName : string)
    (args : ToolArgs) : ToolResponse Payload * State * list Effect :=
  match callToolBody w st toolName args with
  | (Return payload, st1, effects) => (ToolOk payload, st1, effects)
  | (Throw error, st1, effects) =>
      (ToolError (errMsgOf error) (errorCodeOf error), st1, effects)
  end.

(* ====================================================================== *)
(** * Vocabulary of the statements                                         *)
(* ====================================================================== *)

(** [raises r c]: the call threw an [AgentError] with code [c]. *)
Definition raises (A : Type) (r : Result A) (c : AgentErrorCode) : Prop :=
  match r with
  | Throw (AgentError _ c' _) => c' = c
  | _ => False
  end.

(** The chain an [AgentError] reports in its details, if it reports one. *)
Definition reported_chain (A : Type) (r : Result A) : option (list string) :=
  match r with
  | Throw (AgentError _ _ (DepthDetails _ _ chain)) => Some chain
  | Throw (AgentError _ _ (CycleDetails _ chain)) => Some chain
  | _ => None
  end.

(** The engine calls among the effects of a run. *)
Definition engine_calls (effects : list Effect) : list (string * Options) :=
  flat_map
    (fun e => match e with EQuery p o => [(p, o)] | _ => [] end)
    effects.

(** The session ids the stream of an execution establishes. *)
Definition established (messages : list (Z * SDKMessage)) : list string :=
  flat_map
    (fun tm => match snd tm with MsgSystemInit sid => [sid] | _ => [] end)
    messages.

(** Whether a record passes a [list] filter, read off the two guards. *)
Definition passes (filter : option ListFilter) (s : SessionInfo) : bool :=
  match filter with
  | None => true
  | Some f =>
      (match f_agent f with
       | Some a => if truthy a then String.eqb (agent s) a else true
       | None => true
       end)
      && (match f_active_only f with
          | Some true => is_active s
          | _ => true
          end)
  end.

(** Every active record has a handle registered under its id. *)
Definition active_has_handle (st : SessionStore.t) : Prop :=
  forall sid r,
    SessionStore.get st sid = Some r ->
    is_active r = true ->
    exists q, SessionStore.getQuery st sid = Some q.

(** Every registered handle belongs to an active record; put the other way
    round, an inactive record retains no handle. *)
Definition handle_has_active (st : SessionStore.t) : Prop :=
  forall sid q,
    SessionStore.getQuery st sid = Some q ->
    exists r, SessionStore.get st sid = Some r /\ is_active r = true.

(** An operation other than a [save] without a query. *)
Definition supplies_handle (op : StoreOp) : bool :=
  match op with
  | OpSave _ _ _ _ None => false
  | _ => true
  end.

(** The [runAgent] call a batch task makes. *)
Definition invocation_of (task : BatchTask) : RunAgentParams :=
  {| rp_agent := bt_agent task;
     rp_task := bt_task task;
     rp_resume := None;
     rp_fork := None |}.

(** A task fails when its invocation throws or returns without success. *)
Definition task_failed (run : TaskRun) : bool :=
  match run_outcome run with
  | Return result => negb (ar_success result)
  | Throw _ => true
  end.

(** [st'] still holds every record of [st], with the [initial_task] and
    [created_at] it had. *)
Definition keeps_origin (st st' : SessionStore.t) : Prop :=
  forall sid r,
    SessionStore.get st sid = Some r ->
    exists r',
      SessionStore.get st' sid = Some r'
      /\ initial_task r' = initial_task r
      /\ created_at r' = created_at r.

(** A handler call other than [onInit]. *)
Definition not_onInit (h : HandlerCall) : Prop :=
  match h with
  | OnInit _ => False
  | _ => True
  end.

(** A store as [save], [complete], [remove] and [clear] build it: no id
    occurs twice in either table, and a record is filed under its own
    [session_id]. *)
Definition store_wf (st : SessionStore.t) : Prop :=
  NoDup (JsMap.keys (SessionStore.sessions st))
  /\ NoDup (JsMap.keys (SessionStore.activeQueries st))
  /\ (forall sid r, SessionStore.get st sid = Some r -> session_id r = sid).

(** An operation that deletes no record. *)
Definition keeps_records (op : StoreOp) : bool :=
  match op with
  | OpRemove _ => false
  | OpClear => false
  | _ => true
  end.

(** An operation that may change what the store holds for [sid]. *)
Definition touches (sid : string) (op : StoreOp) : bool :=
  match op with
  | OpSave _ s _ _ _ => String.eqb s sid
  | OpComplete _ s => String.eqb s sid
  | OpCancel _ _ s => String.eqb s sid
  | OpRemove s => String.eqb s sid
  | OpClear => true
  end.

(** An operation that leaves [sid] running: a [save] with a query. *)
Definition activates (sid : string) (op : StoreOp) : bool :=
  match op with
  | OpSave _ s _ _ (Some _) => String.eqb s sid
  | _ => false
  end.

(** The shape every delegation context keeps: one chain entry per level,
    no agent twice, depth within the bound. *)
Definition context_wf (ctx : ExecutionContext) : Prop :=
  length (agentStack ctx) = depth ctx + 1
  /\ NoDup (agentStack ctx)
  /\ depth ctx <= MAX_DELEGATION_DEPTH.

(** A block that records a file written: a tool use named Write or Edit
    with a non-empty [file_path]. *)
Definition writes_file (b : ContentBlock) : bool :=
  match b with
  | ToolUse tool (Some path) =>
      (String.eqb tool "Write" || String.eqb tool "Edit") && truthy path
  | _ => false
  end.

Definition path_of (b : ContentBlock) : string :=
  match b with
  | ToolUse _ (Some path) => path
  | _ => EmptyString
  end.

(** The files a message reports as written: the paths of the file-writing
    blocks of an assistant message, in the order of the blocks. *)
Definition artifacts_in (m : SDKMessage) : list string :=
  match m with
  | MsgAssistant (Some content) => map path_of (filter writes_file content)
  | _ => []
  end.

(** The result text a message carries: that of a success result. *)
Definition results_in (m : SDKMessage) : list string :=
  match m with
  | MsgResultSuccess r => [r]
  | _ => []
  end.

(** The error a message reports: for a result other than a success, its
    errors joined by "; ", or its subtype when that text is empty. *)
Definition errors_in (m : SDKMessage) : list string :=
  match m with
  | MsgResultError subtype None => [subtype]
  | MsgResultError subtype (Some es) =>
      match String.concat "; " es with
      | EmptyString => [subtype]
      | joined => [joined]
      end
  | _ => []
  end.

(** What the other tasks may be assumed to do during the waits of a run:
    keep the record of a session, leave it as it is, leave the context
    registered for it as it is, or keep a session id out of the ledger. *)
Definition keeps_session (sid : string) (others : nat -> State -> State)
    : Prop :=
  forall i s,
    SessionStore.has (sessionStore s) sid = true ->
    SessionStore.has (sessionStore (others i s)) sid = true.

Definition leaves_session_alone (sid : string)
    (others : nat -> State -> State) : Prop :=
  forall i s,
    SessionStore.get (sessionStore (others i s)) sid
    = SessionStore.get (sessionStore s) sid.

Definition leaves_context_alone (sid : string)
    (others : nat -> State -> State) : Prop :=
  forall i s,
    JsMap.get (executionContexts (others i s)) sid
    = JsMap.get (executionContexts s) sid.

Definition keeps_out (sid : string) (others : nat -> State -> State)
    : Prop :=
  forall i s,
    SessionStore.has (sessionStore s) sid = false ->
    SessionStore.has (sessionStore (others i s)) sid = false.

(** The module state when the server starts. *)
Definition initialState : State :=
  {| sessionStore := SessionStore.new; executionContexts := JsMap.empty |}.

(** The calls that change the module state: a run, a delegation requested
    under a session id, and a cancellation with the settlement of its
    interrupt. *)
Inductive ServerCall :=
| CallRunAgent (params : RunAgentParams) (context : option ExecutionContext)
| CallDelegate (params : DelegateToAgentParams) (parentSessionId : string)
| CallCancel (now : Z) (interrupt : Result unit) (sessionId : string).

Definition serve (env : Env) (st : State) (call : ServerCall) : State :=
  match call with
  | CallRunAgent params context => snd (fst (runAgent env st params context))
  | CallDelegate params parentSessionId =>
      snd (fst (handleDelegation env st params parentSessionId))
  | CallCancel now interrupt sessionId =>
      {| sessionStore :=
           snd (fst (SessionStore.cancel now interrupt (fun s => s)
                       (sessionStore st) sessionId));
         executionContexts := executionContexts st |}
  end.

(** An engine that never establishes a session under the id [sid]. *)
Definition never_establishes (e : Engine) (sid : string) : Prop :=
  forall prompt options ex,
    e prompt options = QueryStarted ex ->
    ~ In sid (established (ex_messages ex)).

(** The error that makes [loadDir] throw for a directory, if any: a
    failure of [stat] other than a missing entry, or a failure of
    [readdir]. *)
Definition read_error (fs : FileSystem) (dir : string) : option Thrown :=
  match dir_stat (fs dir) with
  | StatFails e => Some e
  | IsDirectory =>
      match dir_list (fs dir) with
      | Throw e => Some e
      | Return _ => None
      end
  | _ => None
  end.

Definition readable (fs : FileSystem) (dir : string) : bool :=
  match read_error fs dir with
  | Some _ => false
  | None => true
  end.

(** The markdown files of a directory, in listing order. *)
Definition markdown_files (fs : FileSystem) (dir : string) : list DirFile :=
  match dir_stat (fs dir), dir_list (fs dir) with
  | IsDirectory, Return files => filter file_is_md files
  | _, _ => []
  end.

(** The agent definitions a directory holds: those of its markdown files
    that load, in listing order. *)
Definition definitions_in (fs : FileSystem) (dir : string)
    : list AgentConfig :=
  flat_map
    (fun f => match file_load f with Return c => [c] | Throw _ => [] end)
    (markdown_files fs dir).

(** The markdown files of a directory that fail to load. *)
Definition broken_files (fs : FileSystem) (dir : string)
    : list (string * Thrown) :=
  flat_map
    (fun f =>
       match file_load f with
       | Return _ => []
       | Throw e => [(file_name f, e)]
       end)
    (markdown_files fs dir).

(** The last definition of an agent name in a sequence of definitions. *)
Definition latest (n : string) (configs : list AgentConfig)
    : option AgentConfig :=
  find (fun c => String.eqb (name c) n) (rev configs).

(** ** Sample data for the concrete instances *)

Definition sampleConfig (agentName : string) : AgentConfig :=
  {| name := agentName;
     description := "sample agent";
     systemPrompt := "You are a sample agent.";
     model := None |}.

Definition sampleRegistry : AgentRegistry.t :=
  [("coder", sampleConfig "coder"); ("unknown", sampleConfig "unknown")].

Definition sampleEnv (e : Engine) : Env :=
  {| registry := sampleRegistry;
     delegationInfo := EmptyString;
     engine := e |}.

(** A store holding the finished session "s1" of agent "coder". *)
Definition sampleState : State :=
  {| sessionStore :=
       run_ops [OpSave 10 "s1" "coder" "first task"
                  (Some {| handle_id := 1 |});
                OpComplete 20 "s1"];
     executionContexts := JsMap.empty |}.

(** An engine whose every execution establishes session "s1" and succeeds. *)
Definition resumingEngine : Engine :=
  fun _ _ =>
    QueryStarted
      {| ex_query := {| handle_id := 2 |};
         ex_messages := [(30%Z, MsgSystemInit "s1");
                         (40%Z, MsgResultSuccess "done")];
         ex_end := StreamDone;
         ex_end_time := 50 |}.

(** An engine that fails before it establishes a session. *)
Definition failingEngine : Engine :=
  fun _ _ => QueryThrows (Error "spawn failed").

(** Other tasks that, during the second wait of a run, save a session "s9"
    of their own and register a context for it. *)
Definition sampleOthers : nat -> State -> State :=
  fun i s =>
    if (i =? 1)%nat then
      {| sessionStore :=
           SessionStore.save 33 (sessionStore s) "s9" "planner" "plan"
             (Some {| handle_id := 9 |});
         executionContexts :=
           JsMap.set (executionContexts s) "s9"
             (createDefaultContext "planner" "s9") |}
    else s.

(** An engine that issues the session id "unknown". *)
Definition namingEngine : Engine :=
  fun _ _ =>
    QueryStarted
      {| ex_query := {| handle_id := 6 |};
         ex_messages := [(30%Z, MsgSystemInit "unknown")];
         ex_end := StreamDone;
         ex_end_time := 40 |}.

(** An engine whose every execution establishes session "s2", writes and
    edits files, reports an error result and ends its stream. *)
Definition writingEngine : Engine :=
  fun _ _ =>
    QueryStarted
      {| ex_query := {| handle_id := 3 |};
         ex_messages :=
           [(30%Z, MsgSystemInit "s2");
            (35%Z, MsgAssistant
                     (Some [ToolUse "Write" (Some "a.ts"); OtherBlock;
                            ToolUse "Read" (Some "c.ts");
                            ToolUse "Edit" (Some "b.ts")]));
            (38%Z, MsgAssistant (Some [ToolUse "Edit" (Some "a.ts")]));
            (40%Z, MsgResultError "error_max_turns" (Some ["too long"]))];
         ex_end := StreamDone;
         ex_end_time := 50 |}.

(** An engine whose every execution establishes session "s2", writes a
    file, and whose stream then throws. *)
Definition crashingEngine : Engine :=
  fun _ _ =>
    QueryStarted
      {| ex_query := {| handle_id := 4 |};
         ex_messages :=
           [(30%Z, MsgSystemInit "s2");
            (35%Z, MsgAssistant (Some [ToolUse "Write" (Some "a.ts")]))];
         ex_end := StreamThrows (Error "connection lost");
         ex_end_time := 50 |}.

(** A file system with a project directory and a user directory that both
    define the agent "coder"; the project directory also holds a file
    that does not parse and one that is no markdown file. *)
Definition sampleFs : FileSystem :=
  fun dir =>
    if String.eqb dir "/proj/.claude/agents" then
      {| dir_stat := IsDirectory;
         dir_list :=
           Return
             [{| file_name := "coder.md";
                 file_is_md := true;
                 file_load :=
                   Return {| name := "coder";
                             description := "project coder";
                             systemPrompt := "project prompt";
                             model := None |} |};
              {| file_name := "broken.md";
                 file_is_md := true;
                 file_load := Throw (Error "Missing frontmatter") |};
              {| file_name := "notes.txt";
                 file_is_md := false;
                 file_load := Throw (Error "not read") |}] |}
    else if String.eqb dir "/home/.claude/agents" then
      {| dir_stat := IsDirectory;
         dir_list :=
           Return
             [{| file_name := "coder.md";
                 file_is_md := true;
                 file_load :=
                   Return {| name := "coder";
                             description := "user coder";
                             systemPrompt := "user prompt";
                             model := None |} |};
              {| file_name := "reviewer.md";
                 file_is_md := true;
                 file_load :=
                   Return {| name := "reviewer";
                             description := "user reviewer";
                             systemPrompt := "review";
                             model := None |} |}] |}
    else {| dir_stat := NoEntry; dir_list := Return [] |}.

Definition freshRegistry : Registry :=
  {| agents := JsMap.empty; agentsDirs := []; loaded := false |}.

(** A world for tool calls in which nothing else runs. *)
Definition sampleWorld (e : Engine) : CallWorld :=
  {| w_env := sampleEnv e;
     w_toISOString := fun t => nat_to_string (Z.to_nat t);
     w_batchStart := 0;
     w_batchEnd := 0;
     w_invoke :=
       fun _ _ =>
         {| run_start := 0;
            run_outcome := Throw (Error "not run");
            run_end := 0 |};
     w_afterBatch := fun s => s;
     w_cancelTime := 60;
     w_interrupt := Return tt;
     w_during := fun s => s |}.

(* ====================================================================== *)
(** * Facts about the JavaScript helpers                                   *)
(* ====================================================================== *)

Lemma truthy_nonempty (s : string) : truthy s = true <-> s <> EmptyString.
Proof.
  destruct s; simpl; split; congruence.
Qed.

Lemma includes_In (l : list string) (x : string) :
  includes l x = true <-> In x l.
Proof.
  unfold includes. rewrite existsb_exists. split.
  - intros [y [Hy Heq]]. apply String.eqb_eq in Heq. now subst.
  - intros H. exists x. split; [assumption | apply String.eqb_refl].
Qed.

Lemma includes_not_In (l : list string) (x : string) :
  includes l x = false <-> ~ In x l.
Proof.
  rewrite <- includes_In. destruct (includes l x); split; congruence.
Qed.

Module JsMapFacts.
Section Facts.
Variable V : Type.
Implicit Types (m : JsMap.t V) (k : string) (v : V).

Lemma get_set_eq m k v : JsMap.get (JsMap.set m k v) k = Some v.
Proof.
induction m as [|[k' v'] m IH]; simpl.
- now rewrite String.eqb_refl.
- destruct (String.eqb k' k) eqn:E; simpl; rewrite E; auto.
Qed.

Lemma get_set_neq m k k' v :
k <> k' -> JsMap.get (JsMap.set m k v) k' = JsMap.get m k'.
Proof.
intros Hne. induction m as [|[k0 v0] m IH]; simpl.
- apply String.eqb_neq in Hne. now rewrite Hne.
- destruct (String.eqb k0 k) eqn:E; simpl.
  + apply String.eqb_eq in E. subst k0.
    apply String.eqb_neq in Hne. now rewrite Hne.
  + now rewrite IH.
Qed.

Lemma get_delete_eq m k : JsMap.get (JsMap.delete m k) k = None.
Proof.
induction m as [|[k' v'] m IH]; simpl; auto.
destruct (String.eqb k' k) eqn:E; simpl; auto. now rewrite E.
Qed.

Lemma get_delete_neq m k k' :
k <> k' -> JsMap.get (JsMap.delete m k) k' = JsMap.get m k'.
Proof.
intros Hne. induction m as [|[k0 v0] m IH]; simpl; auto.
destruct (String.eqb k0 k) eqn:E; simpl.
- apply String.eqb_eq in E. subst k0.
  apply String.eqb_neq in Hne. now rewrite Hne.
- now rewrite IH.
Qed.

Lemma get_set m k k' v :
JsMap.get (JsMap.set m k v) k' =
if String.eqb k k' then Some v else JsMap.get m k'.
Proof.
destruct (String.eqb k k') eqn:E.
- apply String.eqb_eq in E. subst. apply get_set_eq.
- apply String.eqb_neq in E. now apply get_set_neq.
Qed.

Lemma get_delete m k k' :
JsMap.get (JsMap.delete m k) k' =
if String.eqb k k' then None else JsMap.get m k'.
Proof.
destruct (String.eqb k k') eqn:E.
- apply String.eqb_eq in E. subst. apply get_delete_eq.
- apply String.eqb_neq in E. now apply get_delete_neq.
Qed.
End Facts.
End JsMapFacts.

(* ====================================================================== *)
(** * Delegation contexts: depth bound and cycle detection                 *)
(* ====================================================================== *)

Section ChildContext.
Implicit Types (parent ctx : ExecutionContext) (child : string).

Lemma createChildContext_depth parent child :
  raises (createChildContext parent child) DELEGATION_DEPTH_EXCEEDED
  <-> MAX_DELEGATION_DEPTH < depth parent + 1.
Proof.
  unfold createChildContext.
  destruct (MAX_DELEGATION_DEPTH <? depth parent + 1)%nat eqn:E.
  - apply Nat.ltb_lt in E. simpl. tauto.
  - apply Nat.ltb_ge in E.
    destruct (includes (agentStack parent) child); simpl;
      split; intros H; try discriminate; try contradiction; lia.
Qed.

Lemma createChildContext_cycle parent child :
  depth parent + 1 <= MAX_DELEGATION_DEPTH ->
  In child (agentStack parent) ->
  exists msg,
    createChildContext parent child =
    Throw (AgentError msg DELEGATION_CYCLE_DETECTED
             (CycleDetails child (agentStack parent ++ [child]))).
Proof.
  intros Hd Hin. unfold createChildContext.
  apply Nat.ltb_ge in Hd. rewrite Hd.
  apply includes_In in Hin. rewrite Hin. eauto.
Qed.

Lemma createChildContext_ok parent child :
  depth parent + 1 <= MAX_DELEGATION_DEPTH ->
  ~ In child (agentStack parent) ->
  createChildContext parent child =
  Return {| depth := depth parent + 1;
            agentStack := agentStack parent ++ [child];
            rootSessionId := rootSessionId parent |}.
Proof.
  intros Hd Hin. unfold createChildContext.
  apply Nat.ltb_ge in Hd. rewrite Hd.
  apply includes_not_In in Hin. now rewrite Hin.
Qed.

Lemma createChildContext_Return parent child ctx :
  createChildContext parent child = Return ctx ->
  depth ctx = depth parent + 1
  /\ agentStack ctx = agentStack parent ++ [child]
  /\ rootSessionId ctx = rootSessionId parent.
Proof.
  unfold createChildContext.
  destruct (MAX_DELEGATION_DEPTH <? depth parent + 1)%nat; [discriminate|].
  destruct (includes (agentStack parent) child); [discriminate|].
  intros H. injection H as <-. auto.
Qed.

Lemma descend_all_Return children : forall parent ctx,
  descend_all parent children = Return ctx ->
  depth ctx = depth parent + length children
  /\ agentStack ctx = agentStack parent ++ children
  /\ rootSessionId ctx = rootSessionId parent.
Proof.
  induction children as [|c rest IH]; simpl; intros parent ctx H.
  - injection H as <-. rewrite app_nil_r. auto with arith.
  - destruct (createChildContext parent c) as [mid|] eqn:E; [|discriminate].
    apply createChildContext_Return in E. destruct E as (Ed & Es & Er).
    apply IH in H. destruct H as (Hd & Hs & Hr).
    rewrite Hd, Hs, Hr, Ed, Es, Er, <- app_assoc. simpl.
    repeat split; auto. lia.
Qed.

Lemma descend_all_not_early children : forall parent,
  depth parent + length children <= MAX_DELEGATION_DEPTH ->
  ~ raises (descend_all parent children) DELEGATION_DEPTH_EXCEEDED.
Proof.
  induction children as [|c rest IH]; simpl; intros parent Hd.
  - auto.
  - destruct (createChildContext parent c) as [mid|e] eqn:E.
    + apply IH. apply createChildContext_Return in E.
      destruct E as (Ed & _). lia.
    + intros Hr.
      assert (Hx : raises (createChildContext parent c)
                     DELEGATION_DEPTH_EXCEEDED) by now rewrite E.
      apply createChildContext_depth in Hx. lia.
Qed.

Lemma descend_all_distinct children : forall parent,
  NoDup (agentStack parent ++ children) ->
  depth parent + length children <= MAX_DELEGATION_DEPTH ->
  descend_all parent children =
  Return {| depth := depth parent + length children;
            agentStack := agentStack parent ++ children;
            rootSessionId := rootSessionId parent |}.
Proof.
  induction children as [|c rest IH]; simpl; intros parent Hnd Hd.
  - rewrite app_nil_r, Nat.add_0_r. now destruct parent.
  - rewrite createChildContext_ok.
    + rewrite IH; simpl.
      * rewrite <- app_assoc. simpl. f_equal. f_equal. lia.
      * now rewrite <- app_assoc.
      * lia.
    + lia.
    + intros Hin. apply NoDup_remove_2 in Hnd. apply Hnd.
      apply in_or_app. now left.
Qed.
End ChildContext.

Lemma descend_all_app (l1 l2 : list string) : forall parent,
  descend_all parent (l1 ++ l2) =
  match descend_all parent l1 with
  | Return ctx => descend_all ctx l2
  | Throw e => Throw e
  end.
Proof.
  induction l1 as [|c l1 IH]; simpl; intros parent; auto.
  destruct (createChildContext parent c); auto.
Qed.

(** C1 (amended).  Deriving a child context raises
    DELEGATION_DEPTH_EXCEEDED exactly when [parent.depth + 1] exceeds
    [MAX_DELEGATION_DEPTH = 5]; the depth check comes first, so a descent
    that is too deep and cyclic reports the depth error and not the cycle.
    Descending repeatedly from a root context never raises the depth error
    during the first [MAX_DELEGATION_DEPTH] descents (with pairwise distinct
    agents they all succeed, reaching depth [MAX_DELEGATION_DEPTH] and a
    chain of [MAX_DELEGATION_DEPTH + 1] agents), and the next descent, from
    depth max to depth max+1, raises it whatever the agent. *)
Theorem C1_depth_exceeded_beyond_max_depth :
  MAX_DELEGATION_DEPTH = 5
  /\ (forall parent child,
        raises (createChildContext parent child) DELEGATION_DEPTH_EXCEEDED
        <-> MAX_DELEGATION_DEPTH < depth parent + 1)
  /\ (forall parent child,
        MAX_DELEGATION_DEPTH < depth parent + 1 ->
        In child (agentStack parent) ->
        raises (createChildContext parent child) DELEGATION_DEPTH_EXCEEDED
        /\ ~ raises (createChildContext parent child)
               DELEGATION_CYCLE_DETECTED)
  /\ (forall rootAgent sid children,
        length children <= MAX_DELEGATION_DEPTH ->
        ~ raises (descend_all (createDefaultContext rootAgent sid) children)
            DELEGATION_DEPTH_EXCEEDED)
  /\ (forall rootAgent sid children,
        NoDup (rootAgent :: children) ->
        length children <= MAX_DELEGATION_DEPTH ->
        descend_all (createDefaultContext rootAgent sid) children =
        Return {| depth := length children;
                  agentStack := rootAgent :: children;
                  rootSessionId := sid |})
  /\ (forall rootAgent sid children ctx child,
        length children = MAX_DELEGATION_DEPTH ->
        descend_all (createDefaultContext rootAgent sid) children
        = Return ctx ->
        depth ctx = MAX_DELEGATION_DEPTH
        /\ length (agentStack ctx) = MAX_DELEGATION_DEPTH + 1
        /\ raises (createChildContext ctx child) DELEGATION_DEPTH_EXCEEDED
        /\ raises (descend_all (createDefaultContext rootAgent sid)
                     (children ++ [child]))
             DELEGATION_DEPTH_EXCEEDED).
Proof.
  split; [reflexivity|].
  split; [exact createChildContext_depth|].
  split.
  { intros parent child Hd _.
    assert (H : raises (createChildContext parent child)
                  DELEGATION_DEPTH_EXCEEDED)
      by now apply createChildContext_depth.
    split; [exact H|].
    destruct (createChildContext parent child) as [|[m c d| |]];
      simpl in *; congruence. }
  split.
  { intros rootAgent sid children Hlen.
    apply descend_all_not_early. simpl. exact Hlen. }
  split.
  { intros rootAgent sid children Hnd Hlen.
    now rewrite descend_all_distinct. }
  intros rootAgent sid children ctx child Hlen Hrun.
  pose proof (descend_all_Return _ _ Hrun) as (Hd & Hs & _).
  simpl in Hd, Hs.
  assert (Hx : raises (createChildContext ctx child)
                 DELEGATION_DEPTH_EXCEEDED).
  { apply createChildContext_depth. lia. }
  repeat split.
  - lia.
  - rewrite Hs. simpl. unfold MAX_DELEGATION_DEPTH in *. lia.
  - exact Hx.
  - rewrite descend_all_app, Hrun. simpl.
    destruct (createChildContext ctx child); [contradiction | exact Hx].
Qed.

(** The depth error at a concrete chain: five descents from the root
    "planner" succeed and the sixth is refused. *)
Lemma C1_depth_exceeded_witness :
  descend_all (createDefaultContext "planner" "s0") ["a1"; "a2"; "a3"; "a4"; "a5"]
  = Return {| depth := 5;
              agentStack := ["planner"; "a1"; "a2"; "a3"; "a4"; "a5"];
              rootSessionId := "s0" |}
  /\ raises (descend_all (createDefaultContext "planner" "s0")
               (["a1"; "a2"; "a3"; "a4"; "a5"] ++ ["a6"]))
       DELEGATION_DEPTH_EXCEEDED.
Proof.
  destruct C1_depth_exceeded_beyond_max_depth as (_ & _ & _ & _ & Hok & Hfail).
  assert (Hrun :
    descend_all (createDefaultContext "planner" "s0")
      ["a1"; "a2"; "a3"; "a4"; "a5"]
    = Return {| depth := 5;
                agentStack := ["planner"; "a1"; "a2"; "a3"; "a4"; "a5"];
                rootSessionId := "s0" |}).
  { apply (Hok "planner" "s0" ["a1"; "a2"; "a3"; "a4"; "a5"]).
    - repeat constructor; simpl; intuition discriminate.
    - unfold MAX_DELEGATION_DEPTH. simpl. lia. }
  split; [exact Hrun|].
  apply (Hfail "planner" "s0" ["a1"; "a2"; "a3"; "a4"; "a5"] _ "a6"
           eq_refl Hrun).
Defined.

(** The specification places the failure at the step from a chain of
    [max] agents to one of [max + 1]: that step succeeds. *)
Lemma C1_chain_length_counterexample :
  let ctx := {| depth := 4;
                agentStack := ["a0"; "a1"; "a2"; "a3"; "a4"];
                rootSessionId := "s0" |} in
  descend_all (createDefaultContext "a0" "s0") ["a1"; "a2"; "a3"; "a4"]
  = Return ctx
  /\ length (agentStack ctx) = MAX_DELEGATION_DEPTH
  /\ createChildContext ctx "a5"
     = Return {| depth := 5;
                 agentStack := ["a0"; "a1"; "a2"; "a3"; "a4"; "a5"];
                 rootSessionId := "s0" |}
  /\ length ["a0"; "a1"; "a2"; "a3"; "a4"; "a5"] = MAX_DELEGATION_DEPTH + 1
  /\ ~ raises (createChildContext ctx "a5") DELEGATION_DEPTH_EXCEEDED.
Proof.
  cbv zeta. repeat split; try reflexivity.
  vm_compute. auto.
Qed.

(** C2.  Whenever the depth check passes and the child already occurs in
    the parent's agent stack, [createChildContext] raises
    DELEGATION_CYCLE_DETECTED, reporting the parent's chain followed by the
    child; this covers an agent delegating to itself from a depth-0 root;
    and planner -> coder -> reviewer delegating back to planner reports the
    chain [planner, coder, reviewer, planner]. *)
Theorem C2_cycle_detected :
  (forall parent child,
     depth parent + 1 <= MAX_DELEGATION_DEPTH ->
     In child (agentStack parent) ->
     raises (createChildContext parent child) DELEGATION_CYCLE_DETECTED
     /\ reported_chain (createChildContext parent child)
        = Some (agentStack parent ++ [child]))
  /\ (forall agentName sid,
        raises (createChildContext (createDefaultContext agentName sid)
                  agentName)
          DELEGATION_CYCLE_DETECTED)
  /\ (forall sid,
        exists reviewer,
          descend_all (createDefaultContext "planner" sid)
            ["coder"; "reviewer"] = Return reviewer
          /\ depth reviewer = 2
          /\ raises (createChildContext reviewer "planner")
               DELEGATION_CYCLE_DETECTED
          /\ reported_chain (createChildContext reviewer "planner")
             = Some ["planner"; "coder"; "reviewer"; "planner"]).
Proof.
  assert (Hgen : forall parent child,
     depth parent + 1 <= MAX_DELEGATION_DEPTH ->
     In child (agentStack parent) ->
     raises (createChildContext parent child) DELEGATION_CYCLE_DETECTED
     /\ reported_chain (createChildContext parent child)
        = Some (agentStack parent ++ [child])).
  { intros parent child Hd Hin.
    destruct (createChildContext_cycle parent child Hd Hin) as [msg ->].
    simpl. auto. }
  split; [exact Hgen|]. split.
  - intros agentName sid. apply Hgen; simpl.
    + unfold MAX_DELEGATION_DEPTH. lia.
    + now left.
  - intros sid. eexists. split; [reflexivity|]. split; [reflexivity|].
    apply (Hgen {| depth := 2;
                   agentStack := ["planner"; "coder"; "reviewer"];
                   rootSessionId := sid |} "planner"); simpl.
    + unfold MAX_DELEGATION_DEPTH. lia.
    + now left.
Qed.

(** The cycle check at the chain planner -> coder -> reviewer -> coder. *)
Lemma C2_cycle_detected_witness :
  raises (createChildContext
            {| depth := 2;
               agentStack := ["planner"; "coder"; "reviewer"];
               rootSessionId := "s0" |} "coder")
    DELEGATION_CYCLE_DETECTED
  /\ reported_chain
       (createChildContext
          {| depth := 2;
             agentStack := ["planner"; "coder"; "reviewer"];
             rootSessionId := "s0" |} "coder")
     = Some (["planner"; "coder"; "reviewer"] ++ ["coder"]).
Proof.
  apply (proj1 C2_cycle_detected
           {| depth := 2;
              agentStack := ["planner"; "coder"; "reviewer"];
              rootSessionId := "s0" |} "coder").
  - unfold MAX_DELEGATION_DEPTH. simpl. lia.
  - simpl. right. left. reflexivity.
Defined.

(* ====================================================================== *)
(** * Session ledger: completion, cancellation and the handle table        *)
(* ====================================================================== *)

Section Ledger.
Implicit Types (st : SessionStore.t) (sid : string).

Lemma complete_isActive now st sid :
  SessionStore.isActive (SessionStore.complete now st sid) sid = false.
Proof.
  unfold SessionStore.isActive, SessionStore.complete. simpl.
  destruct (JsMap.get (SessionStore.sessions st) sid) eqn:E.
  - now rewrite JsMapFacts.get_set_eq.
  - now rewrite E.
Qed.

Lemma complete_getQuery now st sid :
  SessionStore.getQuery (SessionStore.complete now st sid) sid = None.
Proof.
  unfold SessionStore.getQuery, SessionStore.complete. simpl.
  apply JsMapFacts.get_delete_eq.
Qed.

Lemma complete_record now st sid r :
  SessionStore.get (SessionStore.complete now st sid) sid = Some r ->
  is_active r = false /\ last_active r = now.
Proof.
  unfold SessionStore.get, SessionStore.complete. simpl.
  destruct (JsMap.get (SessionStore.sessions st) sid) eqn:E.
  - rewrite JsMapFacts.get_set_eq. intros H. injection H as <-. auto.
  - rewrite E. discriminate.
Qed.

(** [complete] touches no other session. *)
Lemma complete_other now st sid sid' :
  sid <> sid' ->
  SessionStore.get (SessionStore.complete now st sid) sid'
  = SessionStore.get st sid'
  /\ SessionStore.getQuery (SessionStore.complete now st sid) sid'
     = SessionStore.getQuery st sid'.
Proof.
  intros Hne.
  unfold SessionStore.get, SessionStore.getQuery, SessionStore.complete.
  simpl. split.
  - destruct (JsMap.get (SessionStore.sessions st) sid); auto.
    now apply JsMapFacts.get_set_neq.
  - now apply JsMapFacts.get_delete_neq.
Qed.

End Ledger.

(** C3.  With a handle registered for the session, [cancel] requests its
    interrupt and, whether the interrupt resolves or throws and whatever the
    other tasks did to the store while it was awaited, marks the session
    complete and returns [true]: the record the store holds for the
    session at that moment is kept, with every field as it was except
    [is_active], now false, and [last_active], now the time of the
    completion; the handle is released; a thrown interrupt is logged and
    nothing more; and no other session is touched.  With no handle
    registered it returns [false], has no effect and leaves the store as
    it was. *)
Theorem C3_cancel_completes_or_leaves_unchanged :
  (forall now interrupt during st sid q,
     SessionStore.getQuery st sid = Some q ->
     let out := SessionStore.cancel now interrupt during st sid in
     fst (fst out) = true
     /\ snd out
        = EInterrupt q
          :: match interrupt with
             | Return _ => []
             | Throw error =>
                 [ELogError ("[SessionStore] Failed to cancel " ++ sid ++ ":")
                    error]
             end
     /\ (forall r,
           SessionStore.get (during st) sid = Some r ->
           SessionStore.get (snd (fst out)) sid
           = Some {| session_id := session_id r;
                     agent := agent r;
                     initial_task := initial_task r;
                     created_at := created_at r;
                     last_active := now;
                     is_active := false |})
     /\ (SessionStore.get (during st) sid = None ->
         SessionStore.get (snd (fst out)) sid = None)
     /\ SessionStore.isActive (snd (fst out)) sid = false
     /\ SessionStore.getQuery (snd (fst out)) sid = None
     /\ (forall sid',
           sid' <> sid ->
           SessionStore.get (snd (fst out)) sid'
           = SessionStore.get (during st) sid'
           /\ SessionStore.getQuery (snd (fst out)) sid'
              = SessionStore.getQuery (during st) sid'))
  /\ (forall now interrupt during st sid,
        SessionStore.getQuery st sid = None ->
        SessionStore.cancel now interrupt during st sid = (false, st, [])).
Proof.
  split.
  - intros now interrupt during st sid q Hq. cbv zeta.
    unfold SessionStore.getQuery in Hq.
    assert (Hc : SessionStore.cancel now interrupt during st sid
                 = (true, SessionStore.complete now (during st) sid,
                    EInterrupt q
                    :: match interrupt with
                       | Return _ => []
                       | Throw error =>
                           [ELogError
                              ("[SessionStore] Failed to cancel " ++ sid
                               ++ ":") error]
                       end)).
    { unfold SessionStore.cancel. rewrite Hq. now destruct interrupt. }
    rewrite Hc. cbn [fst snd].
    split; [reflexivity|]. split; [reflexivity|].
    split; [|split].
    + intros r Hr. unfold SessionStore.get, SessionStore.complete in *.
      cbn [SessionStore.sessions]. rewrite Hr.
      apply JsMapFacts.get_set_eq.
    + intros Hr. unfold SessionStore.get, SessionStore.complete in *.
      cbn [SessionStore.sessions]. now rewrite Hr.
    + split; [apply complete_isActive|].
      split; [apply complete_getQuery|].
      intros sid' Hne. apply complete_other. congruence.
  - intros now interrupt during st sid Hq.
    unfold SessionStore.getQuery in Hq.
    unfold SessionStore.cancel. now rewrite Hq.
Qed.

(** Cancelling a running session whose interrupt call throws, while another
    session is saved during the wait. *)
Lemma C3_cancel_witness :
  let st := SessionStore.save 10 SessionStore.new "s1" "coder" "task"
              (Some {| handle_id := 7 |}) in
  let during := fun s =>
    SessionStore.save 15 s "s2" "planner" "plan"
      (Some {| handle_id := 8 |}) in
  let out :=
    SessionStore.cancel 20 (Throw (Error "engine gone")) during st "s1" in
  fst (fst out) = true
  /\ snd out
     = [EInterrupt {| handle_id := 7 |};
        ELogError "[SessionStore] Failed to cancel s1:" (Error "engine gone")]
  /\ SessionStore.get (snd (fst out)) "s1"
     = Some {| session_id := "s1";
               agent := "coder";
               initial_task := "task";
               created_at := 10;
               last_active := 20;
               is_active := false |}
  /\ SessionStore.getQuery (snd (fst out)) "s1" = None
  /\ SessionStore.isActive (snd (fst out)) "s2" = true.
Proof.
  cbv zeta.
  destruct (proj1 C3_cancel_completes_or_leaves_unchanged 20%Z
              (Throw (Error "engine gone"))
              (fun s =>
                 SessionStore.save 15 s "s2" "planner" "plan"
                   (Some {| handle_id := 8 |}))
              (SessionStore.save 10%Z SessionStore.new "s1" "coder" "task"
                 (Some {| handle_id := 7 |}))
              "s1" {| handle_id := 7 |} eq_refl)
    as (H1 & H2 & H3 & _ & _ & H6 & _).
  split; [exact H1|]. split; [exact H2|].
  split; [exact (H3 _ eq_refl)|]. split; [exact H6 | reflexivity].
Defined.

(* ====================================================================== *)
(** * Session ledger: records and handles over sequences of operations     *)
(* ====================================================================== *)

Ltac store_cases :=
  repeat match goal with
    | H : context [JsMap.get (JsMap.set _ _ _) _] |- _ =>
        rewrite JsMapFacts.get_set in H
    | H : context [JsMap.get (JsMap.delete _ _) _] |- _ =>
        rewrite JsMapFacts.get_delete in H
    | |- context [JsMap.get (JsMap.set _ _ _) _] =>
        rewrite JsMapFacts.get_set
    | |- context [JsMap.get (JsMap.delete _ _) _] =>
        rewrite JsMapFacts.get_delete
    end.

Lemma active_has_handle_step (st : SessionStore.t) (op : StoreOp) :
  active_has_handle st -> active_has_handle (apply_op st op).
Proof.
  unfold active_has_handle, SessionStore.get, SessionStore.getQuery.
  intros Inv.
  assert (Hcomplete : forall now sid0 sid r,
    JsMap.get (SessionStore.sessions (SessionStore.complete now st sid0)) sid
    = Some r ->
    is_active r = true ->
    exists q,
      JsMap.get (SessionStore.activeQueries
                   (SessionStore.complete now st sid0)) sid = Some q).
  { intros now sid0 sid r. unfold SessionStore.complete. simpl.
    destruct (JsMap.get (SessionStore.sessions st) sid0) eqn:E0;
      store_cases; destruct (String.eqb sid0 sid) eqn:E; intros Hr Ha.
    - injection Hr as <-. discriminate.
    - eauto.
    - apply String.eqb_eq in E. subst. congruence.
    - eauto. }
  destruct op as [now sid0 a t q|now sid0|now i sid0|sid0|]; simpl.
  - intros sid r. unfold SessionStore.save. simpl.
    destruct q as [q0|]; store_cases;
      destruct (String.eqb sid0 sid) eqn:E; intros Hr Ha; eauto.
    injection Hr as <-. discriminate.
  - apply Hcomplete.
  - unfold SessionStore.cancel.
    destruct (JsMap.get (SessionStore.activeQueries st) sid0);
      [destruct i|]; cbn [fst snd]; auto; apply Hcomplete.
  - intros sid r. store_cases.
    destruct (String.eqb sid0 sid); [discriminate | eauto].
  - intros sid r. discriminate.
Qed.

Lemma handle_has_active_step (st : SessionStore.t) (op : StoreOp) :
  supplies_handle op = true ->
  handle_has_active st -> handle_has_active (apply_op st op).
Proof.
  unfold handle_has_active, SessionStore.get, SessionStore.getQuery.
  intros Hop Inv.
  assert (Hcomplete : forall now sid0 sid q,
    JsMap.get (SessionStore.activeQueries
                 (SessionStore.complete now st sid0)) sid = Some q ->
    exists r,
      JsMap.get (SessionStore.sessions (SessionStore.complete now st sid0))
        sid = Some r /\ is_active r = true).
  { intros now sid0 sid q. unfold SessionStore.complete. simpl.
    store_cases. destruct (String.eqb sid0 sid) eqn:E; [discriminate|].
    intros Hq. destruct (JsMap.get (SessionStore.sessions st) sid0);
      store_cases; try rewrite E; eauto. }
  destruct op as [now sid0 a t q|now sid0|now i sid0|sid0|]; simpl.
  - destruct q as [q0|]; [|discriminate].
    intros sid q. unfold SessionStore.save. simpl. store_cases.
    destruct (String.eqb sid0 sid) eqn:E; eauto.
  - apply Hcomplete.
  - unfold SessionStore.cancel.
    destruct (JsMap.get (SessionStore.activeQueries st) sid0);
      [destruct i|]; cbn [fst snd]; auto; apply Hcomplete.
  - intros sid q. store_cases.
    destruct (String.eqb sid0 sid); [discriminate | eauto].
  - intros sid q. discriminate.
Qed.

Lemma fold_apply_op_inv (P : SessionStore.t -> Prop) (ok : StoreOp -> bool) :
  (forall st op, ok op = true -> P st -> P (apply_op st op)) ->
  forall ops st, forallb ok ops = true -> P st -> P (fold_left apply_op ops st).
Proof.
  intros Hstep. induction ops as [|op ops IH]; simpl; intros st Hok HP; auto.
  apply andb_prop in Hok. destruct Hok as [Hop Hops].
  apply IH; auto.
Qed.

(** In every state reached from a fresh store by [save], [complete],
    [cancel], [remove] and [clear], an active record has a live handle. *)
Theorem reachable_active_has_handle (ops : list StoreOp) :
  active_has_handle (run_ops ops).
Proof.
  unfold run_ops.
  apply (@fold_apply_op_inv active_has_handle (fun _ => true)).
  - intros st op _. apply active_has_handle_step.
  - now induction ops.
  - intros sid r H. discriminate.
Qed.

(** As long as every [save] supplies a query, as [runAgent] does, a handle
    is retained only for an active record. *)
Theorem reachable_handle_has_active (ops : list StoreOp) :
  forallb supplies_handle ops = true ->
  handle_has_active (run_ops ops).
Proof.
  intros Hops. unfold run_ops.
  apply (@fold_apply_op_inv handle_has_active supplies_handle); auto.
  - apply handle_has_active_step.
  - intros sid q H. discriminate.
Qed.

Lemma reachable_handle_has_active_witness :
  handle_has_active
    (run_ops [OpSave 10 "s1" "coder" "task" (Some {| handle_id := 1 |});
              OpCancel 20 (Return tt) "s1";
              OpSave 30 "s1" "coder" "more" (Some {| handle_id := 2 |})]).
Proof.
  apply (@reachable_handle_has_active
           [OpSave 10 "s1" "coder" "task" (Some {| handle_id := 1 |});
            OpCancel 20 (Return tt) "s1";
            OpSave 30 "s1" "coder" "more" (Some {| handle_id := 2 |})]).
  reflexivity.
Defined.

(** C4 (the code departs from the specification).  A [save] without a
    query on a session that is running marks the record inactive and keeps
    the old handle in [activeQueries]: the record is inactive, yet a handle
    is retained for its id, [activeCount] still counts it, and no session
    is listed as active. *)
Theorem C4_save_without_query_retains_handle :
  let q := {| handle_id := 1 |} in
  let st := run_ops [OpSave 10 "s1" "coder" "task" (Some q);
                     OpSave 20 "s1" "coder" "follow-up" None] in
  SessionStore.get st "s1"
  = Some {| session_id := "s1";
            agent := "coder";
            initial_task := "task";
            created_at := 10;
            last_active := 20;
            is_active := false |}
  /\ SessionStore.getQuery st "s1" = Some q
  /\ SessionStore.activeCount st = 1
  /\ SessionStore.list st
       (Some {| f_agent := None; f_active_only := Some true |}) = []
  /\ ~ handle_has_active st.
Proof.
  cbv zeta. repeat split.
  intros H. destruct (H "s1" {| handle_id := 1 |} eq_refl) as (r & Hr & Ha).
  vm_compute in Hr. injection Hr as <-. discriminate.
Qed.

(* ====================================================================== *)
(** * Sorting by a key, newest first                                       *)
(* ====================================================================== *)

Section SortByKey.
Variable A : Type.
Variable key : A -> Z.

Let cmp (a b : A) : Z := (key b - key a)%Z.
Let newest_first (a b : A) : Prop := (key b <= key a)%Z.
Let at_time (t : Z) (a : A) : bool := (key a =? t)%Z.

Lemma sort_insert_perm (x : A) (l : list A) :
  Permutation (sort_insert cmp x l) (x :: l).
Proof.
  induction l as [|y l IH]; simpl; auto.
  destruct (0 <? cmp x y)%Z; auto.
  rewrite IH. apply perm_swap.
Qed.

Lemma Array_sort_perm (l : list A) : Permutation (Array_sort cmp l) l.
Proof.
  induction l as [|x l IH]; simpl; auto.
  rewrite sort_insert_perm. now constructor.
Qed.

Lemma sort_insert_sorted (x : A) (l : list A) :
  StronglySorted newest_first l ->
  StronglySorted newest_first (sort_insert cmp x l).
Proof.
  induction 1 as [|y l Hs IH Hy]; simpl.
  - repeat constructor.
  - unfold cmp at 1. destruct (0 <? key y - key x)%Z eqn:E.
    + apply Z.ltb_lt in E. constructor; auto.
      rewrite sort_insert_perm. constructor; auto.
      unfold newest_first. lia.
    + apply Z.ltb_ge in E. constructor.
      * now constructor.
      * constructor; [unfold newest_first; lia|].
        eapply Forall_impl; [|exact Hy].
        unfold newest_first. intros; lia.
Qed.

Lemma Array_sort_sorted (l : list A) :
  StronglySorted newest_first (Array_sort cmp l).
Proof.
  induction l as [|x l IH]; simpl.
  - constructor.
  - now apply sort_insert_sorted.
Qed.

(** Stability: inserting [x] leaves it in front of the elements carrying
    its own key. *)
Lemma sort_insert_at_time (t : Z) (x : A) (l : list A) :
  filter (at_time t) (sort_insert cmp x l) = filter (at_time t) (x :: l).
Proof.
  induction l as [|y l IH]; simpl; auto.
  unfold cmp at 1. destruct (0 <? key y - key x)%Z eqn:E; auto.
  apply Z.ltb_lt in E. simpl in *. rewrite IH. unfold at_time.
  destruct (key x =? t)%Z eqn:Ex; auto.
  destruct (key y =? t)%Z eqn:Ey; auto.
  apply Z.eqb_eq in Ex, Ey. lia.
Qed.

Lemma Array_sort_stable (t : Z) (l : list A) :
  filter (at_time t) (Array_sort cmp l) = filter (at_time t) l.
Proof.
  induction l as [|x l IH]; simpl; auto.
  rewrite sort_insert_at_time. simpl. now rewrite IH.
Qed.

(** A list sorted newest first is determined by its elements of each key
    taken in order: two stable sorts of one list agree. *)
Lemma sorted_stable_unique (l1 : list A) : forall l2,
  StronglySorted newest_first l1 ->
  StronglySorted newest_first l2 ->
  (forall t, filter (at_time t) l1 = filter (at_time t) l2) ->
  l1 = l2.
Proof.
  assert (Hmem : forall (l l' : list A) (x : A),
            (forall t, filter (at_time t) l = filter (at_time t) l') ->
            In x l -> In x l').
  { intros l l' x H Hin.
    assert (Hx : In x (filter (at_time (key x)) l)).
    { apply filter_In. split; auto. unfold at_time. apply Z.eqb_refl. }
    rewrite H in Hx. now apply filter_In in Hx. }
  induction l1 as [|x l1 IH]; intros l2 S1 S2 H.
  - destruct l2 as [|y l2]; auto.
    specialize (H (key y)). simpl in H. unfold at_time in H.
    rewrite Z.eqb_refl in H. discriminate.
  - destruct l2 as [|y l2].
    + specialize (H (key x)). simpl in H. unfold at_time in H.
      rewrite Z.eqb_refl in H. discriminate.
    + inversion S1 as [|? ? S1' F1]; subst.
      inversion S2 as [|? ? S2' F2]; subst.
      assert (Hxy : key x = key y).
      { assert (Hx : In x (y :: l2))
          by (apply (Hmem (x :: l1) (y :: l2)); [exact H | now left]).
        assert (Hy : In y (x :: l1))
          by (apply (Hmem (y :: l2) (x :: l1));
              [intros t; symmetry; apply H | now left]).
        destruct Hx as [->|Hx]; auto.
        destruct Hy as [->|Hy]; auto.
        rewrite Forall_forall in F1, F2.
        apply F1 in Hy. apply F2 in Hx. unfold newest_first in *. lia. }
      assert (Hhd : x = y).
      { specialize (H (key x)). simpl in H. unfold at_time in H.
        rewrite <- Hxy, Z.eqb_refl in H. now injection H. }
      subst y. f_equal. apply IH; auto.
      intros t. specialize (H t). simpl in H.
      destruct (at_time t x); [now injection H | exact H].
Qed.
End SortByKey.

(* ====================================================================== *)
(** * Session ledger: listing                                              *)
(* ====================================================================== *)

Lemma filter_true (A : Type) (l : list A) : filter (fun _ => true) l = l.
Proof.
  induction l as [|x l IH]; simpl; congruence.
Qed.

Lemma filter_andb (A : Type) (p q : A -> bool) (l : list A) :
  filter q (filter p l) = filter (fun x => p x && q x) l.
Proof.
  induction l as [|x l IH]; simpl; auto.
  destruct (p x); simpl; [destruct (q x)|]; congruence.
Qed.

(** [list] is the stable sort of the records that pass the filter, taken
    in insertion order. *)
Lemma list_as_filter (st : SessionStore.t) (f : option ListFilter) :
  SessionStore.list st f =
  Array_sort (fun a b => (last_active b - last_active a)%Z)
    (filter (passes f) (JsMap.values (SessionStore.sessions st))).
Proof.
  unfold SessionStore.list, passes.
  destruct f as [[[a|] [[|]|]]|]; simpl;
    try destruct (truthy a); simpl;
    rewrite ?filter_andb, ?filter_true; f_equal;
    apply filter_ext; intros s; rewrite ?andb_true_r; reflexivity.
Qed.

(** C8 (amended).  For every store and every filter, [list] returns exactly
    the records that pass the filter, each as often as the store holds it:
    all records without a filter, with [active_only = true] those whose
    [is_active] is true, with a non-empty [agent = X] those whose agent is
    [X], with both those that satisfy both; an empty [agent] string filters
    nothing.  The result is ordered by
    [last_active] descending, and records with equal [last_active] keep
    their insertion order. *)
Theorem C8_list_exact_sorted_stable :
  (forall st f,
     Permutation (SessionStore.list st f)
       (filter (passes f) (JsMap.values (SessionStore.sessions st)))
     /\ StronglySorted (fun a b => (last_active b <= last_active a)%Z)
          (SessionStore.list st f)
     /\ (forall t,
           filter (fun s => (last_active s =? t)%Z) (SessionStore.list st f)
           = filter (fun s => (last_active s =? t)%Z)
               (filter (passes f)
                  (JsMap.values (SessionStore.sessions st)))))
  /\ (forall st,
        Permutation (SessionStore.list st None)
          (JsMap.values (SessionStore.sessions st)))
  /\ (forall st,
        Permutation
          (SessionStore.list st
             (Some {| f_agent := None; f_active_only := Some true |}))
          (filter (fun s => is_active s)
             (JsMap.values (SessionStore.sessions st))))
  /\ (forall st X,
        X <> EmptyString ->
        Permutation
          (SessionStore.list st
             (Some {| f_agent := Some X; f_active_only := None |}))
          (filter (fun s => String.eqb (agent s) X)
             (JsMap.values (SessionStore.sessions st))))
  /\ (forall st X,
        X <> EmptyString ->
        Permutation
          (SessionStore.list st
             (Some {| f_agent := Some X; f_active_only := Some true |}))
          (filter (fun s => String.eqb (agent s) X && is_active s)
             (JsMap.values (SessionStore.sessions st))))
  /\ (forall st,
        Permutation
          (SessionStore.list st
             (Some {| f_agent := Some EmptyString; f_active_only := None |}))
          (JsMap.values (SessionStore.sessions st))).
Proof.
  assert (Hperm : forall st f p,
            (forall s, passes f s = p s) ->
            Permutation (SessionStore.list st f)
              (filter p (JsMap.values (SessionStore.sessions st)))).
  { intros st f p Hp. rewrite list_as_filter.
    rewrite (filter_ext _ _ Hp). apply Array_sort_perm. }
  split; [|split; [|split; [|split; [|split]]]].
  6:{ intros st.
      eapply Permutation_trans;
        [apply (Hperm st _ (fun _ => true)); reflexivity|].
      now rewrite filter_true. }
  - intros st f. split; [|split].
    + now apply Hperm.
    + rewrite list_as_filter. apply Array_sort_sorted.
    + intros t. rewrite list_as_filter.
      apply (Array_sort_stable last_active).
  - intros st.
    eapply Permutation_trans;
      [apply (Hperm st None (fun _ => true)); reflexivity|].
    now rewrite filter_true.
  - intros st. now apply Hperm.
  - intros st X HX. apply Hperm. intros s. simpl.
    apply truthy_nonempty in HX. rewrite HX. apply andb_true_r.
  - intros st X HX. apply Hperm. intros s. simpl.
    apply truthy_nonempty in HX. now rewrite HX.
Qed.

(** Listing the sessions of agent "coder" in a store of three. *)
Lemma C8_list_witness :
  let st :=
    run_ops [OpSave 10 "s1" "coder" "t1" None;
             OpSave 20 "s2" "planner" "t2" None;
             OpSave 10 "s3" "coder" "t3" None] in
  Permutation
    (SessionStore.list st
       (Some {| f_agent := Some "coder"; f_active_only := None |}))
    (filter (fun s => String.eqb (agent s) "coder")
       (JsMap.values (SessionStore.sessions st))).
Proof.
  cbv zeta.
  apply (proj1 (proj2 (proj2 (proj2 C8_list_exact_sorted_stable)))).
  discriminate.
Defined.

(** An empty agent string does not select the records whose agent is the
    empty string: it selects every record. *)
Lemma C8_empty_agent_counterexample :
  let st := run_ops [OpSave 10 "s1" "coder" "t1" None] in
  let s1 := {| session_id := "s1";
               agent := "coder";
               initial_task := "t1";
               created_at := 10;
               last_active := 10;
               is_active := false |} in
  SessionStore.list st
    (Some {| f_agent := Some EmptyString; f_active_only := None |}) = [s1]
  /\ filter (fun s => String.eqb (agent s) EmptyString)
       (JsMap.values (SessionStore.sessions st)) = []
  /\ agent s1 <> EmptyString.
Proof.
  cbv zeta. repeat split. discriminate.
Qed.

(* ====================================================================== *)
(** * Batch coordinator                                                    *)
(* ====================================================================== *)

Lemma mapi_from_length (A B : Type) (f : nat -> A -> B) (l : list A) :
  forall s, length (mapi_from f s l) = length l.
Proof.
  induction l as [|x l IH]; simpl; intros s; auto.
Qed.

Lemma mapi_from_nth_error (A B : Type) (f : nat -> A -> B) (l : list A) :
  forall s i,
    nth_error (mapi_from f s l) i = option_map (f (s + i)) (nth_error l i).
Proof.
  induction l as [|x l IH]; intros s [|i]; simpl; auto.
  - now rewrite Nat.add_0_r.
  - rewrite IH. now rewrite Nat.add_succ_r.
Qed.

Lemma filter_none (A : Type) (p : A -> bool) (l : list A) :
  (forall i x, nth_error l i = Some x -> p x = false) -> filter p l = [].
Proof.
  induction l as [|x l IH]; simpl; intros H; auto.
  rewrite (H 0 x eq_refl). apply IH. intros i y Hy. apply (H (S i) y Hy).
Qed.

(** A list in which exactly the element at index [k] satisfies [p]. *)
Lemma filter_exactly_one (A : Type) (p : A -> bool) (l : list A) :
  forall k,
    k < length l ->
    (forall i x, nth_error l i = Some x -> (p x = true <-> i = k)) ->
    length (filter p l) = 1.
Proof.
  induction l as [|x l IH]; simpl; intros k Hk H; [lia|].
  destruct k as [|k].
  - rewrite (proj2 (H 0 x eq_refl) eq_refl). simpl. f_equal.
    rewrite filter_none; auto.
    intros i y Hy. specialize (H (S i) y Hy).
    destruct (p y); auto. discriminate (proj1 H eq_refl).
  - assert (Hx : p x = false).
    { specialize (H 0 x eq_refl). destruct (p x); auto.
      discriminate (proj1 H eq_refl). }
    rewrite Hx. apply (IH k); [lia|].
    intros i y Hy. specialize (H (S i) y Hy). rewrite H. lia.
Qed.

Lemma batchTask_success invoke index task :
  btr_success (batchTask invoke index task)
  = negb (task_failed (invoke index (invocation_of task))).
Proof.
  unfold batchTask, task_failed, invocation_of.
  destruct (run_outcome _); simpl; auto. now rewrite negb_involutive.
Qed.

(** C5.  [runAgentsBatch] returns one task result per input task, in input
    order, each with the duration measured between that task's own clock
    readings; an invocation that throws becomes a failed task result
    carrying the error message; and when exactly one task fails the
    aggregate has [succeeded = N - 1], [failed = 1], [all_success = false]
    and every other task's result is present and successful. *)
Theorem C5_batch_reports_every_task :
  forall batchStart batchEnd invoke tasks,
    let out := runAgentsBatch batchStart batchEnd invoke tasks in
    length (results out) = length tasks
    /\ (forall i task,
          nth_error tasks i = Some task ->
          let run := invoke i (invocation_of task) in
          nth_error (results out) i = Some (batchTask invoke i task)
          /\ btr_duration_ms (batchTask invoke i task)
             = (run_end run - run_start run)%Z
          /\ btr_success (batchTask invoke i task) = negb (task_failed run)
          /\ (forall e,
                run_outcome run = Throw e ->
                btr_success (batchTask invoke i task) = false
                /\ btr_error (batchTask invoke i task) = Some (errMsgOf e)))
    /\ succeeded out + failed out = length tasks
    /\ (all_success out = true <-> failed out = 0)
    /\ (forall k,
          k < length tasks ->
          (forall i task,
             nth_error tasks i = Some task ->
             (task_failed (invoke i (invocation_of task)) = true <-> i = k)) ->
          succeeded out = length tasks - 1
          /\ failed out = 1
          /\ all_success out = false
          /\ (forall i,
                i < length tasks -> i <> k ->
                exists r,
                  nth_error (results out) i = Some r
                  /\ btr_success r = true)).
Proof.
  intros batchStart batchEnd invoke tasks. cbv zeta.
  unfold runAgentsBatch. simpl.
  set (rs := mapi_from (batchTask invoke) 0 tasks).
  assert (Hlen : length rs = length tasks) by apply mapi_from_length.
  assert (Hnth : forall i task,
            nth_error tasks i = Some task ->
            nth_error rs i = Some (batchTask invoke i task)).
  { intros i task Hi. unfold rs. rewrite mapi_from_nth_error, Hi.
    reflexivity. }
  assert (Hsum : length (filter (fun r => btr_success r) rs)
                 + length (filter (fun r => negb (btr_success r)) rs)
                 = length tasks).
  { rewrite <- Hlen. apply filter_length. }
  split; [exact Hlen|]. split; [|split; [exact Hsum|split]].
  - intros i task Hi. split; [now apply Hnth|].
    split; [|split].
    + unfold batchTask. now destruct (run_outcome _).
    + apply batchTask_success.
    + intros e He. unfold batchTask. fold (invocation_of task).
      now rewrite He.
  - apply Nat.eqb_eq.
  - intros k Hk Hone.
    assert (Hfail : length (filter (fun r => negb (btr_success r)) rs) = 1).
    { apply (filter_exactly_one _ rs (k := k)); [lia|].
      intros i r Hr. unfold rs in Hr.
      rewrite mapi_from_nth_error in Hr. simpl in Hr.
      destruct (nth_error tasks i) as [task|] eqn:Hi; [|discriminate].
      injection Hr as <-. rewrite batchTask_success, negb_involutive.
      now apply Hone. }
    rewrite Hfail in *. repeat split; try lia.
    intros i Hi Hne.
    destruct (nth_error tasks i) as [task|] eqn:Ht.
    + exists (batchTask invoke i task). split; [now apply Hnth|].
      rewrite batchTask_success.
      specialize (Hone i task Ht).
      destruct (task_failed _); auto. now destruct (Hne (proj1 Hone eq_refl)).
    + apply nth_error_None in Ht. lia.
Qed.

(** A batch of three tasks in which task "b" throws. *)
Lemma C5_batch_witness :
  let invoke := fun (i : nat) (_ : RunAgentParams) =>
    if (i =? 1)%nat
    then {| run_start := 5; run_outcome := Throw (Error "boom");
            run_end := 9 |}
    else {| run_start := 5;
            run_outcome :=
              Return {| ar_success := true;
                        ar_session_id := "sid";
                        ar_summary := "done";
                        ar_artifacts := None;
                        ar_error := None |};
            run_end := 20 |} in
  let tasks :=
    [{| bt_agent := "coder"; bt_task := "x"; bt_id := Some "a" |};
     {| bt_agent := "coder"; bt_task := "y"; bt_id := Some "b" |};
     {| bt_agent := "coder"; bt_task := "z"; bt_id := None |}] in
  let out := runAgentsBatch 0 30 invoke tasks in
  succeeded out = length tasks - 1
  /\ failed out = 1
  /\ all_success out = false
  /\ (forall i,
        i < length tasks -> i <> 1 ->
        exists r, nth_error (results out) i = Some r /\ btr_success r = true).
Proof.
  cbv zeta.
  refine (proj2 (proj2 (proj2 (proj2
            (C5_batch_reports_every_task 0 30 _ _)))) 1 _ _).
  - simpl. lia.
  - intros i task H.
    destruct i as [|[|[|i]]]; simpl in H;
      [| | | destruct i; discriminate];
      injection H as <-; vm_compute; split; intros; try discriminate; auto.
Defined.

(* ====================================================================== *)
(** * The run_agents_batch tool                                            *)
(* ====================================================================== *)

(** C7 (amended).  The run_agents_batch case rejects with a plain [Error],
    reported under the code UNKNOWN_ERROR, whenever [tasks] is missing, is
    not an array, is empty or has more than 10 elements; then nothing is
    executed.  A sequence of 1 to 10 tasks is handed to [runAgentsBatch],
    and nothing else ever is. *)
Theorem C7_batch_size_gate :
  forall batchStart batchEnd invoke,
    let call := callTool_run_agents_batch batchStart batchEnd invoke in
    call TasksFalsy
    = (ToolError "Missing required parameter: tasks (non-empty array)"
         "UNKNOWN_ERROR", [])
    /\ call TasksNotArray
       = (ToolError "Missing required parameter: tasks (non-empty array)"
            "UNKNOWN_ERROR", [])
    /\ (forall ts,
          length ts = 0 ->
          call (TasksArray ts)
          = (ToolError "Missing required parameter: tasks (non-empty array)"
               "UNKNOWN_ERROR", []))
    /\ (forall ts,
          10 < length ts ->
          call (TasksArray ts)
          = (ToolError "Maximum 10 tasks per batch" "UNKNOWN_ERROR", []))
    /\ (forall ts,
          1 <= length ts <= 10 ->
          call (TasksArray ts)
          = (ToolOk (runAgentsBatch batchStart batchEnd invoke ts), [ts]))
    /\ (forall tasks ts,
          In ts (snd (call tasks)) ->
          tasks = TasksArray ts /\ 1 <= length ts <= 10).
Proof.
  intros batchStart batchEnd invoke. cbv zeta.
  unfold callTool_run_agents_batch, run_agents_batch_case.
  repeat split; try reflexivity.
  - intros ts H. now rewrite H.
  - intros ts H.
    destruct (length ts =? 0)%nat eqn:E0; [apply Nat.eqb_eq in E0; lia|].
    apply Nat.ltb_lt in H. now rewrite H.
  - intros ts [H1 H2].
    destruct (length ts =? 0)%nat eqn:E0; [apply Nat.eqb_eq in E0; lia|].
    destruct (10 <? length ts)%nat eqn:E1; [apply Nat.ltb_lt in E1; lia|].
    reflexivity.
  - destruct tasks as [| |ts']; simpl in H; try contradiction.
    destruct (length ts' =? 0)%nat; simpl in H; try contradiction.
    destruct (10 <? length ts')%nat; simpl in H; try contradiction.
    destruct H as [->|[]]. reflexivity.
  - destruct tasks as [| |ts']; simpl in H; try contradiction.
    destruct (length ts' =? 0)%nat eqn:E0; simpl in H; try contradiction.
    destruct (10 <? length ts')%nat; simpl in H; try contradiction.
    destruct H as [->|[]]. apply Nat.eqb_neq in E0. lia.
  - destruct tasks as [| |ts']; simpl in H; try contradiction.
    destruct (length ts' =? 0)%nat; simpl in H; try contradiction.
    destruct (10 <? length ts')%nat eqn:E1; simpl in H; try contradiction.
    destruct H as [->|[]]. apply Nat.ltb_ge in E1. lia.
Qed.

(** A batch of eleven tasks is refused and none of them is run. *)
Lemma C7_batch_size_gate_witness :
  let invoke := fun (_ : nat) (_ : RunAgentParams) =>
    {| run_start := 0; run_outcome := Throw (Error "not run");
       run_end := 0 |} in
  callTool_run_agents_batch 0 0 invoke
    (TasksArray
       (repeat {| bt_agent := "coder"; bt_task := "x"; bt_id := None |} 11))
  = (ToolError "Maximum 10 tasks per batch" "UNKNOWN_ERROR", []).
Proof.
  cbv zeta.
  apply (proj1 (proj2 (proj2 (proj2 (C7_batch_size_gate 0 0 _))))).
  simpl. lia.
Defined.

(** The rejection of an empty batch is a plain [Error]: it carries no code
    of the error taxonomy and is reported as UNKNOWN_ERROR, which is the
    string of no [AgentErrorCode]. *)
Lemma C7_invalid_batch_counterexample :
  let invoke := fun (_ : nat) (_ : RunAgentParams) =>
    {| run_start := 0; run_outcome := Throw (Error "not run");
       run_end := 0 |} in
  fst (run_agents_batch_case 0 0 invoke (TasksArray []))
  = Throw (Error "Missing required parameter: tasks (non-empty array)")
  /\ fst (callTool_run_agents_batch 0 0 invoke (TasksArray []))
     = ToolError "Missing required parameter: tasks (non-empty array)"
         "UNKNOWN_ERROR"
  /\ (forall c,
        ~ raises (fst (run_agents_batch_case 0 0 invoke (TasksArray []))) c)
  /\ (forall c, code_string c <> "UNKNOWN_ERROR").
Proof.
  cbv zeta. repeat split.
  - intros c H. exact H.
  - intros c. destruct c; discriminate.
Qed.

(* ====================================================================== *)
(** * Agent execution: the message loop                                    *)
(* ====================================================================== *)

Lemma last_cons (A : Type) (l : list A) : forall a d,
  last (a :: l) d = last l a.
Proof.
  induction l as [|b l IH]; intros a d; auto.
  change (last (a :: b :: l) d) with (last (b :: l) d).
  rewrite (IH b d). symmetry. apply IH.
Qed.

Section MessageLoop.
Variable params : RunAgentParams.
Variable q : Query.

Lemma processMessage_not_onInit (m : SDKMessage) :
  (forall sid, m <> MsgSystemInit sid) ->
  Forall not_onInit (processMessage m).
Proof.
  intros Hm. destruct m as [sid| | | |[content|]|]; simpl;
    try (repeat constructor; fail).
  - now destruct (Hm sid).
  - clear Hm. induction content as [|b content IH]; simpl; [constructor|].
    apply Forall_app. split; [|exact IH].
    destruct b as [tool [path|]|]; try constructor.
    destruct ((String.eqb tool "Write" || String.eqb tool "Edit")
              && truthy path); repeat constructor.
Qed.

Lemma applyHandler_not_onInit (hs : list HandlerCall) :
  Forall not_onInit hs ->
  forall now st rv,
    fst (fold_left (applyHandler params q now) hs (st, rv)) = st
    /\ rv_sessionId (snd (fold_left (applyHandler params q now) hs (st, rv)))
       = rv_sessionId rv
    /\ rv_executionContext
         (snd (fold_left (applyHandler params q now) hs (st, rv)))
       = rv_executionContext rv.
Proof.
  induction 1 as [|h hs Hh _ IH]; intros now st rv; simpl; auto.
  destruct h; simpl in Hh; try contradiction; simpl;
    match goal with
    | |- context [fold_left _ hs (st, ?rv')] =>
        destruct (IH now st rv') as (H1 & H2 & H3)
    end; simpl in *; auto.
Qed.

(** A message that establishes no session leaves the module state and the
    current session id alone. *)
Lemma onMessage_other now m st rv :
  (forall sid, m <> MsgSystemInit sid) ->
  fst (onMessage params q (st, rv) (now, m)) = st
  /\ rv_sessionId (snd (onMessage params q (st, rv) (now, m)))
     = rv_sessionId rv.
Proof.
  intros Hm. unfold onMessage.
  destruct (applyHandler_not_onInit (processMessage_not_onInit Hm) now st rv)
    as (H1 & H2 & _).
  destruct m; try (split; assumption).
  now destruct (Hm sid).
Qed.

(** A session-established message registers the context and saves the
    session with the live handle. *)
Lemma onMessage_init now sid st rv :
  exists ctx rv',
    onMessage params q (st, rv) (now, MsgSystemInit sid)
    = ({| sessionStore :=
            SessionStore.save now (sessionStore st) sid
              (rp_agent params) (rp_task params) (Some q);
          executionContexts := JsMap.set (executionContexts st) sid ctx |},
       rv')
    /\ rv_sessionId rv' = sid.
Proof.
  unfold onMessage, registerContext. simpl. eauto.
Qed.

Lemma loop_sessionId (msgs : list (Z * SDKMessage)) : forall st rv,
  rv_sessionId (snd (fold_left (onMessage params q) msgs (st, rv)))
  = last (established msgs) (rv_sessionId rv).
Proof.
  induction msgs as [|[now m] msgs IH]; intros st rv; auto.
  cbn [fold_left].
  destruct (onMessage params q (st, rv) (now, m)) as [st1 rv1] eqn:E.
  rewrite IH.
  assert (Hm : (exists sid, m = MsgSystemInit sid)
               \/ (forall sid, m <> MsgSystemInit sid)).
  { destruct m; try (right; discriminate). left. eauto. }
  destruct Hm as [[sid ->]|Hm].
  - destruct (onMessage_init now sid st rv) as (ctx & rv' & Hi & Hs).
    rewrite Hi in E. injection E as <- <-. rewrite Hs.
    change (established ((now, MsgSystemInit sid) :: msgs))
      with (sid :: established msgs).
    symmetry. apply last_cons.
  - destruct (onMessage_other now st rv Hm) as (_ & Hs).
    rewrite E in Hs. simpl in Hs. rewrite Hs.
    replace (established ((now, m) :: msgs)) with (established msgs);
      auto.
    unfold established. simpl. destruct m; auto. now destruct (Hm sid).
Qed.

(** Without a session-established message the loop changes nothing of the
    module state. *)
Lemma loop_no_session (msgs : list (Z * SDKMessage)) : forall st rv,
  established msgs = [] ->
  fst (fold_left (onMessage params q) msgs (st, rv)) = st.
Proof.
  induction msgs as [|[now m] msgs IH]; intros st rv He; auto.
  cbn [fold_left].
  assert (Hm : forall sid, m <> MsgSystemInit sid).
  { intros sid ->. discriminate He. }
  destruct (onMessage_other now st rv Hm) as (H1 & _).
  destruct (onMessage params q (st, rv) (now, m)) as [st1 rv1].
  simpl in H1. subst st1. apply IH.
  unfold established in *. simpl in He. destruct m; auto.
  now destruct (Hm sid).
Qed.
End MessageLoop.

(* ====================================================================== *)
(** * Agent execution: preconditions and the shape of a run                *)
(* ====================================================================== *)

Section RunAgent.
Variable env : Env.
Variable st : State.
Variable params : RunAgentParams.
Variable context : option ExecutionContext.

Lemma runAgent_agent_not_found :
  JsMap.get (registry env) (rp_agent params) = None ->
  raises (fst (fst (runAgent env st params context))) AGENT_NOT_FOUND
  /\ snd (fst (runAgent env st params context)) = st
  /\ snd (runAgent env st params context) = [].
Proof.
  intros H. unfold runAgent, AgentRegistry.getOrThrow. rewrite H.
  simpl. auto.
Qed.

Lemma runAgent_session_not_found cfg rid :
  JsMap.get (registry env) (rp_agent params) = Some cfg ->
  rp_resume params = Some rid ->
  rid <> EmptyString ->
  SessionStore.has (sessionStore st) rid = false ->
  runAgent env st params context
  = (Throw (AgentError ("Session not found: " ++ rid)
              SESSION_NOT_FOUND (SessionDetails rid)), st, []).
Proof.
  intros Ha Hr Hne Hhas. unfold runAgent, AgentRegistry.getOrThrow.
  rewrite Ha, Hr. simpl.
  apply truthy_nonempty in Hne. now rewrite Hne, Hhas.
Qed.

Lemma runAgent_session_active cfg rid :
  JsMap.get (registry env) (rp_agent params) = Some cfg ->
  rp_resume params = Some rid ->
  rid <> EmptyString ->
  SessionStore.has (sessionStore st) rid = true ->
  SessionStore.isActive (sessionStore st) rid = true ->
  runAgent env st params context
  = (Throw (AgentError
              ("Session " ++ rid
               ++ " is already active. Use cancel_agent first.")
              SESSION_ALREADY_ACTIVE (SessionDetails rid)), st, []).
Proof.
  intros Ha Hr Hne Hhas Hact. unfold runAgent, AgentRegistry.getOrThrow.
  rewrite Ha, Hr. simpl.
  apply truthy_nonempty in Hne. now rewrite Hne, Hhas, Hact.
Qed.

(** Past the preconditions a run is one engine call, the message loop and
    the cleanup. *)
Lemma runAgent_run cfg :
  JsMap.get (registry env) (rp_agent params) = Some cfg ->
  (forall rid,
     rp_resume params = Some rid -> rid <> EmptyString ->
     SessionStore.has (sessionStore st) rid = true
     /\ SessionStore.isActive (sessionStore st) rid = false) ->
  runAgent env st params context =
  match engine env (enhancedTaskOf params) (sdkOptions env cfg params) with
  | QueryThrows error =>
      (Return (caughtResult (initialVars context) error), st,
       [EQuery (enhancedTaskOf params) (sdkOptions env cfg params)])
  | QueryStarted ex =>
      let loop :=
        fold_left (onMessage params (ex_query ex)) (ex_messages ex)
          (st, initialVars context) in
      (Return (match ex_end ex with
               | StreamThrows error => caughtResult (snd loop) error
               | StreamDone => completedResult (snd loop)
               end),
       cleanup (ex_end_time ex) (fst loop) (rv_sessionId (snd loop)),
       [EQuery (enhancedTaskOf params) (sdkOptions env cfg params)])
  end.
Proof.
  intros Ha Hres. unfold runAgent, AgentRegistry.getOrThrow. rewrite Ha.
  assert (Hpre :
    truthy_opt (rp_resume params)
    && negb (SessionStore.has (sessionStore st)
               match rp_resume params with
               | Some r => r
               | None => EmptyString
               end) = false
    /\ truthy_opt (rp_resume params)
       && SessionStore.isActive (sessionStore st)
            match rp_resume params with
            | Some r => r
            | None => EmptyString
            end = false).
  { destruct (rp_resume params) as [rid|] eqn:Hr; simpl; auto.
    destruct (truthy rid) eqn:Ht; simpl; auto.
    apply truthy_nonempty in Ht.
    destruct (Hres rid eq_refl Ht) as [-> ->]. auto. }
  destruct Hpre as [-> ->].
  destruct (engine env (enhancedTaskOf params) (sdkOptions env cfg params))
    as [error|ex]; auto.
  cbv zeta.
  destruct (fold_left (onMessage params (ex_query ex)) (ex_messages ex)
              (st, initialVars context)) as [st1 rv].
  now destruct (ex_end ex).
Qed.
End RunAgent.

(* ====================================================================== *)
(** * Agent execution: what a run does to the ledger                       *)
(* ====================================================================== *)

Lemma keeps_origin_refl (s : SessionStore.t) : keeps_origin s s.
Proof.
  intros sid r H. eauto.
Qed.

Lemma keeps_origin_trans (s1 s2 s3 : SessionStore.t) :
  keeps_origin s1 s2 -> keeps_origin s2 s3 -> keeps_origin s1 s3.
Proof.
  intros H12 H23 sid r H.
  destruct (H12 sid r H) as (r2 & H2 & Ht2 & Hc2).
  destruct (H23 sid r2 H2) as (r3 & H3 & Ht3 & Hc3).
  exists r3. repeat split; congruence.
Qed.

Lemma save_keeps_origin now s sid a t q :
  keeps_origin s (SessionStore.save now s sid a t q).
Proof.
  intros sid' r H. unfold SessionStore.get, SessionStore.save in *. simpl.
  rewrite JsMapFacts.get_set. destruct (String.eqb sid sid') eqn:E.
  - apply String.eqb_eq in E. subst sid'. rewrite H. eauto.
  - eauto.
Qed.

Lemma complete_keeps_origin now s sid :
  keeps_origin s (SessionStore.complete now s sid).
Proof.
  intros sid' r H. unfold SessionStore.get, SessionStore.complete in *.
  simpl. destruct (JsMap.get (SessionStore.sessions s) sid) as [r0|] eqn:E0.
  - rewrite JsMapFacts.get_set. destruct (String.eqb sid sid') eqn:E.
    + apply String.eqb_eq in E. subst sid'.
      assert (r0 = r) by congruence. subst r0. eauto.
    + eauto.
  - eauto.
Qed.

Lemma cleanup_keeps_origin now st sid :
  keeps_origin (sessionStore st) (sessionStore (cleanup now st sid)).
Proof.
  unfold cleanup. destruct (truthy sid); simpl.
  - apply complete_keeps_origin.
  - apply keeps_origin_refl.
Qed.

Lemma loop_keeps_origin params q (msgs : list (Z * SDKMessage)) :
  forall st rv,
    keeps_origin (sessionStore st)
      (sessionStore (fst (fold_left (onMessage params q) msgs (st, rv)))).
Proof.
  induction msgs as [|[now m] msgs IH]; intros st rv.
  - apply keeps_origin_refl.
  - cbn [fold_left].
    destruct (onMessage params q (st, rv) (now, m)) as [st1 rv1] eqn:E.
    apply keeps_origin_trans with (s2 := sessionStore st1); [|apply IH].
    assert (Hm : (exists sid, m = MsgSystemInit sid)
                 \/ (forall sid, m <> MsgSystemInit sid)).
    { destruct m; try (right; discriminate). left. eauto. }
    destruct Hm as [[sid ->]|Hm].
    + destruct (onMessage_init params q now sid st rv)
        as (ctx & rv' & Hi & _).
      rewrite Hi in E. injection E as <- <-. simpl.
      apply save_keeps_origin.
    + destruct (onMessage_other params q now st rv Hm) as (H1 & _).
      rewrite E in H1. simpl in H1. subst st1. apply keeps_origin_refl.
Qed.

(** A run neither drops a record nor changes where it came from. *)
Lemma runAgent_keeps_origin env st params context :
  keeps_origin (sessionStore st)
    (sessionStore (snd (fst (runAgent env st params context)))).
Proof.
  unfold runAgent.
  destruct (AgentRegistry.getOrThrow _ _); [|apply keeps_origin_refl].
  destruct (_ && _); [apply keeps_origin_refl|].
  destruct (_ && _); [apply keeps_origin_refl|].
  cbv zeta. destruct (engine _ _ _) as [e|ex]; [apply keeps_origin_refl|].
  pose proof (loop_keeps_origin params (ex_query ex) (ex_messages ex)
                st (initialVars context)) as Hloop.
  destruct (fold_left _ _ _) as [st1 rv]. simpl in Hloop.
  destruct (ex_end ex); simpl;
    (eapply keeps_origin_trans; [exact Hloop | apply cleanup_keeps_origin]).
Qed.

Lemma save_has now s sid a t q k :
  SessionStore.has (SessionStore.save now s sid a t q) k = true ->
  k = sid \/ SessionStore.has s k = true.
Proof.
  unfold SessionStore.has, JsMap.has, SessionStore.save. simpl.
  rewrite JsMapFacts.get_set. destruct (String.eqb sid k) eqn:E; auto.
  apply String.eqb_eq in E. auto.
Qed.

Lemma complete_has now s sid k :
  SessionStore.has (SessionStore.complete now s sid) k
  = SessionStore.has s k.
Proof.
  unfold SessionStore.has, JsMap.has, SessionStore.complete. simpl.
  destruct (JsMap.get (SessionStore.sessions s) sid) eqn:E0; auto.
  rewrite JsMapFacts.get_set. destruct (String.eqb sid k) eqn:E; auto.
  apply String.eqb_eq in E. subst k. now rewrite E0.
Qed.

Lemma cleanup_has now st sid k :
  SessionStore.has (sessionStore (cleanup now st sid)) k
  = SessionStore.has (sessionStore st) k.
Proof.
  unfold cleanup. destruct (truthy sid); simpl; auto.
  apply complete_has.
Qed.

Lemma loop_has params q (msgs : list (Z * SDKMessage)) k : forall st rv,
  SessionStore.has
    (sessionStore (fst (fold_left (onMessage params q) msgs (st, rv)))) k
  = true ->
  SessionStore.has (sessionStore st) k = true \/ In k (established msgs).
Proof.
  induction msgs as [|[now m] msgs IH]; intros st rv; auto.
  cbn [fold_left].
  destruct (onMessage params q (st, rv) (now, m)) as [st1 rv1] eqn:E.
  intros H. apply IH in H.
  assert (Hm : (exists sid, m = MsgSystemInit sid)
               \/ (forall sid, m <> MsgSystemInit sid)).
  { destruct m; try (right; discriminate). left. eauto. }
  destruct Hm as [[sid ->]|Hm].
  - destruct (onMessage_init params q now sid st rv) as (ctx & rv' & Hi & _).
    rewrite Hi in E. injection E as <- <-.
    change (established ((now, MsgSystemInit sid) :: msgs))
      with (sid :: established msgs).
    destruct H as [H|H]; [|right; now right].
    simpl in H. apply save_has in H. destruct H as [->|H]; auto.
    right. now left.
  - destruct (onMessage_other params q now st rv Hm) as (H1 & _).
    rewrite E in H1. simpl in H1. subst st1.
    replace (established ((now, m) :: msgs)) with (established msgs); auto.
    unfold established. simpl. destruct m; auto. now destruct (Hm sid).
Qed.

(** A run registers no session id but those the engine establishes. *)
Lemma runAgent_has env st params context k :
  SessionStore.has
    (sessionStore (snd (fst (runAgent env st params context)))) k = true ->
  SessionStore.has (sessionStore st) k = true
  \/ exists prompt options ex,
       engine env prompt options = QueryStarted ex
       /\ In k (established (ex_messages ex)).
Proof.
  unfold runAgent.
  destruct (AgentRegistry.getOrThrow _ _) as [cfg|]; auto.
  destruct (_ && _); auto.
  destruct (_ && _); auto.
  cbv zeta.
  destruct (engine env (enhancedTaskOf params) (sdkOptions env cfg params))
    as [e|ex] eqn:Eng; auto.
  pose proof (@loop_has params (ex_query ex) (ex_messages ex) k
                st (initialVars context)) as Hloop.
  destruct (fold_left _ _ _) as [st1 rv]. simpl in Hloop.
  intros H.
  assert (H1 : SessionStore.has (sessionStore st1) k = true).
  { destruct (ex_end ex); simpl in H; now rewrite cleanup_has in H. }
  destruct (Hloop H1) as [Hk|Hk]; eauto 6.
Qed.

(* ====================================================================== *)
(** * Sentinel session ids                                                 *)
(* ====================================================================== *)

Lemma loopAmong_keeps_out params q others k (msgs : list (Z * SDKMessage)) :
  keeps_out k others ->
  forall i st rv,
    ~ In k (established msgs) ->
    SessionStore.has (sessionStore st) k = false ->
    SessionStore.has
      (sessionStore (fst (loopAmong params q others i msgs (st, rv)))) k
    = false.
Proof.
  intros Hout. induction msgs as [|[now m] msgs IH]; intros i st rv Hk Hhas;
    auto.
  cbn [loopAmong fst snd].
  assert (Hm : (exists sid, m = MsgSystemInit sid)
               \/ (forall sid, m <> MsgSystemInit sid)).
  { destruct m; try (right; discriminate). left. eauto. }
  specialize (Hout i st Hhas).
  destruct Hm as [[sid ->]|Hm].
  - destruct (onMessage_init params q now sid (others i st) rv)
      as (ctx & rv' & -> & _).
    change (established ((now, MsgSystemInit sid) :: msgs))
      with (sid :: established msgs) in Hk.
    apply IH; [intros H; apply Hk; now right|].
    cbn [sessionStore].
    destruct (SessionStore.has (SessionStore.save _ _ _ _ _ _) k) eqn:E;
      auto.
    apply save_has in E. destruct E as [->|E]; [|congruence].
    destruct Hk. now left.
  - destruct (onMessage_other params q now (others i st) rv Hm) as (H1 & _).
    destruct (onMessage params q (others i st, rv) (now, m)) as [st1 rv1].
    simpl in H1. subst st1. apply IH; auto.
    replace (established ((now, m) :: msgs)) with (established msgs) in Hk;
      auto.
    unfold established. simpl. destruct m; auto. now destruct (Hm sid).
Qed.

Lemma handleDelegation_state env st params parentSessionId :
  snd (fst (handleDelegation env st params parentSessionId)) = st
  \/ exists params' context',
       snd (fst (handleDelegation env st params parentSessionId))
       = snd (fst (runAgent env st params' context')).
Proof.
  assert (H : forall parent,
            snd (fst (handleDelegationWithContext env st params parent)) = st
            \/ exists params' context',
                 snd (fst (handleDelegationWithContext env st params parent))
                 = snd (fst (runAgent env st params' context'))).
  { intros parent. unfold handleDelegationWithContext.
    destruct (createChildContext parent (dp_agent params)) as [child|e];
      [|now left].
    right. eexists. eexists.
    destruct (runAgent env st _ (Some child)) as [[[result|e] st1] effects]
      eqn:E; cbn [fst snd]; rewrite E; reflexivity. }
  unfold handleDelegation.
  destruct (JsMap.get (executionContexts st) parentSessionId) as [ctx|];
    [apply H|].
  cbv zeta.
  specialize (H (createDefaultContext "unknown" parentSessionId)).
  destruct (handleDelegationWithContext env st params
              (createDefaultContext "unknown" parentSessionId))
    as [[r st1] effects].
  exact H.
Qed.

(** No call of the server files a session under an id the engine does not
    establish. *)
Lemma serve_keeps_out env st call k :
  never_establishes (engine env) k ->
  SessionStore.has (sessionStore st) k = false ->
  SessionStore.has (sessionStore (serve env st call)) k = false.
Proof.
  intros Heng Hhas.
  assert (Hrun : forall params context,
            SessionStore.has
              (sessionStore (snd (fst (runAgent env st params context)))) k
            = false).
  { intros params context.
    destruct (SessionStore.has
                (sessionStore (snd (fst (runAgent env st params context))))
                k) eqn:E; auto.
    apply runAgent_has in E.
    destruct E as [E|(prompt & options & ex & Hq & Hin)]; [congruence|].
    now destruct (Heng prompt options ex Hq). }
  destruct call as [params context|params sid|now interrupt sid];
    cbn [serve].
  - apply Hrun.
  - destruct (handleDelegation_state env st params sid)
      as [->|(params' & context' & ->)]; auto.
  - cbn [sessionStore]. unfold SessionStore.cancel.
    destruct (JsMap.get _ sid); [|exact Hhas].
    destruct interrupt; cbn [fst snd]; now rewrite complete_has.
Qed.

(** C10 (amended).  When the engine call or its stream throws before any
    session-established message has been processed, [runAgent] returns
    [success = false] with [session_id = 'unknown'] and the module state as
    it was, so no record is added.  A batch task whose invocation throws,
    as it does for an unknown agent, is reported with
    [session_id = 'failed'], again with the state as it was.  With an
    engine that never issues the session id 'unknown' or 'failed', the
    sentinel is in the ledger in no state the server reaches from its
    initial one by runs, delegations and cancellations, and every call
    resuming it is refused before the engine is called; the same holds of
    a run among other tasks that keep the sentinel out. *)
Theorem C10_sentinel_session_ids :
  (forall env st params context cfg e,
     JsMap.get (registry env) (rp_agent params) = Some cfg ->
     (forall rid,
        rp_resume params = Some rid -> rid <> EmptyString ->
        SessionStore.has (sessionStore st) rid = true
        /\ SessionStore.isActive (sessionStore st) rid = false) ->
     engine env (enhancedTaskOf params) (sdkOptions env cfg params)
     = QueryThrows e
     \/ (exists ex,
           engine env (enhancedTaskOf params) (sdkOptions env cfg params)
           = QueryStarted ex
           /\ ex_end ex = StreamThrows e
           /\ established (ex_messages ex) = []) ->
     exists result,
       fst (fst (runAgent env st params context)) = Return result
       /\ ar_success result = false
       /\ ar_session_id result = "unknown"
       /\ ar_error result = Some (errMsgOf e)
       /\ snd (fst (runAgent env st params context)) = st)
  /\ (forall invoke index task e,
        run_outcome (invoke index (invocation_of task)) = Throw e ->
        btr_success (batchTask invoke index task) = false
        /\ btr_session_id (batchTask invoke index task) = "failed")
  /\ (forall env st index task start stop,
        JsMap.get (registry env) (bt_agent task) = None ->
        btr_session_id
          (batchTask
             (fun _ p =>
                {| run_start := start;
                   run_outcome := fst (fst (runAgent env st p None));
                   run_end := stop |})
             index task) = "failed"
        /\ snd (fst (runAgent env st (invocation_of task) None)) = st)
  /\ (forall env sentinel calls,
        sentinel = "unknown" \/ sentinel = "failed" ->
        never_establishes (engine env) sentinel ->
        let st := fold_left (serve env) calls initialState in
        SessionStore.has (sessionStore st) sentinel = false
        /\ (forall params context,
              rp_resume params = Some sentinel ->
              exists e,
                runAgent env st params context = (Throw e, st, [])
                /\ (raises (@Throw AgentResult e) AGENT_NOT_FOUND
                    \/ raises (@Throw AgentResult e) SESSION_NOT_FOUND)))
  /\ (forall env st params context others sentinel,
        sentinel = "unknown" \/ sentinel = "failed" ->
        never_establishes (engine env) sentinel ->
        keeps_out sentinel others ->
        SessionStore.has (sessionStore st) sentinel = false ->
        SessionStore.has
          (sessionStore
             (snd (fst (runAgentAmong env st params context others))))
          sentinel = false).
Proof.
  split; [|split; [|split; [|split]]].
  - intros env st params context cfg e Ha Hres Heng.
    rewrite (@runAgent_run env st params context cfg Ha Hres).
    destruct Heng as [->|(ex & -> & Hend & Hnone)].
    + eexists. simpl. repeat split.
    + cbv zeta. cbn [fst snd]. rewrite Hend.
      pose proof (loop_sessionId params (ex_query ex) (ex_messages ex)
                    st (initialVars context)) as Hsid.
      rewrite Hnone in Hsid. simpl in Hsid.
      eexists. split; [reflexivity|]. split; [reflexivity|].
      split; [unfold caughtResult; cbn [ar_session_id]; now rewrite Hsid|].
      split; [reflexivity|].
      rewrite Hsid. unfold cleanup. simpl.
      now apply loop_no_session.
  - intros invoke index task e He. unfold batchTask.
    fold (invocation_of task). now rewrite He.
  - intros env st index task start stop Ha.
    destruct (@runAgent_agent_not_found env st (invocation_of task) None Ha)
      as (Hr & Hst & _).
    split; [|exact Hst].
    unfold batchTask. fold (invocation_of task). simpl.
    destruct (fst (fst (runAgent env st (invocation_of task) None)));
      [contradiction | reflexivity].
  - intros env sentinel calls Hs Heng. cbv zeta.
    assert (Hhas : SessionStore.has
                     (sessionStore (fold_left (serve env) calls initialState))
                     sentinel = false).
    { assert (H0 : SessionStore.has (sessionStore initialState) sentinel
                   = false) by reflexivity.
      revert H0. generalize initialState.
      induction calls as [|call calls IH]; intros st0 H0; auto.
      cbn [fold_left]. apply IH. now apply serve_keeps_out. }
    split; [exact Hhas|].
    intros params context Hr.
    assert (Hne : sentinel <> EmptyString)
      by (destruct Hs; subst; discriminate).
    destruct (JsMap.get (registry env) (rp_agent params)) as [cfg|] eqn:Ha.
    + eexists. split.
      * apply (runAgent_session_not_found env _ params context Ha Hr Hne
                 Hhas).
      * right. reflexivity.
    + eexists. split.
      * unfold runAgent, AgentRegistry.getOrThrow. rewrite Ha. reflexivity.
      * left. reflexivity.
  - intros env st params context others sentinel Hs Heng Hout Hhas.
    unfold runAgentAmong.
    destruct (AgentRegistry.getOrThrow _ _) as [cfg|]; auto.
    destruct (_ && _); auto.
    destruct (_ && _); auto.
    cbv zeta.
    destruct (engine env (enhancedTaskOf params) (sdkOptions env cfg params))
      as [e|ex] eqn:Eng; auto.
    pose proof (@loopAmong_keeps_out params (ex_query ex) others sentinel
                  (ex_messages ex) Hout 0 st (initialVars context)
                  (Heng _ _ _ Eng) Hhas) as Hloop.
    destruct (loopAmong _ _ _ _ _ _) as [st1 rv]. cbn [fst] in Hloop.
    apply (Hout (length (ex_messages ex))) in Hloop.
    destruct (ex_end ex); cbn [fst snd]; now rewrite cleanup_has.
Qed.

(** The engine fails at once: the run reports 'unknown' and the store keeps
    its single record. *)
Lemma C10_sentinel_witness :
  let params := {| rp_agent := "coder";
                   rp_task := "task";
                   rp_resume := None;
                   rp_fork := None |} in
  exists result,
    fst (fst (runAgent (sampleEnv failingEngine) sampleState params None))
    = Return result
    /\ ar_success result = false
    /\ ar_session_id result = "unknown"
    /\ ar_error result = Some (errMsgOf (Error "spawn failed"))
    /\ snd (fst (runAgent (sampleEnv failingEngine) sampleState params None))
       = sampleState.
Proof.
  cbv zeta.
  apply (proj1 C10_sentinel_session_ids (sampleEnv failingEngine) sampleState
           {| rp_agent := "coder";
              rp_task := "task";
              rp_resume := None;
              rp_fork := None |}
           None (sampleConfig "coder") (Error "spawn failed") eq_refl).
  - intros rid H. discriminate H.
  - left. reflexivity.
Defined.

(** The sentence as it stands fails for an engine that issues the session
    id "unknown": after one run from the initial state the ledger holds a
    session of that name, and a call resuming it passes the checks and
    reaches the engine. *)
Lemma C10_sentinel_counterexample :
  let first := {| rp_agent := "coder";
                  rp_task := "task";
                  rp_resume := None;
                  rp_fork := None |} in
  let again := {| rp_agent := "coder";
                  rp_task := "more";
                  rp_resume := Some "unknown";
                  rp_fork := None |} in
  let st :=
    snd (fst (runAgent (sampleEnv namingEngine) initialState first None)) in
  SessionStore.has (sessionStore st) "unknown" = true
  /\ SessionStore.isActive (sessionStore st) "unknown" = false
  /\ (exists result,
        fst (fst (runAgent (sampleEnv namingEngine) st again None))
        = Return result
        /\ ar_success result = true
        /\ ar_session_id result = "unknown")
  /\ length (engine_calls
               (snd (runAgent (sampleEnv namingEngine) st again None))) = 1.
Proof.
  cbv zeta. split; [reflexivity|]. split; [reflexivity|].
  split; [eexists; split; [reflexivity|split; reflexivity] | reflexivity].
Qed.

(* ====================================================================== *)
(** * Delegation without a registered caller context                       *)
(* ====================================================================== *)

(** When no context is registered for the calling session,
    [handleDelegation] logs the anomaly and delegates from a fresh root
    context of depth 0 whose root session is the calling session.  Unless
    the target agent is itself named "unknown", the placeholder the root's
    chain holds, the child context is derived at depth 1 and the delegated
    run is made: the outcome, the state and the engine calls are those of
    that [runAgent] call.  A target named "unknown" is refused as a cycle
    and nothing is run. *)
Theorem orphan_delegation_uses_fresh_root :
  forall env st params parentSessionId,
    JsMap.get (executionContexts st) parentSessionId = None ->
    let fallback := createDefaultContext "unknown" parentSessionId in
    let out := handleDelegation env st params parentSessionId in
    depth fallback = 0
    /\ rootSessionId fallback = parentSessionId
    /\ snd out
       = ELog ("[Delegation] Warning: No context found for session "
               ++ parentSessionId ++ ", using default")
         :: snd (handleDelegationWithContext env st params fallback)
    /\ fst out = fst (handleDelegationWithContext env st params fallback)
    /\ (dp_agent params <> "unknown" ->
        let child := {| depth := 1;
                        agentStack := ["unknown"; dp_agent params];
                        rootSessionId := parentSessionId |} in
        let run := runAgent env st
                     {| rp_agent := dp_agent params;
                        rp_task := delegatedTaskOf params;
                        rp_resume := None;
                        rp_fork := None |}
                     (Some child) in
        createChildContext fallback (dp_agent params) = Return child
        /\ snd (fst out) = snd (fst run)
        /\ engine_calls (snd out) = engine_calls (snd run)
        /\ dr_context (fst (fst out))
           = {| snap_depth := 1;
                snap_chain := ["unknown"; dp_agent params] |}
        /\ (forall result,
              fst (fst run) = Return result ->
              dr_success (fst (fst out)) = ar_success result
              /\ dr_session_id (fst (fst out)) = ar_session_id result
              /\ dr_result (fst (fst out)) = ar_summary result
              /\ dr_error (fst (fst out)) = ar_error result)
        /\ (forall e,
              fst (fst run) = Throw e ->
              dr_success (fst (fst out)) = false
              /\ dr_error (fst (fst out)) = Some (errMsgOf e)))
    /\ (dp_agent params = "unknown" ->
        raises (createChildContext fallback (dp_agent params))
          DELEGATION_CYCLE_DETECTED
        /\ dr_success (fst (fst out)) = false
        /\ snd (fst out) = st
        /\ engine_calls (snd out) = []).
Proof.
  intros env st params parentSessionId Hnone. cbv zeta.
  unfold handleDelegation. rewrite Hnone.
  destruct (handleDelegationWithContext env st params
              (createDefaultContext "unknown" parentSessionId))
    as [[r st1] effects] eqn:Ew.
  cbn [fst snd]. repeat (split; [reflexivity|]).
  split.
  2:{ intros Htarget.
      destruct (@createChildContext_cycle
                  (createDefaultContext "unknown" parentSessionId)
                  (dp_agent params)) as [msg Hcycle].
      - simpl. unfold MAX_DELEGATION_DEPTH. lia.
      - simpl. left. now rewrite Htarget.
      - unfold handleDelegationWithContext in Ew. rewrite Hcycle in Ew.
        injection Ew as <- <- <-. rewrite Hcycle. simpl. auto. }
  intros Htarget.
  assert (Hchild :
    createChildContext (createDefaultContext "unknown" parentSessionId)
      (dp_agent params)
    = Return {| depth := 1;
                agentStack := ["unknown"; dp_agent params];
                rootSessionId := parentSessionId |}).
  { apply createChildContext_ok; simpl.
    - unfold MAX_DELEGATION_DEPTH. lia.
    - intros [H|[]]. now apply Htarget. }
  split; [exact Hchild|].
  unfold handleDelegationWithContext in Ew. rewrite Hchild in Ew.
  destruct (runAgent env st
              {| rp_agent := dp_agent params;
                 rp_task := delegatedTaskOf params;
                 rp_resume := None;
                 rp_fork := None |}
              (Some {| depth := 1;
                       agentStack := ["unknown"; dp_agent params];
                       rootSessionId := parentSessionId |}))
    as [[[result|e] st2] effects2];
    injection Ew as <- <- <-; cbn [fst snd];
    (split; [reflexivity|]);
    (split; [unfold engine_calls; simpl; rewrite flat_map_app; simpl;
             now rewrite app_nil_r|]);
    (split; [reflexivity|]);
    split; intros x Hx; try discriminate Hx;
    injection Hx as <-; simpl; auto.
Qed.

(** An orphan delegation to "coder" derives the depth-1 context under the
    placeholder root. *)
Lemma orphan_delegation_uses_fresh_root_witness :
  let params := {| dp_agent := "coder";
                   dp_task := "help";
                   dp_context_data := None;
                   dp_wait_for_result := None |} in
  let st := {| sessionStore := SessionStore.new;
               executionContexts := JsMap.empty |} in
  let out := handleDelegation (sampleEnv resumingEngine) st params "s9" in
  createChildContext (createDefaultContext "unknown" "s9") "coder"
  = Return {| depth := 1;
              agentStack := ["unknown"; "coder"];
              rootSessionId := "s9" |}
  /\ dr_context (fst (fst out))
     = {| snap_depth := 1; snap_chain := ["unknown"; "coder"] |}.
Proof.
  cbv zeta.
  destruct (@orphan_delegation_uses_fresh_root
              (sampleEnv resumingEngine)
              {| sessionStore := SessionStore.new;
                 executionContexts := JsMap.empty |}
              {| dp_agent := "coder";
                 dp_task := "help";
                 dp_context_data := None;
                 dp_wait_for_result := None |}
              "s9" eq_refl)
    as (_ & _ & _ & _ & H & _).
  destruct (H ltac:(discriminate)) as (Hchild & _ & _ & Hctx & _).
  split; [exact Hchild | exact Hctx].
Defined.

(** C9 (the code departs from the specification).  An orphan delegation
    to a registered agent named "unknown" is not run: the placeholder name
    in the fallback chain makes [createChildContext] report a cycle, so the
    delegation fails because the caller's context was missing.  With a
    context registered for the caller the same delegation runs. *)
Theorem C9_orphan_delegation_to_unknown_is_refused :
  let env := sampleEnv resumingEngine in
  let params := {| dp_agent := "unknown";
                   dp_task := "help";
                   dp_context_data := None;
                   dp_wait_for_result := None |} in
  let orphan := {| sessionStore := SessionStore.new;
                   executionContexts := JsMap.empty |} in
  let known := {| sessionStore := SessionStore.new;
                  executionContexts :=
                    JsMap.set JsMap.empty "s9"
                      (createDefaultContext "planner" "s9") |} in
  JsMap.get (executionContexts orphan) "s9" = None
  /\ JsMap.get (registry env) "unknown" = Some (sampleConfig "unknown")
  /\ dr_success (fst (fst (handleDelegation env orphan params "s9"))) = false
  /\ dr_error (fst (fst (handleDelegation env orphan params "s9")))
     = Some ("Delegation cycle detected: unknown is already in the call chain. "
             ++ "Chain: unknown → unknown")%string
  /\ engine_calls (snd (handleDelegation env orphan params "s9")) = []
  /\ dr_success (fst (fst (handleDelegation env known params "s9"))) = true
  /\ length (engine_calls (snd (handleDelegation env known params "s9"))) = 1.
Proof.
  cbv zeta. repeat split.
Qed.

(* ====================================================================== *)
(** * The listing does not depend on the sorting algorithm                 *)
(* ====================================================================== *)

(** Any arrangement of the records passing the filter that is ordered by
    [last_active] descending and keeps records of equal [last_active] in
    insertion order is the list [SessionStore.list] returns. *)
Theorem list_is_the_stable_arrangement (st : SessionStore.t)
    (f : option ListFilter) (l : list SessionInfo) :
  StronglySorted (fun a b => (last_active b <= last_active a)%Z) l ->
  (forall t,
     filter (fun s => (last_active s =? t)%Z) l
     = filter (fun s => (last_active s =? t)%Z)
         (filter (passes f) (JsMap.values (SessionStore.sessions st)))) ->
  l = SessionStore.list st f.
Proof.
  intros Hsorted Hstable.
  apply (sorted_stable_unique last_active); auto.
  - rewrite list_as_filter. apply Array_sort_sorted.
  - intros t. rewrite Hstable, list_as_filter.
    symmetry. apply (Array_sort_stable last_active).
Qed.

Lemma list_is_the_stable_arrangement_witness :
  let st := run_ops [OpSave 10 "s1" "coder" "t1" None;
                     OpSave 20 "s2" "planner" "t2" None;
                     OpSave 10 "s3" "coder" "t3" None] in
  [ {| session_id := "s2"; agent := "planner"; initial_task := "t2";
       created_at := 20; last_active := 20; is_active := false |};
    {| session_id := "s1"; agent := "coder"; initial_task := "t1";
       created_at := 10; last_active := 10; is_active := false |};
    {| session_id := "s3"; agent := "coder"; initial_task := "t3";
       created_at := 10; last_active := 10; is_active := false |} ]
  = SessionStore.list st None.
Proof.
  cbv zeta.
  apply (@list_is_the_stable_arrangement
           (run_ops [OpSave 10 "s1" "coder" "t1" None;
                     OpSave 20 "s2" "planner" "t2" None;
                     OpSave 10 "s3" "coder" "t3" None])
           None).
  - repeat constructor; simpl; lia.
  - intros t. cbn -[Z.eqb].
    destruct (20 =? t)%Z eqn:E20; destruct (10 =? t)%Z eqn:E10;
      try reflexivity.
    apply Z.eqb_eq in E20, E10. lia.
Defined.

(* ====================================================================== *)
(** * Insertion-ordered maps: keys and sizes                               *)
(* ====================================================================== *)

Module JsMapKeys.
Section Keys.
Variable V : Type.
Implicit Types (m : JsMap.t V) (k : string) (v : V).

Lemma get_In m k v : JsMap.get m k = Some v -> In (k, v) m.
Proof.
  induction m as [|[k' v'] m IH]; simpl; [discriminate|].
  destruct (String.eqb k' k) eqn:E.
  - apply String.eqb_eq in E. intros H. injection H as ->. subst. now left.
  - intros H. right. now apply IH.
Qed.

Lemma in_keys_get m k :
  In k (JsMap.keys m) <-> exists v, JsMap.get m k = Some v.
Proof.
  induction m as [|[k' v'] m IH]; simpl.
  - split; [contradiction | intros [v H]; discriminate].
  - destruct (String.eqb k' k) eqn:E.
    + apply String.eqb_eq in E. split; eauto.
    + apply String.eqb_neq in E. rewrite <- IH. tauto.
Qed.

Lemma get_None_keys m k : JsMap.get m k = None <-> ~ In k (JsMap.keys m).
Proof.
  rewrite in_keys_get. destruct (JsMap.get m k).
  - split; [discriminate | intros H; destruct H; eauto].
  - split; [intros _ [v H]; discriminate | reflexivity].
Qed.

Lemma In_get m k v :
  NoDup (JsMap.keys m) -> In (k, v) m -> JsMap.get m k = Some v.
Proof.
  induction m as [|[k' v'] m IH]; simpl; [contradiction|].
  intros Hnd Hin. inversion Hnd as [|? ? Hk Hnd']; subst.
  destruct Hin as [Heq|Hin].
  - injection Heq as -> ->. now rewrite String.eqb_refl.
  - destruct (String.eqb k' k) eqn:E; [|now apply IH].
    apply String.eqb_eq in E. subst k'. destruct Hk.
    apply (in_map fst) in Hin. exact Hin.
Qed.

Lemma keys_set m k v :
  JsMap.keys (JsMap.set m k v)
  = if JsMap.has m k then JsMap.keys m else JsMap.keys m ++ [k].
Proof.
  unfold JsMap.has.
  induction m as [|[k' v'] m IH]; simpl; auto.
  destruct (String.eqb k' k) eqn:E; simpl.
  - reflexivity.
  - rewrite IH. now destruct (JsMap.get m k).
Qed.

Lemma NoDup_keys_set m k v :
  NoDup (JsMap.keys m) -> NoDup (JsMap.keys (JsMap.set m k v)).
Proof.
  intros H. rewrite keys_set. unfold JsMap.has.
  destruct (JsMap.get m k) eqn:E; auto.
  apply get_None_keys in E.
  apply NoDup_app; [assumption | repeat constructor; auto | ].
  intros x Hx [<-|[]]. contradiction.
Qed.

Lemma keys_delete m k :
  JsMap.keys (JsMap.delete m k)
  = filter (fun k' => negb (String.eqb k' k)) (JsMap.keys m).
Proof.
  induction m as [|[k' v'] m IH]; simpl; auto.
  destruct (String.eqb k' k); simpl; now rewrite IH.
Qed.

Lemma NoDup_keys_delete m k :
  NoDup (JsMap.keys m) -> NoDup (JsMap.keys (JsMap.delete m k)).
Proof.
  intros H. rewrite keys_delete. now apply NoDup_filter.
Qed.

Lemma delete_absent m k : JsMap.get m k = None -> JsMap.delete m k = m.
Proof.
  induction m as [|[k' v'] m IH]; simpl; auto.
  destruct (String.eqb k' k); [discriminate|]. simpl.
  intros H. now rewrite IH.
Qed.

Lemma set_set m k v v' :
  JsMap.set (JsMap.set m k v) k v' = JsMap.set m k v'.
Proof.
  induction m as [|[k' v0] m IH]; simpl.
  - now rewrite String.eqb_refl.
  - destruct (String.eqb k' k) eqn:E; simpl; rewrite E; congruence.
Qed.

Lemma delete_delete m k :
  JsMap.delete (JsMap.delete m k) k = JsMap.delete m k.
Proof.
  apply delete_absent, JsMapFacts.get_delete_eq.
Qed.

Lemma size_set m k v :
  JsMap.size (JsMap.set m k v)
  = if JsMap.has m k then JsMap.size m else S (JsMap.size m).
Proof.
  unfold JsMap.size.
  rewrite <- (length_map fst (JsMap.set m k v)), <- (length_map fst m).
  change (map fst (JsMap.set m k v)) with (JsMap.keys (JsMap.set m k v)).
  rewrite keys_set. destruct (JsMap.has m k); auto.
  rewrite length_app. simpl. unfold JsMap.keys. lia.
Qed.

Lemma size_delete m k :
  NoDup (JsMap.keys m) ->
  JsMap.size (JsMap.delete m k)
  = if JsMap.has m k then JsMap.size m - 1 else JsMap.size m.
Proof.
  unfold JsMap.has, JsMap.size.
  induction m as [|[k' v'] m IH]; simpl; auto.
  intros Hnd. inversion Hnd as [|? ? Hk Hnd']; subst.
  destruct (String.eqb k' k) eqn:E; simpl.
  - apply String.eqb_eq in E. subst k'.
    apply get_None_keys in Hk. rewrite (delete_absent _ _ Hk). lia.
  - rewrite (IH Hnd'). destruct (JsMap.get m k) eqn:G; auto.
    apply get_In in G. destruct m; [contradiction|]. simpl. lia.
Qed.
End Keys.
End JsMapKeys.

(* ====================================================================== *)
(** * Session ledger: saving, removing, clearing                           *)
(* ====================================================================== *)

(** [save] followed by a lookup: the record found carries the id, the agent
    and the time of the call, keeps the first task and creation time of a
    record that was already there, and is active exactly when a query was
    given; a query given is the handle found afterwards; no other session
    is affected. *)
Theorem save_then_lookup now st sid a t q sid' :
  sid' <> sid ->
  SessionStore.get (SessionStore.save now st sid a t q) sid
  = Some {| session_id := sid;
            agent := a;
            initial_task :=
              match SessionStore.get st sid with
              | Some e => initial_task e
              | None => t
              end;
            created_at :=
              match SessionStore.get st sid with
              | Some e => created_at e
              | None => now
              end;
            last_active := now;
            is_active := match q with Some _ => true | None => false end |}
  /\ SessionStore.getQuery (SessionStore.save now st sid a t q) sid
     = match q with
       | Some q0 => Some q0
       | None => SessionStore.getQuery st sid
       end
  /\ SessionStore.get (SessionStore.save now st sid a t q) sid'
     = SessionStore.get st sid'
  /\ SessionStore.getQuery (SessionStore.save now st sid a t q) sid'
     = SessionStore.getQuery st sid'.
Proof.
  intros Hne.
  unfold SessionStore.get, SessionStore.getQuery, SessionStore.save. simpl.
  assert (Hne' : sid <> sid') by congruence.
  rewrite JsMapFacts.get_set_eq, (JsMapFacts.get_set_neq _ _ Hne').
  destruct q as [q0|]; rewrite ?JsMapFacts.get_set_eq,
    ?(JsMapFacts.get_set_neq _ _ Hne'); auto.
Qed.

Lemma save_then_lookup_witness :
  SessionStore.get
    (SessionStore.save 30 (sessionStore sampleState) "s1" "coder" "again"
       (Some {| handle_id := 4 |})) "s1"
  = Some {| session_id := "s1";
            agent := "coder";
            initial_task := "first task";
            created_at := 10;
            last_active := 30;
            is_active := true |}.
Proof.
  apply (@save_then_lookup 30%Z (sessionStore sampleState) "s1" "coder"
           "again" (Some {| handle_id := 4 |}) "s2").
  discriminate.
Defined.

Lemma apply_op_keeps_origin (st : SessionStore.t) (op : StoreOp) :
  keeps_records op = true -> keeps_origin st (apply_op st op).
Proof.
  destruct op as [now sid a t q|now sid|now i sid|sid|]; simpl;
    try discriminate; intros _.
  - apply save_keeps_origin.
  - apply complete_keeps_origin.
  - unfold SessionStore.cancel.
    destruct (JsMap.get (SessionStore.activeQueries st) sid);
      [destruct i|]; cbn [fst snd];
      try apply complete_keeps_origin; apply keeps_origin_refl.
Qed.

(** As long as no record is removed, no sequence of [save], [complete] and
    [cancel] calls changes the [initial_task] or the [created_at] of a
    session, or drops its record. *)
Theorem initial_task_never_changes (ops : list StoreOp) : forall st,
  forallb keeps_records ops = true ->
  keeps_origin st (fold_left apply_op ops st).
Proof.
  induction ops as [|op ops IH]; simpl; intros st Hops.
  - apply keeps_origin_refl.
  - apply andb_prop in Hops. destruct Hops as [Hop Hops].
    apply keeps_origin_trans with (s2 := apply_op st op).
    + now apply apply_op_keeps_origin.
    + now apply IH.
Qed.

Lemma initial_task_never_changes_witness :
  keeps_origin (sessionStore sampleState)
    (fold_left apply_op
       [OpSave 30 "s1" "planner" "second task" (Some {| handle_id := 4 |});
        OpCancel 40 (Throw (Error "gone")) "s1";
        OpSave 50 "s1" "coder" "third task" None]
       (sessionStore sampleState)).
Proof.
  apply (@initial_task_never_changes
           [OpSave 30 "s1" "planner" "second task"
              (Some {| handle_id := 4 |});
            OpCancel 40 (Throw (Error "gone")) "s1";
            OpSave 50 "s1" "coder" "third task" None]
           (sessionStore sampleState)).
  reflexivity.
Defined.

Lemma store_wf_step (st : SessionStore.t) (op : StoreOp) :
  store_wf st -> store_wf (apply_op st op).
Proof.
  unfold store_wf, SessionStore.get. intros (Hs & Hq & Hid).
  assert (Hcomplete : forall now sid,
    NoDup (JsMap.keys (SessionStore.sessions
                         (SessionStore.complete now st sid)))
    /\ NoDup (JsMap.keys (SessionStore.activeQueries
                            (SessionStore.complete now st sid)))
    /\ (forall sid' r,
          JsMap.get (SessionStore.sessions
                       (SessionStore.complete now st sid)) sid' = Some r ->
          session_id r = sid')).
  { intros now sid. unfold SessionStore.complete. simpl.
    split; [|split].
    - destruct (JsMap.get (SessionStore.sessions st) sid); auto.
      now apply JsMapKeys.NoDup_keys_set.
    - now apply JsMapKeys.NoDup_keys_delete.
    - intros sid' r.
      destruct (JsMap.get (SessionStore.sessions st) sid) as [r0|] eqn:E0;
        [|apply Hid].
      rewrite JsMapFacts.get_set. destruct (String.eqb sid sid') eqn:E;
        [|apply Hid].
      apply String.eqb_eq in E. subst sid'.
      intros H. injection H as <-. simpl. now apply Hid. }
  destruct op as [now sid a t q|now sid|now i sid|sid|]; simpl.
  - split; [|split].
    + now apply JsMapKeys.NoDup_keys_set.
    + destruct q; auto. now apply JsMapKeys.NoDup_keys_set.
    + intros sid' r. rewrite JsMapFacts.get_set.
      destruct (String.eqb sid sid') eqn:E; [|apply Hid].
      apply String.eqb_eq in E. subst sid'.
      intros H. now injection H as <-.
  - apply Hcomplete.
  - unfold SessionStore.cancel.
    destruct (JsMap.get (SessionStore.activeQueries st) sid);
      [destruct i|]; cbn [fst snd]; auto; apply Hcomplete.
  - split; [|split].
    + now apply JsMapKeys.NoDup_keys_delete.
    + now apply JsMapKeys.NoDup_keys_delete.
    + intros sid' r. rewrite JsMapFacts.get_delete.
      destruct (String.eqb sid sid'); [discriminate | apply Hid].
  - repeat split; try constructor. intros sid' r. discriminate.
Qed.

Lemma store_wf_new : store_wf SessionStore.new.
Proof.
  repeat split; try constructor. intros sid r. discriminate.
Qed.

(** In every store reached from a fresh one, each session id is filed once
    and under its own id, so [size] counts sessions: saving a new id adds
    one, saving a known id adds none, removing a known id takes one away
    and reports [true], removing an unknown id changes nothing and reports
    [false]. *)
Theorem size_counts_sessions (ops : list StoreOp) :
  let st := run_ops ops in
  store_wf st
  /\ (forall now sid a t q,
        SessionStore.size (SessionStore.save now st sid a t q)
        = if SessionStore.has st sid then SessionStore.size st
          else S (SessionStore.size st))
  /\ (forall sid,
        fst (SessionStore.remove st sid) = SessionStore.has st sid
        /\ SessionStore.size (snd (SessionStore.remove st sid))
           = if SessionStore.has st sid then SessionStore.size st - 1
             else SessionStore.size st)
  /\ (forall now sid,
        SessionStore.size (SessionStore.complete now st sid)
        = SessionStore.size st).
Proof.
  cbv zeta.
  assert (Hwf : store_wf (run_ops ops)).
  { unfold run_ops.
    apply (@fold_apply_op_inv store_wf (fun _ => true)).
    - intros st op _. apply store_wf_step.
    - now induction ops.
    - apply store_wf_new. }
  split; [exact Hwf|]. destruct Hwf as (Hs & _ & _).
  unfold SessionStore.size, SessionStore.has. simpl. split; [|split].
  - intros now sid a t q. apply JsMapKeys.size_set.
  - intros sid. split; [reflexivity|]. now apply JsMapKeys.size_delete.
  - intros now sid.
    destruct (JsMap.get (SessionStore.sessions (run_ops ops)) sid) eqn:E;
      auto.
    rewrite JsMapKeys.size_set. unfold JsMap.has. now rewrite E.
Qed.

Lemma length_active_keys (m : JsMap.t SessionInfo) :
  length (filter (fun s => is_active s) (JsMap.values m))
  = length (JsMap.keys (filter (fun kv => is_active (snd kv)) m)).
Proof.
  induction m as [|[k r] m IH]; simpl; auto.
  destruct (is_active r); simpl; now rewrite IH.
Qed.

Lemma NoDup_keys_filter (V : Type) (p : string * V -> bool)
    (m : JsMap.t V) :
  NoDup (JsMap.keys m) -> NoDup (JsMap.keys (filter p m)).
Proof.
  induction m as [|[k v] m IH]; simpl; auto.
  intros Hnd. inversion Hnd as [|? ? Hk Hnd']; subst.
  destruct (p (k, v)); simpl; auto.
  constructor; auto. intros Hin. apply Hk.
  apply in_map_iff in Hin. destruct Hin as [[k' v'] [Hk' Hin]].
  apply filter_In in Hin. destruct Hin as [Hin _].
  simpl in Hk'. subst k'.
  apply (in_map fst) in Hin. exact Hin.
Qed.

(** When every [save] supplies a query, [activeCount] is the number of
    sessions that [list] reports as active. *)
Theorem activeCount_counts_active_sessions (ops : list StoreOp) :
  forallb supplies_handle ops = true ->
  SessionStore.activeCount (run_ops ops)
  = length (SessionStore.list (run_ops ops)
              (Some {| f_agent := None; f_active_only := Some true |})).
Proof.
  intros Hops.
  assert (Inv : store_wf (run_ops ops)
                /\ active_has_handle (run_ops ops)
                /\ handle_has_active (run_ops ops)).
  { unfold run_ops.
    apply (@fold_apply_op_inv
             (fun st => store_wf st /\ active_has_handle st
                        /\ handle_has_active st)
             supplies_handle); auto.
    - intros st op Hop (H1 & H2 & H3). split; [|split].
      + now apply store_wf_step.
      + now apply active_has_handle_step.
      + now apply handle_has_active_step.
    - split; [apply store_wf_new|].
      split; intros sid x H; discriminate. }
  destruct Inv as ((Hs & Hq & _) & Hah & Hha).
  set (st := run_ops ops) in *.
  rewrite (Permutation_length
             (Array_sort_perm last_active _ : Permutation
                (SessionStore.list st
                   (Some {| f_agent := None; f_active_only := Some true |}))
                (filter (fun s => is_active s)
                   (JsMap.values (SessionStore.sessions st))))).
  rewrite length_active_keys.
  unfold SessionStore.activeCount, JsMap.size.
  rewrite <- (length_map fst (SessionStore.activeQueries st)).
  apply Permutation_length, NoDup_Permutation.
  - exact Hq.
  - now apply NoDup_keys_filter.
  - intros sid. split.
    + intros Hin. apply JsMapKeys.in_keys_get in Hin. destruct Hin as [q Hget].
      destruct (Hha sid q Hget) as (r & Hr & Hactive).
      apply JsMapKeys.get_In in Hr.
      apply (in_map fst (filter _ _) (sid, r)).
      apply filter_In. auto.
    + intros Hin. apply in_map_iff in Hin.
      destruct Hin as [[k r] [Hk Hin]]. simpl in Hk. subst k.
      apply filter_In in Hin. destruct Hin as [Hin Hactive].
      apply (@JsMapKeys.In_get _ _ sid r Hs) in Hin.
      destruct (Hah sid r Hin Hactive) as [q Hget].
      apply JsMapKeys.in_keys_get. eauto.
Qed.

Lemma activeCount_counts_active_sessions_witness :
  SessionStore.activeCount
    (run_ops [OpSave 10 "s1" "coder" "t1" (Some {| handle_id := 1 |});
              OpSave 20 "s2" "coder" "t2" (Some {| handle_id := 2 |});
              OpComplete 30 "s1"])
  = length
      (SessionStore.list
         (run_ops [OpSave 10 "s1" "coder" "t1" (Some {| handle_id := 1 |});
                   OpSave 20 "s2" "coder" "t2" (Some {| handle_id := 2 |});
                   OpComplete 30 "s1"])
         (Some {| f_agent := None; f_active_only := Some true |})).
Proof.
  apply (@activeCount_counts_active_sessions
           [OpSave 10 "s1" "coder" "t1" (Some {| handle_id := 1 |});
            OpSave 20 "s2" "coder" "t2" (Some {| handle_id := 2 |});
            OpComplete 30 "s1"]).
  reflexivity.
Defined.

(** [remove] forgets a session: it reports whether the session was known,
    afterwards the session is neither known nor active and has no handle,
    removing it again reports [false], and no other session is affected. *)
Theorem remove_forgets_session st sid sid' :
  sid' <> sid ->
  let st' := snd (SessionStore.remove st sid) in
  fst (SessionStore.remove st sid) = SessionStore.has st sid
  /\ SessionStore.has st' sid = false
  /\ SessionStore.get st' sid = None
  /\ SessionStore.getQuery st' sid = None
  /\ SessionStore.isActive st' sid = false
  /\ fst (SessionStore.remove st' sid) = false
  /\ SessionStore.get st' sid' = SessionStore.get st sid'
  /\ SessionStore.getQuery st' sid' = SessionStore.getQuery st sid'.
Proof.
  intros Hne. cbv zeta.
  assert (Hne' : sid <> sid') by congruence.
  unfold SessionStore.remove, SessionStore.has, SessionStore.get,
    SessionStore.getQuery, SessionStore.isActive, JsMap.has.
  simpl.
  rewrite !JsMapFacts.get_delete_eq,
    !(JsMapFacts.get_delete_neq _ Hne'). auto 10.
Qed.

Lemma remove_forgets_session_witness :
  fst (SessionStore.remove (sessionStore sampleState) "s1") = true
  /\ SessionStore.has
       (snd (SessionStore.remove (sessionStore sampleState) "s1")) "s1"
     = false.
Proof.
  destruct (@remove_forgets_session (sessionStore sampleState) "s1" "s2"
              ltac:(discriminate)) as (H1 & H2 & _).
  split; [exact H1 | exact H2].
Defined.

(** [clear] requests the interrupt of every registered handle, once each,
    and leaves a store in which nothing is known, active or listed. *)
Theorem clear_interrupts_and_empties st :
  (forall sid q,
     SessionStore.getQuery st sid = Some q ->
     In (EInterrupt q) (snd (SessionStore.clear st)))
  /\ length (snd (SessionStore.clear st)) = SessionStore.activeCount st
  /\ (forall e, In e (snd (SessionStore.clear st)) ->
                exists sid q,
                  e = EInterrupt q
                  /\ In (sid, q) (SessionStore.activeQueries st))
  /\ SessionStore.size (fst (SessionStore.clear st)) = 0
  /\ SessionStore.activeCount (fst (SessionStore.clear st)) = 0
  /\ (forall sid,
        SessionStore.get (fst (SessionStore.clear st)) sid = None
        /\ SessionStore.getQuery (fst (SessionStore.clear st)) sid = None)
  /\ (forall f, SessionStore.list (fst (SessionStore.clear st)) f = []).
Proof.
  unfold SessionStore.clear, SessionStore.getQuery, SessionStore.activeCount,
    JsMap.size, JsMap.values. simpl.
  split; [|split; [|split]].
  - intros sid q Hq. apply JsMapKeys.get_In in Hq.
    apply in_map. apply (in_map snd _ (sid, q)). exact Hq.
  - now rewrite !length_map.
  - intros e He. apply in_map_iff in He. destruct He as [q [<- Hq]].
    apply in_map_iff in Hq. destruct Hq as [[sid q'] [Hq Hin]].
    simpl in Hq. subst q'. eauto.
  - repeat split. intros f. now rewrite list_as_filter.
Qed.

(** [complete] is idempotent: completing twice is completing once at the
    later time, and completing a session that has neither a record nor a
    handle changes nothing. *)
Theorem complete_is_idempotent t1 t2 st sid :
  SessionStore.complete t2 (SessionStore.complete t1 st sid) sid
  = SessionStore.complete t2 st sid
  /\ (SessionStore.get st sid = None ->
      SessionStore.getQuery st sid = None ->
      SessionStore.complete t1 st sid = st).
Proof.
  unfold SessionStore.complete, SessionStore.get, SessionStore.getQuery.
  simpl. split.
  - rewrite JsMapKeys.delete_delete.
    destruct (JsMap.get (SessionStore.sessions st) sid) as [r|] eqn:E.
    + rewrite JsMapFacts.get_set_eq. simpl.
      now rewrite JsMapKeys.set_set.
    + now rewrite E.
  - intros Hs Hq. rewrite Hs, (JsMapKeys.delete_absent _ _ Hq).
    now destruct st.
Qed.

Lemma complete_is_idempotent_witness :
  SessionStore.complete 30 (sessionStore sampleState) "nobody"
  = sessionStore sampleState.
Proof.
  apply (proj2 (@complete_is_idempotent 30%Z 40%Z (sessionStore sampleState)
                  "nobody")); reflexivity.
Defined.

Lemma clear_interrupts_and_empties_witness :
  In (EInterrupt {| handle_id := 1 |})
    (snd (SessionStore.clear
            (SessionStore.save 10 SessionStore.new "s1" "coder" "t"
               (Some {| handle_id := 1 |})))).
Proof.
  apply (proj1 (clear_interrupts_and_empties
                  (SessionStore.save 10 SessionStore.new "s1" "coder" "t"
                     (Some {| handle_id := 1 |})))
           "s1" {| handle_id := 1 |}).
  reflexivity.
Defined.

(* ====================================================================== *)
(** * Session ledger: the last operation on a session decides its state    *)
(* ====================================================================== *)

Lemma apply_op_frame (st : SessionStore.t) (op : StoreOp) (sid : string) :
  touches sid op = false ->
  SessionStore.get (apply_op st op) sid = SessionStore.get st sid
  /\ SessionStore.getQuery (apply_op st op) sid
     = SessionStore.getQuery st sid.
Proof.
  destruct op as [now s a t q|now s|now i s|s|]; simpl;
    try discriminate; intros Hs; apply String.eqb_neq in Hs.
  - unfold SessionStore.get, SessionStore.getQuery, SessionStore.save. simpl.
    rewrite (JsMapFacts.get_set_neq _ _ Hs).
    destruct q; rewrite ?(JsMapFacts.get_set_neq _ _ Hs); auto.
  - now apply complete_other.
  - unfold SessionStore.cancel.
    destruct (JsMap.get (SessionStore.activeQueries st) s);
      [destruct i|]; cbn [fst snd]; auto; now apply complete_other.
  - unfold SessionStore.get, SessionStore.getQuery, SessionStore.remove.
    simpl. now rewrite !(JsMapFacts.get_delete_neq _ Hs).
Qed.

(** Operations on other sessions leave a session's record and handle as
    they are. *)
Lemma fold_apply_op_frame (sid : string) (ops : list StoreOp) : forall st,
  forallb (fun op => negb (touches sid op)) ops = true ->
  SessionStore.get (fold_left apply_op ops st) sid = SessionStore.get st sid
  /\ SessionStore.getQuery (fold_left apply_op ops st) sid
     = SessionStore.getQuery st sid.
Proof.
  induction ops as [|op ops IH]; simpl; intros st Hops; auto.
  apply andb_prop in Hops. destruct Hops as [Hop Hops].
  apply negb_true_iff in Hop.
  destruct (IH (apply_op st op) Hops) as [-> ->].
  now apply apply_op_frame.
Qed.

(** Whether a session is active is decided by the last operation that
    touched it: it is active exactly when that operation was a [save] with
    a query.  Operations on other sessions in between do not matter. *)
Theorem last_operation_decides_activity (pre post : list StoreOp)
    (op : StoreOp) (sid : string) :
  touches sid op = true ->
  forallb (fun o => negb (touches sid o)) post = true ->
  SessionStore.isActive (run_ops (pre ++ op :: post)) sid = activates sid op.
Proof.
  intros Hop Hpost. unfold run_ops. rewrite fold_left_app. simpl.
  fold (run_ops pre).
  assert (Hinv : active_has_handle (run_ops pre)).
  { unfold run_ops.
    apply (@fold_apply_op_inv active_has_handle (fun _ => true)).
    - intros st o _. apply active_has_handle_step.
    - now induction pre.
    - intros s r H. discriminate. }
  set (st := run_ops pre) in *.
  destruct (fold_apply_op_frame sid post (apply_op st op) Hpost) as [Hget _].
  unfold SessionStore.isActive. unfold SessionStore.get in Hget.
  rewrite Hget. clear Hget.
  destruct op as [now s a t q|now s|now i s|s|]; simpl in Hop |- *;
    try (apply String.eqb_eq in Hop; subst s).
  - unfold SessionStore.save. simpl. rewrite JsMapFacts.get_set_eq. simpl.
    destruct q; [now rewrite String.eqb_refl | reflexivity].
  - apply complete_isActive.
  - unfold SessionStore.cancel.
    destruct (JsMap.get (SessionStore.activeQueries st) sid) eqn:Eq;
      [destruct i; cbn [fst snd]; apply complete_isActive|].
    cbn [fst snd].
    destruct (JsMap.get (SessionStore.sessions st) sid) as [r|] eqn:Er;
      auto.
    destruct (is_active r) eqn:Ea; auto.
    destruct (Hinv sid r Er Ea) as [q Hq].
    unfold SessionStore.getQuery in Hq. congruence.
  - unfold SessionStore.remove. simpl.
    now rewrite JsMapFacts.get_delete_eq.
  - reflexivity.
Qed.

Lemma last_operation_decides_activity_witness :
  SessionStore.isActive
    (run_ops ([OpSave 10 "s1" "coder" "t1" (Some {| handle_id := 1 |});
               OpComplete 20 "s1"]
              ++ OpSave 30 "s1" "coder" "t2" (Some {| handle_id := 2 |})
                 :: [OpSave 40 "s2" "planner" "p" (Some {| handle_id := 3 |});
                     OpCancel 50 (Return tt) "s2"]))
    "s1"
  = true.
Proof.
  apply (@last_operation_decides_activity
           [OpSave 10 "s1" "coder" "t1" (Some {| handle_id := 1 |});
            OpComplete 20 "s1"]
           [OpSave 40 "s2" "planner" "p" (Some {| handle_id := 3 |});
            OpCancel 50 (Return tt) "s2"]
           (OpSave 30 "s1" "coder" "t2" (Some {| handle_id := 2 |}))
           "s1"); reflexivity.
Defined.

(* ====================================================================== *)
(** * Delegation contexts: which descents succeed                          *)
(* ====================================================================== *)

Lemma createChildContext_wf parent child ctx :
  context_wf parent ->
  createChildContext parent child = Return ctx ->
  context_wf ctx.
Proof.
  intros (Hlen & Hnd & Hd) H. unfold createChildContext in H.
  destruct (MAX_DELEGATION_DEPTH <? depth parent + 1)%nat eqn:E;
    [discriminate|].
  destruct (includes (agentStack parent) child) eqn:I; [discriminate|].
  injection H as <-. apply Nat.ltb_ge in E. apply includes_not_In in I.
  unfold context_wf. simpl. rewrite length_app. simpl.
  split; [lia|]. split; [|exact E].
  apply NoDup_app; [assumption | repeat constructor; auto |].
  intros x Hx [<-|[]]. contradiction.
Qed.

Lemma descend_all_wf children : forall parent ctx,
  context_wf parent ->
  descend_all parent children = Return ctx ->
  context_wf ctx.
Proof.
  induction children as [|c rest IH]; simpl; intros parent ctx Hwf H.
  - now injection H as <-.
  - destruct (createChildContext parent c) as [mid|] eqn:E; [|discriminate].
    apply (IH mid); auto. exact (@createChildContext_wf parent c mid Hwf E).
Qed.

(** Descending from a root through a list of agents succeeds exactly when
    there are at most [MAX_DELEGATION_DEPTH] of them and no agent, the
    root included, occurs twice; the context reached then has one chain
    entry per level, the root agent first, the root's session id, and a
    depth equal to the number of descents. *)
Theorem descents_succeed_iff_short_and_distinct rootAgent sid children :
  (exists ctx,
     descend_all (createDefaultContext rootAgent sid) children = Return ctx)
  <-> length children <= MAX_DELEGATION_DEPTH
      /\ NoDup (rootAgent :: children).
Proof.
  split.
  - intros [ctx H].
    assert (Hwf : context_wf ctx).
    { apply (@descend_all_wf children (createDefaultContext rootAgent sid));
        auto.
      unfold context_wf. simpl. repeat split; try lia.
      repeat constructor. auto. }
    apply descend_all_Return in H. destruct H as (Hd & Hs & _).
    destruct Hwf as (_ & Hnd & Hle). simpl in *.
    rewrite Hs in Hnd. split; [lia | exact Hnd].
  - intros [Hlen Hnd]. eexists.
    apply (descend_all_distinct children
             (createDefaultContext rootAgent sid)); simpl; auto.
Qed.

(** Every context reached from a root by descents is well formed. *)
Theorem reached_contexts_are_well_formed rootAgent sid children ctx :
  descend_all (createDefaultContext rootAgent sid) children = Return ctx ->
  context_wf ctx
  /\ agentStack ctx = rootAgent :: children
  /\ depth ctx = length children
  /\ rootSessionId ctx = sid.
Proof.
  intros H. split.
  - apply (@descend_all_wf children (createDefaultContext rootAgent sid));
      auto.
    unfold context_wf. simpl. repeat split; try lia.
    repeat constructor. auto.
  - apply descend_all_Return in H. simpl in H. tauto.
Qed.

Lemma reached_contexts_are_well_formed_witness :
  context_wf {| depth := 2;
                agentStack := ["planner"; "coder"; "reviewer"];
                rootSessionId := "s0" |}.
Proof.
  apply (@reached_contexts_are_well_formed "planner" "s0"
           ["coder"; "reviewer"]
           {| depth := 2;
              agentStack := ["planner"; "coder"; "reviewer"];
              rootSessionId := "s0" |} eq_refl).
Defined.

(* ====================================================================== *)
(** * Delegation: errors stop at the delegation boundary                   *)
(* ====================================================================== *)

(** Whatever happens, [handleDelegationWithContext] answers with a
    [DelegationResult] for the target agent whose context snapshot is the
    parent's depth plus one and the parent's chain followed by the target.
    When the child context is refused (too deep, or a cycle) the answer is
    a failure carrying the error message and an empty session id, the
    engine is not called and the module state is left alone.  When the
    delegated run throws, the answer is a failure carrying its message.
    Otherwise the answer mirrors the result of the run. *)
Theorem delegation_errors_become_results env st params parent :
  let target := dp_agent params in
  let out := handleDelegationWithContext env st params parent in
  dr_agent (fst (fst out)) = target
  /\ dr_context (fst (fst out))
     = {| snap_depth := depth parent + 1;
          snap_chain := agentStack parent ++ [target] |}
  /\ (forall e,
        createChildContext parent target = Throw e ->
        dr_success (fst (fst out)) = false
        /\ dr_session_id (fst (fst out)) = EmptyString
        /\ dr_result (fst (fst out)) = EmptyString
        /\ dr_error (fst (fst out)) = Some (errMsgOf e)
        /\ snd (fst out) = st
        /\ engine_calls (snd out) = [])
  /\ (forall child,
        createChildContext parent target = Return child ->
        let run := runAgent env st
                     {| rp_agent := target;
                        rp_task := delegatedTaskOf params;
                        rp_resume := None;
                        rp_fork := None |}
                     (Some child) in
        snd (fst out) = snd (fst run)
        /\ engine_calls (snd out) = engine_calls (snd run)
        /\ (forall e,
              fst (fst run) = Throw e ->
              dr_success (fst (fst out)) = false
              /\ dr_error (fst (fst out)) = Some (errMsgOf e))
        /\ (forall result,
              fst (fst run) = Return result ->
              dr_success (fst (fst out)) = ar_success result
              /\ dr_session_id (fst (fst out)) = ar_session_id result
              /\ dr_result (fst (fst out)) = ar_summary result
              /\ dr_artifacts (fst (fst out)) = ar_artifacts result
              /\ dr_error (fst (fst out)) = ar_error result)).
Proof.
  cbv zeta. unfold handleDelegationWithContext.
  destruct (createChildContext parent (dp_agent params)) as [child|e] eqn:E.
  - apply createChildContext_Return in E. destruct E as (Ed & Es & _).
    destruct (runAgent env st
                {| rp_agent := dp_agent params;
                   rp_task := delegatedTaskOf params;
                   rp_resume := None;
                   rp_fork := None |} (Some child))
      as [[[result|e] st1] effects] eqn:R; cbn [fst snd].
    + split; [reflexivity|]. split; [now rewrite Ed, Es|].
      split; [discriminate|].
      intros child' Hc. injection Hc as <-. rewrite R. cbn [fst snd].
      split; [reflexivity|]. split.
      { unfold engine_calls. simpl. rewrite flat_map_app. simpl.
        now rewrite app_nil_r. }
      split; [discriminate|].
      intros r Hr. injection Hr as <-. auto.
    + split; [reflexivity|]. split; [reflexivity|].
      split; [discriminate|].
      intros child' Hc. injection Hc as <-. rewrite R. cbn [fst snd].
      split; [reflexivity|]. split.
      { unfold engine_calls. simpl. rewrite flat_map_app. simpl.
        now rewrite app_nil_r. }
      split; [|discriminate].
      intros e' He. injection He as <-. auto.
  - cbn [fst snd]. split; [reflexivity|]. split; [reflexivity|].
    split; [|discriminate].
    intros e' He. injection He as <-. repeat split.
Qed.

Lemma delegation_errors_become_results_witness :
  let out :=
    handleDelegationWithContext (sampleEnv resumingEngine) sampleState
      {| dp_agent := "coder";
         dp_task := "help";
         dp_context_data := None;
         dp_wait_for_result := None |}
      {| depth := 1;
         agentStack := ["planner"; "coder"];
         rootSessionId := "s0" |} in
  dr_success (fst (fst out)) = false
  /\ snd (fst out) = sampleState
  /\ engine_calls (snd out) = [].
Proof.
  cbv zeta.
  destruct (@delegation_errors_become_results (sampleEnv resumingEngine)
              sampleState
              {| dp_agent := "coder";
                 dp_task := "help";
                 dp_context_data := None;
                 dp_wait_for_result := None |}
              {| depth := 1;
                 agentStack := ["planner"; "coder"];
                 rootSessionId := "s0" |})
    as (_ & _ & H & _).
  destruct (H _ eq_refl) as (H1 & _ & _ & _ & H5 & H6).
  repeat split; assumption.
Defined.

(* ====================================================================== *)
(** * Agent execution: the message loop as a fold over the stream          *)
(* ====================================================================== *)

Lemma last_app_default (A : Type) (l2 : list A) : forall l1 d,
  last (l1 ++ l2) d = last l2 (last l1 d).
Proof.
  induction l1 as [|a l1 IH]; intros d; auto.
  change ((a :: l1) ++ l2) with (a :: (l1 ++ l2)).
  now rewrite !last_cons, IH.
Qed.

Lemma last_default_or_In (A : Type) (l : list A) : forall d,
  l = [] \/ In (last l d) l.
Proof.
  induction l as [|a l IH]; intros d; auto.
  right. rewrite last_cons. destruct (IH a) as [->|H]; simpl; auto.
Qed.

Lemma message_cases (m : SDKMessage) :
  (exists sid, m = MsgSystemInit sid) \/ (forall sid, m <> MsgSystemInit sid).
Proof.
  destruct m; try (right; discriminate). left. eauto.
Qed.

Lemma established_other now m msgs :
  (forall sid, m <> MsgSystemInit sid) ->
  established ((now, m) :: msgs) = established msgs.
Proof.
  intros Hm. unfold established. simpl. destruct m; auto.
  now destruct (Hm sid).
Qed.

Lemma truthy_last_Some (l : list string) :
  truthy_opt (last (map Some l) None) = truthy (last l EmptyString).
Proof.
  destruct l as [|a l]; auto.
  change (map Some (a :: l)) with (Some a :: map Some l).
  rewrite !last_cons. revert a.
  induction l as [|b l IH]; intros a; auto.
  change (map Some (b :: l)) with (Some b :: map Some l).
  rewrite !last_cons. apply IH.
Qed.

Section StreamFold.
Variable params : RunAgentParams.
Variable q : Query.

Lemma handlers_fold now (hs : list HandlerCall) : forall st rv,
  let out := fold_left (applyHandler params q now) hs (st, rv) in
  rv_artifacts (snd out)
  = rv_artifacts rv
    ++ flat_map (fun h => match h with OnArtifact a => [a] | _ => [] end) hs
  /\ rv_result (snd out)
     = last (flat_map (fun h => match h with OnResult r => [r] | _ => [] end)
               hs)
         (rv_result rv)
  /\ rv_errorMessage (snd out)
     = last (map Some
               (flat_map (fun h => match h with OnError e => [e] | _ => [] end)
                  hs))
         (rv_errorMessage rv).
Proof.
  induction hs as [|h hs IH]; intros st rv; cbv zeta.
  - simpl. now rewrite app_nil_r.
  - cbn [fold_left flat_map].
    destruct h; cbn [applyHandler app map];
      match goal with
      | |- context [fold_left _ hs (?st', ?rv')] =>
          destruct (IH st' rv') as (H1 & H2 & H3)
      end; rewrite H1, H2, H3; cbn [rv_artifacts rv_result rv_errorMessage];
      rewrite ?last_cons, <- ?app_assoc; auto.
Qed.

(** The handler calls [processMessage] makes, against what a message is
    said to report. *)
Lemma processMessage_artifacts (m : SDKMessage) :
  flat_map (fun h => match h with OnArtifact a => [a] | _ => [] end)
    (processMessage m)
  = artifacts_in m.
Proof.
  destruct m as [sid| |r|subtype errors|[content|]|]; try reflexivity.
  simpl. induction content as [|b content IH]; auto.
  cbn [flat_map filter]. rewrite flat_map_app, IH.
  destruct b as [tool [path|]|]; cbn [writes_file]; auto.
  destruct ((String.eqb tool "Write" || String.eqb tool "Edit")
            && truthy path); reflexivity.
Qed.

Lemma processMessage_results (m : SDKMessage) :
  flat_map (fun h => match h with OnResult r => [r] | _ => [] end)
    (processMessage m)
  = results_in m.
Proof.
  destruct m as [sid| |r|subtype errors|[content|]|]; try reflexivity.
  simpl. induction content as [|b content IH]; auto.
  cbn [flat_map]. rewrite flat_map_app, IH.
  destruct b as [tool [path|]|]; auto.
  destruct ((String.eqb tool "Write" || String.eqb tool "Edit")
            && truthy path); reflexivity.
Qed.

Lemma processMessage_errors (m : SDKMessage) :
  flat_map (fun h => match h with OnError e => [e] | _ => [] end)
    (processMessage m)
  = errors_in m.
Proof.
  destruct m as [sid| |r|subtype errors|[content|]|]; try reflexivity.
  - destruct errors as [es|]; simpl; auto.
    unfold join. now destruct (String.concat "; " es).
  - simpl. induction content as [|b content IH]; auto.
    cbn [flat_map]. rewrite flat_map_app, IH.
    destruct b as [tool [path|]|]; auto.
    destruct ((String.eqb tool "Write" || String.eqb tool "Edit")
              && truthy path); reflexivity.
Qed.

Lemma onMessage_fold now m st rv :
  let out := onMessage params q (st, rv) (now, m) in
  rv_artifacts (snd out) = rv_artifacts rv ++ artifacts_in m
  /\ rv_result (snd out) = last (results_in m) (rv_result rv)
  /\ rv_errorMessage (snd out)
     = last (map Some (errors_in m)) (rv_errorMessage rv).
Proof.
  cbv zeta. rewrite <- processMessage_artifacts, <- processMessage_results,
    <- processMessage_errors.
  unfold onMessage. destruct m; try apply handlers_fold.
  simpl. now rewrite app_nil_r.
Qed.

Lemma loop_fold (msgs : list (Z * SDKMessage)) : forall st rv,
  let out := fold_left (onMessage params q) msgs (st, rv) in
  rv_artifacts (snd out)
  = rv_artifacts rv ++ flat_map artifacts_in (map snd msgs)
  /\ rv_result (snd out)
     = last (flat_map results_in (map snd msgs)) (rv_result rv)
  /\ rv_errorMessage (snd out)
     = last (map Some (flat_map errors_in (map snd msgs)))
         (rv_errorMessage rv).
Proof.
  induction msgs as [|[now m] msgs IH]; intros st rv; cbv zeta.
  - simpl. now rewrite app_nil_r.
  - cbn [fold_left map flat_map snd].
    destruct (onMessage_fold now m st rv) as (A1 & A2 & A3).
    destruct (onMessage params q (st, rv) (now, m)) as [st1 rv1].
    cbn [snd] in A1, A2, A3.
    destruct (IH st1 rv1) as (H1 & H2 & H3).
    rewrite H1, H2, H3, A1, A2, A3.
    now rewrite map_app, !last_app_default, app_assoc.
Qed.

(** What a session-established message does, in full. *)
Lemma onMessage_init_explicit now sid st rv :
  onMessage params q (st, rv) (now, MsgSystemInit sid)
  = let ctx :=
      match rv_executionContext rv with
      | None => createDefaultContext (rp_agent params) sid
      | Some c =>
          if negb (truthy (rootSessionId c))
          then {| depth := depth c;
                  agentStack := agentStack c;
                  rootSessionId := sid |}
          else c
      end in
    ({| sessionStore :=
          SessionStore.save now (sessionStore st) sid
            (rp_agent params) (rp_task params) (Some q);
        executionContexts := JsMap.set (executionContexts st) sid ctx |},
     {| rv_sessionId := sid;
        rv_result := rv_result rv;
        rv_artifacts := rv_artifacts rv;
        rv_errorMessage := rv_errorMessage rv;
        rv_executionContext := Some ctx |}).
Proof.
  reflexivity.
Qed.

Lemma onMessage_other_context now m st rv :
  (forall sid, m <> MsgSystemInit sid) ->
  onMessage params q (st, rv) (now, m)
  = (st, snd (onMessage params q (st, rv) (now, m)))
  /\ rv_executionContext (snd (onMessage params q (st, rv) (now, m)))
     = rv_executionContext rv.
Proof.
  intros Hm. unfold onMessage.
  destruct (applyHandler_not_onInit params q (processMessage_not_onInit Hm)
              now st rv) as (H1 & _ & H3).
  destruct m; try (now destruct (Hm sid));
    (split; [|exact H3]);
    match goal with
    | |- ?x = _ => rewrite (surjective_pairing x) at 1; now rewrite H1
    end.
Qed.

(** Messages that establish no session leave alone what the store and the
    context table hold; an established session changes its own entries. *)
Lemma loop_frame k (msgs : list (Z * SDKMessage)) : forall st rv,
  ~ In k (established msgs) ->
  let st' := fst (fold_left (onMessage params q) msgs (st, rv)) in
  SessionStore.get (sessionStore st') k = SessionStore.get (sessionStore st) k
  /\ SessionStore.getQuery (sessionStore st') k
     = SessionStore.getQuery (sessionStore st) k
  /\ JsMap.get (executionContexts st') k = JsMap.get (executionContexts st) k.
Proof.
  induction msgs as [|[now m] msgs IH]; intros st rv Hk; cbv zeta; auto.
  cbn [fold_left].
  destruct (message_cases m) as [[sid ->]|Hm].
  - rewrite onMessage_init_explicit. cbv zeta.
    change (established ((now, MsgSystemInit sid) :: msgs))
      with (sid :: established msgs) in Hk.
    assert (Hne : sid <> k) by (intros ->; apply Hk; now left).
    assert (Hk' : ~ In k (established msgs))
      by (intros H; apply Hk; now right).
    match goal with
    | |- context [fold_left _ msgs (?st1, ?rv1)] =>
        destruct (IH st1 rv1 Hk') as (H1 & H2 & H3)
    end.
    rewrite H1, H2, H3.
    unfold SessionStore.get, SessionStore.getQuery, SessionStore.save.
    cbn [sessionStore executionContexts SessionStore.sessions
         SessionStore.activeQueries].
    now rewrite !JsMapFacts.get_set_neq.
  - rewrite (established_other now msgs Hm) in Hk.
    destruct (onMessage_other_context now st rv Hm) as (E & _).
    rewrite E. now apply IH.
Qed.

(** Once the stream has established [sid], the store holds a running
    record for it, filed for the agent of the call, with the handle of the
    execution. *)
Lemma loop_record sid (msgs : list (Z * SDKMessage)) : forall st rv,
  (exists r,
     SessionStore.get (sessionStore st) sid = Some r
     /\ agent r = rp_agent params /\ session_id r = sid
     /\ is_active r = true
     /\ SessionStore.getQuery (sessionStore st) sid = Some q)
  \/ In sid (established msgs) ->
  let st' := fst (fold_left (onMessage params q) msgs (st, rv)) in
  exists r,
    SessionStore.get (sessionStore st') sid = Some r
    /\ agent r = rp_agent params /\ session_id r = sid
    /\ is_active r = true
    /\ SessionStore.getQuery (sessionStore st') sid = Some q.
Proof.
  induction msgs as [|[now m] msgs IH]; intros st rv H; cbv zeta.
  - destruct H as [H|[]]. exact H.
  - cbn [fold_left].
    destruct (message_cases m) as [[sid' ->]|Hm].
    + rewrite onMessage_init_explicit. cbv zeta. apply IH.
      change (established ((now, MsgSystemInit sid') :: msgs))
        with (sid' :: established msgs) in H.
      unfold SessionStore.get, SessionStore.getQuery, SessionStore.save.
      cbn [sessionStore executionContexts SessionStore.sessions
           SessionStore.activeQueries].
      destruct (String.eqb sid' sid) eqn:E.
      * apply String.eqb_eq in E. subst sid'. left.
        rewrite !JsMapFacts.get_set_eq. eexists. repeat split.
      * apply String.eqb_neq in E.
        destruct H as [H|[H|H]]; [left|congruence|now right].
        now rewrite !JsMapFacts.get_set_neq.
    + rewrite (established_other now msgs Hm) in H.
      destruct (onMessage_other_context now st rv Hm) as (E & _).
      rewrite E. now apply IH.
Qed.

(** With a context whose root session is set, every session the stream
    establishes is registered under that context. *)
Lemma loop_context c sid (msgs : list (Z * SDKMessage)) : forall st rv,
  truthy (rootSessionId c) = true ->
  rv_executionContext rv = Some c ->
  JsMap.get (executionContexts st) sid = Some c
  \/ In sid (established msgs) ->
  JsMap.get
    (executionContexts (fst (fold_left (onMessage params q) msgs (st, rv))))
    sid = Some c.
Proof.
  induction msgs as [|[now m] msgs IH]; intros st rv Hroot Hc H.
  - destruct H as [H|[]]. exact H.
  - cbn [fold_left].
    destruct (message_cases m) as [[sid' ->]|Hm].
    + rewrite onMessage_init_explicit. cbv zeta. rewrite Hc, Hroot.
      cbn [negb]. apply IH; auto.
      change (established ((now, MsgSystemInit sid') :: msgs))
        with (sid' :: established msgs) in H.
      cbn [executionContexts].
      destruct (String.eqb sid' sid) eqn:E.
      * apply String.eqb_eq in E. subst sid'. left.
        apply JsMapFacts.get_set_eq.
      * apply String.eqb_neq in E.
        destruct H as [H|[H|H]]; [left|congruence|now right].
        now rewrite JsMapFacts.get_set_neq.
    + rewrite (established_other now msgs Hm) in H.
      destruct (onMessage_other_context now st rv Hm) as (E & Hctx).
      rewrite E. apply IH; auto. now rewrite Hctx.
Qed.

(** The context a run works under from the first session the stream
    establishes. *)
Lemma loop_own_context context sid0 rest sid (msgs : list (Z * SDKMessage)) :
  forall st rv,
    rv_executionContext rv = context ->
    established msgs = sid0 :: rest ->
    sid0 <> EmptyString ->
    In sid (sid0 :: rest) ->
    JsMap.get
      (executionContexts (fst (fold_left (onMessage params q) msgs (st, rv))))
      sid
    = Some match context with
           | None => createDefaultContext (rp_agent params) sid0
           | Some c =>
               if truthy (rootSessionId c) then c
               else {| depth := depth c;
                       agentStack := agentStack c;
                       rootSessionId := sid0 |}
           end.
Proof.
  induction msgs as [|[now m] msgs IH]; intros st rv Hc He Hne Hin.
  - discriminate He.
  - cbn [fold_left].
    destruct (message_cases m) as [[sid' ->]|Hm].
    + change (established ((now, MsgSystemInit sid') :: msgs))
        with (sid' :: established msgs) in He.
      injection He as -> <-.
      rewrite onMessage_init_explicit. cbv zeta. rewrite Hc.
      apply truthy_nonempty in Hne.
      apply loop_context.
      * destruct context as [c|]; simpl; auto.
        destruct (truthy (rootSessionId c)) eqn:T; simpl; auto.
      * cbn [rv_executionContext]. f_equal.
        destruct context as [c|]; auto.
        now destruct (truthy (rootSessionId c)).
      * cbn [executionContexts].
        destruct Hin as [<-|Hin]; [left|now right].
        rewrite JsMapFacts.get_set_eq. f_equal.
        destruct context as [c|]; auto.
        now destruct (truthy (rootSessionId c)).
    + rewrite (established_other now msgs Hm) in He.
      destruct (onMessage_other_context now st rv Hm) as (E & Hctx).
      rewrite E. apply IH; auto. now rewrite Hctx.
Qed.
End StreamFold.

(* ====================================================================== *)
(** * Agent execution: a run among other tasks                             *)
(* ====================================================================== *)

Section AmongOthers.
Variable params : RunAgentParams.
Variable q : Query.
Variable others : nat -> State -> State.

(** The local variables of a run do not depend on the module state. *)
Lemma applyHandler_vars now (hs : list HandlerCall) : forall s1 s2 rv,
  snd (fold_left (applyHandler params q now) hs (s1, rv))
  = snd (fold_left (applyHandler params q now) hs (s2, rv)).
Proof.
  induction hs as [|h hs IH]; intros s1 s2 rv; auto.
  cbn [fold_left]. destruct h; cbn [applyHandler]; apply IH.
Qed.

Lemma onMessage_vars s1 s2 rv tm :
  snd (onMessage params q (s1, rv) tm) = snd (onMessage params q (s2, rv) tm).
Proof.
  destruct tm as [now m]. unfold onMessage.
  destruct m; apply applyHandler_vars.
Qed.

Lemma loopAmong_vars (msgs : list (Z * SDKMessage)) : forall i st st0 rv,
  snd (loopAmong params q others i msgs (st, rv))
  = snd (fold_left (onMessage params q) msgs (st0, rv)).
Proof.
  induction msgs as [|tm msgs IH]; intros i st st0 rv; auto.
  cbn [loopAmong fold_left fst snd].
  rewrite (surjective_pairing (onMessage params q (others i st, rv) tm)).
  rewrite (surjective_pairing (onMessage params q (st0, rv) tm)).
  rewrite (onMessage_vars (others i st) st0 rv tm). apply IH.
Qed.

Lemma loopAmong_sessionId (msgs : list (Z * SDKMessage)) i st rv :
  rv_sessionId (snd (loopAmong params q others i msgs (st, rv)))
  = last (established msgs) (rv_sessionId rv).
Proof.
  rewrite (loopAmong_vars msgs i st st rv). apply loop_sessionId.
Qed.

(** While the other tasks keep the record of [sid], the store holds one
    for it from the moment the stream establishes it. *)
Lemma loopAmong_has sid (msgs : list (Z * SDKMessage)) :
  keeps_session sid others ->
  forall i st rv,
    SessionStore.has (sessionStore st) sid = true
    \/ In sid (established msgs) ->
    SessionStore.has
      (sessionStore (fst (loopAmong params q others i msgs (st, rv)))) sid
    = true.
Proof.
  intros Hkeep. induction msgs as [|[now m] msgs IH]; intros i st rv H.
  - destruct H as [H|[]]. exact H.
  - cbn [loopAmong fst snd].
    destruct (message_cases m) as [[sid' ->]|Hm].
    + rewrite onMessage_init_explicit. cbv zeta. apply IH.
      change (established ((now, MsgSystemInit sid') :: msgs))
        with (sid' :: established msgs) in H.
      cbn [sessionStore].
      unfold SessionStore.has, JsMap.has, SessionStore.save.
      cbn [SessionStore.sessions]. rewrite JsMapFacts.get_set.
      destruct (String.eqb sid' sid) eqn:E; [now left|].
      apply String.eqb_neq in E.
      destruct H as [H|[H|H]]; [left|congruence|now right].
      apply (Hkeep i) in H. exact H.
    + rewrite (established_other now msgs Hm) in H.
      destruct (onMessage_other_context params q now (others i st) rv Hm)
        as (E & _).
      rewrite E. apply IH. destruct H as [H|H]; [left|now right].
      now apply Hkeep.
Qed.

(** While the other tasks leave the record of [sid] alone, it is, from the
    moment the stream establishes it, a record filed for the agent of the
    call. *)
Lemma loopAmong_record sid (msgs : list (Z * SDKMessage)) :
  leaves_session_alone sid others ->
  forall i st rv,
    (exists r,
       SessionStore.get (sessionStore st) sid = Some r
       /\ agent r = rp_agent params /\ session_id r = sid)
    \/ In sid (established msgs) ->
    exists r,
      SessionStore.get
        (sessionStore (fst (loopAmong params q others i msgs (st, rv)))) sid
      = Some r
      /\ agent r = rp_agent params /\ session_id r = sid.
Proof.
  intros Halone. induction msgs as [|[now m] msgs IH]; intros i st rv H.
  - destruct H as [H|[]]. exact H.
  - cbn [loopAmong fst snd].
    destruct (message_cases m) as [[sid' ->]|Hm].
    + rewrite onMessage_init_explicit. cbv zeta. apply IH.
      change (established ((now, MsgSystemInit sid') :: msgs))
        with (sid' :: established msgs) in H.
      cbn [sessionStore]. unfold SessionStore.get, SessionStore.save.
      cbn [SessionStore.sessions]. rewrite JsMapFacts.get_set.
      destruct (String.eqb sid' sid) eqn:E.
      * apply String.eqb_eq in E. subst sid'. left.
        eexists. repeat split.
      * apply String.eqb_neq in E.
        destruct H as [H|[H|H]]; [left|congruence|now right].
        fold (SessionStore.get (sessionStore (others i st)) sid).
        now rewrite Halone.
    + rewrite (established_other now msgs Hm) in H.
      destruct (onMessage_other_context params q now (others i st) rv Hm)
        as (E & _).
      rewrite E. apply IH. destruct H as [H|H]; [left|now right].
      now rewrite Halone.
Qed.

(** While the other tasks leave the context registered for [sid] alone, a
    context with a root session stays registered for [sid] from the
    moment the stream establishes it. *)
Lemma loopAmong_context c sid (msgs : list (Z * SDKMessage)) :
  leaves_context_alone sid others ->
  truthy (rootSessionId c) = true ->
  forall i st rv,
    rv_executionContext rv = Some c ->
    JsMap.get (executionContexts st) sid = Some c
    \/ In sid (established msgs) ->
    JsMap.get
      (executionContexts (fst (loopAmong params q others i msgs (st, rv))))
      sid = Some c.
Proof.
  intros Halone Hroot.
  induction msgs as [|[now m] msgs IH]; intros i st rv Hc H.
  - destruct H as [H|[]]. exact H.
  - cbn [loopAmong fst snd].
    destruct (message_cases m) as [[sid' ->]|Hm].
    + rewrite onMessage_init_explicit. cbv zeta. rewrite Hc, Hroot.
      cbn [negb]. apply IH; auto.
      change (established ((now, MsgSystemInit sid') :: msgs))
        with (sid' :: established msgs) in H.
      cbn [executionContexts]. rewrite JsMapFacts.get_set.
      destruct (String.eqb sid' sid) eqn:E; [now left|].
      apply String.eqb_neq in E.
      destruct H as [H|[H|H]]; [left|congruence|now right].
      now rewrite Halone.
    + rewrite (established_other now msgs Hm) in H.
      destruct (onMessage_other_context params q now (others i st) rv Hm)
        as (E & Hctx).
      rewrite E. apply IH; [now rewrite Hctx|].
      destruct H as [H|H]; [left|now right]. now rewrite Halone.
Qed.

Lemma loopAmong_own_context context sid0 rest sid
    (msgs : list (Z * SDKMessage)) :
  leaves_context_alone sid others ->
  forall i st rv,
    rv_executionContext rv = context ->
    established msgs = sid0 :: rest ->
    sid0 <> EmptyString ->
    In sid (sid0 :: rest) ->
    JsMap.get
      (executionContexts (fst (loopAmong params q others i msgs (st, rv))))
      sid
    = Some match context with
           | None => createDefaultContext (rp_agent params) sid0
           | Some c =>
               if truthy (rootSessionId c) then c
               else {| depth := depth c;
                       agentStack := agentStack c;
                       rootSessionId := sid0 |}
           end.
Proof.
  intros Halone.
  induction msgs as [|[now m] msgs IH]; intros i st rv Hc He Hne Hin.
  - discriminate He.
  - cbn [loopAmong fst snd].
    destruct (message_cases m) as [[sid' ->]|Hm].
    + change (established ((now, MsgSystemInit sid') :: msgs))
        with (sid' :: established msgs) in He.
      injection He as -> <-.
      rewrite onMessage_init_explicit. cbv zeta. rewrite Hc.
      apply truthy_nonempty in Hne.
      apply loopAmong_context; auto.
      * destruct context as [c|]; simpl; auto.
        destruct (truthy (rootSessionId c)) eqn:T; simpl; auto.
      * cbn [rv_executionContext]. f_equal.
        destruct context as [c|]; auto.
        now destruct (truthy (rootSessionId c)).
      * cbn [executionContexts].
        destruct Hin as [<-|Hin]; [left|now right].
        rewrite JsMapFacts.get_set_eq. f_equal.
        destruct context as [c|]; auto.
        now destruct (truthy (rootSessionId c)).
    + rewrite (established_other now msgs Hm) in He.
      destruct (onMessage_other_context params q now (others i st) rv Hm)
        as (E & Hctx).
      rewrite E. apply IH; auto. now rewrite Hctx.
Qed.
End AmongOthers.

(** With no other task at work, a run among others is the run on its
    own. *)
Lemma loopAmong_alone params q (msgs : list (Z * SDKMessage)) : forall i acc,
  loopAmong params q (fun _ s => s) i msgs acc
  = fold_left (onMessage params q) msgs acc.
Proof.
  induction msgs as [|tm msgs IH]; intros i [st rv]; auto.
  cbn [loopAmong fold_left fst snd]. apply IH.
Qed.

Lemma runAgentAmong_alone env st params context :
  runAgentAmong env st params context (fun _ s => s)
  = runAgent env st params context.
Proof.
  unfold runAgentAmong, runAgent.
  destruct (AgentRegistry.getOrThrow _ _) as [cfg|]; auto.
  destruct (_ && _); auto.
  destruct (_ && _); auto.
  cbv zeta. destruct (engine env _ _) as [e|ex]; auto.
  now rewrite loopAmong_alone.
Qed.

(** Past the preconditions a run among others is one engine call, the
    message loop with the other tasks acting in between, and the
    cleanup. *)
Lemma runAgentAmong_run env st params context others cfg :
  JsMap.get (registry env) (rp_agent params) = Some cfg ->
  (forall rid,
     rp_resume params = Some rid -> rid <> EmptyString ->
     SessionStore.has (sessionStore st) rid = true
     /\ SessionStore.isActive (sessionStore st) rid = false) ->
  runAgentAmong env st params context others =
  match engine env (enhancedTaskOf params) (sdkOptions env cfg params) with
  | QueryThrows error =>
      (Return (caughtResult (initialVars context) error), st,
       [EQuery (enhancedTaskOf params) (sdkOptions env cfg params)])
  | QueryStarted ex =>
      let loop :=
        loopAmong params (ex_query ex) others 0 (ex_messages ex)
          (st, initialVars context) in
      (Return (match ex_end ex with
               | StreamThrows error => caughtResult (snd loop) error
               | StreamDone => completedResult (snd loop)
               end),
       cleanup (ex_end_time ex)
         (others (length (ex_messages ex)) (fst loop))
         (rv_sessionId (snd loop)),
       [EQuery (enhancedTaskOf params) (sdkOptions env cfg params)])
  end.
Proof.
  intros Ha Hres. unfold runAgentAmong, AgentRegistry.getOrThrow.
  rewrite Ha.
  assert (Hpre :
    truthy_opt (rp_resume params)
    && negb (SessionStore.has (sessionStore st)
               match rp_resume params with
               | Some r => r
               | None => EmptyString
               end) = false
    /\ truthy_opt (rp_resume params)
       && SessionStore.isActive (sessionStore st)
            match rp_resume params with
            | Some r => r
            | None => EmptyString
            end = false).
  { destruct (rp_resume params) as [rid|] eqn:Hr; simpl; auto.
    destruct (truthy rid) eqn:Ht; simpl; auto.
    apply truthy_nonempty in Ht.
    destruct (Hres rid eq_refl Ht) as [-> ->]. auto. }
  destruct Hpre as [-> ->].
  destruct (engine env (enhancedTaskOf params) (sdkOptions env cfg params))
    as [error|ex]; auto.
  cbv zeta.
  destruct (loopAmong params (ex_query ex) others 0 (ex_messages ex)
              (st, initialVars context)) as [st1 rv].
  now destruct (ex_end ex).
Qed.

(* ====================================================================== *)
(** * Agent execution: what a call throws, and what it returns             *)
(* ====================================================================== *)

(** [runAgent] throws in three cases only, each before the engine is
    called and with the module state untouched: the agent is not in the
    registry (AGENT_NOT_FOUND), or a non-empty resume id names no session
    (SESSION_NOT_FOUND) or a running one (SESSION_ALREADY_ACTIVE).  Every
    failure of the engine is returned as a result instead. *)
Theorem run_throws_only_precondition_errors env st params context e :
  fst (fst (runAgent env st params context)) = Throw e ->
  snd (fst (runAgent env st params context)) = st
  /\ snd (runAgent env st params context) = []
  /\ ((JsMap.get (registry env) (rp_agent params) = None
       /\ raises (@Throw AgentResult e) AGENT_NOT_FOUND)
      \/ exists rid,
           rp_resume params = Some rid /\ rid <> EmptyString
           /\ ((SessionStore.has (sessionStore st) rid = false
                /\ raises (@Throw AgentResult e) SESSION_NOT_FOUND)
               \/ (SessionStore.isActive (sessionStore st) rid = true
                   /\ raises (@Throw AgentResult e) SESSION_ALREADY_ACTIVE))).
Proof.
  unfold runAgent, AgentRegistry.getOrThrow.
  destruct (JsMap.get (registry env) (rp_agent params)) as [cfg|] eqn:Ha.
  - destruct (rp_resume params) as [rid|] eqn:Hr; cbn [truthy_opt andb].
    + destruct (truthy rid) eqn:Ht; cbn [andb].
      * apply truthy_nonempty in Ht.
        destruct (SessionStore.has (sessionStore st) rid) eqn:Hh; cbn [negb].
        -- destruct (SessionStore.isActive (sessionStore st) rid) eqn:Hact.
           ++ cbn [fst snd]. intros H. injection H as <-.
              repeat split. right. exists rid. repeat split; auto.
              right. split; [assumption | reflexivity].
           ++ cbv zeta. destruct (engine env _ _) as [err|ex];
                [discriminate|].
              destruct (fold_left _ _ _) as [st1 rv].
              destruct (ex_end ex); discriminate.
        -- cbn [fst snd]. intros H. injection H as <-.
           repeat split. right. exists rid. repeat split; auto.
           left. split; [assumption | reflexivity].
      * cbv zeta. destruct (engine env _ _) as [err|ex]; [discriminate|].
        destruct (fold_left _ _ _) as [st1 rv].
        destruct (ex_end ex); discriminate.
    + cbv zeta. destruct (engine env _ _) as [err|ex]; [discriminate|].
      destruct (fold_left _ _ _) as [st1 rv].
      destruct (ex_end ex); discriminate.
  - cbn [fst snd]. intros H. injection H as <-. repeat split.
    left. split; reflexivity.
Qed.

Lemma run_throws_only_precondition_errors_witness :
  snd (fst (runAgent (sampleEnv resumingEngine) sampleState
              {| rp_agent := "coder";
                 rp_task := "more";
                 rp_resume := Some "s7";
                 rp_fork := None |} None)) = sampleState
  /\ snd (runAgent (sampleEnv resumingEngine) sampleState
            {| rp_agent := "coder";
               rp_task := "more";
               rp_resume := Some "s7";
               rp_fork := None |} None) = [].
Proof.
  destruct (@run_throws_only_precondition_errors
              (sampleEnv resumingEngine) sampleState
              {| rp_agent := "coder";
                 rp_task := "more";
                 rp_resume := Some "s7";
                 rp_fork := None |} None
              (AgentError "Session not found: s7" SESSION_NOT_FOUND
                 (SessionDetails "s7")) eq_refl) as (H1 & H2 & _).
  split; assumption.
Defined.

(** The result of a run that reached the engine is read off the stream.
    When the stream ends: [error] is the last error reported, [success]
    says that there is none (or an empty one), [summary] is the last
    result text unless that is empty, [artifacts] are the paths of all
    Write and Edit calls in stream order, repetitions included, and
    [session_id] is the last session established (empty when there is
    none).  When the stream throws: a failure carrying the message, the
    last session established (or 'unknown'), and no artifacts. *)
Theorem result_of_a_run env st params context cfg ex :
  JsMap.get (registry env) (rp_agent params) = Some cfg ->
  (forall rid,
     rp_resume params = Some rid -> rid <> EmptyString ->
     SessionStore.has (sessionStore st) rid = true
     /\ SessionStore.isActive (sessionStore st) rid = false) ->
  engine env (enhancedTaskOf params) (sdkOptions env cfg params)
  = QueryStarted ex ->
  let msgs := map snd (ex_messages ex) in
  let arts := flat_map artifacts_in msgs in
  let ress := flat_map results_in msgs in
  let errs := flat_map errors_in msgs in
  let sid := last (established (ex_messages ex)) EmptyString in
  fst (fst (runAgent env st params context))
  = Return
      match ex_end ex with
      | StreamDone =>
          {| ar_success := negb (truthy (last errs EmptyString));
             ar_session_id := sid;
             ar_summary :=
               if truthy (last ress EmptyString) then last ress EmptyString
               else if truthy (last errs EmptyString)
                    then "Error: " ++ last errs EmptyString
                    else "No result";
             ar_artifacts :=
               match arts with
               | [] => None
               | _ :: _ => Some arts
               end;
             ar_error := last (map Some errs) None |}
      | StreamThrows error =>
          {| ar_success := false;
             ar_session_id := if truthy sid then sid else "unknown";
             ar_summary := "Agent execution failed: " ++ errMsgOf error;
             ar_artifacts := None;
             ar_error := Some (errMsgOf error) |}
      end.
Proof.
  intros Ha Hres Heng. cbv zeta.
  rewrite (@runAgent_run env st params context cfg Ha Hres), Heng.
  cbv zeta. cbn [fst].
  pose proof (loop_sessionId params (ex_query ex) (ex_messages ex) st
                (initialVars context)) as Hs.
  destruct (loop_fold params (ex_query ex) (ex_messages ex) st
              (initialVars context)) as (H1 & H2 & H3).
  cbn [initialVars rv_sessionId rv_artifacts rv_result rv_errorMessage app]
    in Hs, H1, H2, H3.
  destruct (fold_left _ _ _) as [st1 rv]. cbn [snd] in *.
  destruct (ex_end ex) as [|error].
  - unfold completedResult. rewrite Hs, H1, H2, H3.
    rewrite truthy_last_Some. f_equal. f_equal.
    + destruct (truthy (last (flat_map results_in _) _)); auto.
      destruct (truthy (last (flat_map errors_in _) _)) eqn:T; auto.
      f_equal.
      destruct (flat_map errors_in (map snd (ex_messages ex))) as [|a l];
        [discriminate T|].
      change (map Some (a :: l)) with (Some a :: map Some l).
      rewrite !last_cons. clear. revert a.
      induction l as [|b l IH]; intros a; auto.
      change (map Some (b :: l)) with (Some b :: map Some l).
      rewrite !last_cons. apply IH.
    + now destruct (flat_map artifacts_in _).
  - unfold caughtResult. now rewrite Hs.
Qed.

Lemma result_of_a_run_witness :
  fst (fst (runAgent (sampleEnv writingEngine) sampleState
              {| rp_agent := "coder";
                 rp_task := "write it";
                 rp_resume := None;
                 rp_fork := None |} None))
  = Return {| ar_success := false;
              ar_session_id := "s2";
              ar_summary := "Error: too long";
              ar_artifacts := Some ["a.ts"; "b.ts"; "a.ts"];
              ar_error := Some "too long" |}.
Proof.
  apply (@result_of_a_run (sampleEnv writingEngine) sampleState
           {| rp_agent := "coder";
              rp_task := "write it";
              rp_resume := None;
              rp_fork := None |} None (sampleConfig "coder")
           {| ex_query := {| handle_id := 3 |};
              ex_messages :=
                [(30%Z, MsgSystemInit "s2");
                 (35%Z, MsgAssistant
                          (Some [ToolUse "Write" (Some "a.ts"); OtherBlock;
                                 ToolUse "Read" (Some "c.ts");
                                 ToolUse "Edit" (Some "b.ts")]));
                 (38%Z, MsgAssistant (Some [ToolUse "Edit" (Some "a.ts")]));
                 (40%Z, MsgResultError "error_max_turns" (Some ["too long"]))];
              ex_end := StreamDone;
              ex_end_time := 50 |} eq_refl).
  - intros rid H. discriminate H.
  - reflexivity.
Defined.

(* ====================================================================== *)
(** * Agent execution: what a run leaves behind                            *)
(* ====================================================================== *)

Lemma cleanup_frame now st sid k :
  sid = EmptyString \/ sid <> k ->
  SessionStore.get (sessionStore (cleanup now st sid)) k
  = SessionStore.get (sessionStore st) k
  /\ SessionStore.getQuery (sessionStore (cleanup now st sid)) k
     = SessionStore.getQuery (sessionStore st) k
  /\ JsMap.get (executionContexts (cleanup now st sid)) k
     = JsMap.get (executionContexts st) k.
Proof.
  intros H. unfold cleanup. destruct (truthy sid) eqn:T; auto.
  apply truthy_nonempty in T. destruct H as [H|H]; [contradiction|].
  cbn [sessionStore executionContexts].
  destruct (complete_other now (sessionStore st) H) as [H1 H2].
  rewrite H1, H2. now rewrite JsMapFacts.get_delete_neq.
Qed.

Lemma sampleOthers_alone sid :
  sid <> "s9" ->
  leaves_session_alone sid sampleOthers
  /\ leaves_context_alone sid sampleOthers.
Proof.
  intros Hne. split; intros i s; unfold sampleOthers;
    (destruct (i =? 1)%nat; [|reflexivity]).
  - unfold SessionStore.get, SessionStore.save.
    cbn [sessionStore SessionStore.sessions].
    apply JsMapFacts.get_set_neq. congruence.
  - cbn [executionContexts]. apply JsMapFacts.get_set_neq. congruence.
Qed.

(** What the cleanup of a run leaves under the last session id its stream
    established, with other tasks at work during its waits. *)
Lemma runAgentAmong_closed env st params context others cfg ex sid :
  JsMap.get (registry env) (rp_agent params) = Some cfg ->
  (forall rid,
     rp_resume params = Some rid -> rid <> EmptyString ->
     SessionStore.has (sessionStore st) rid = true
     /\ SessionStore.isActive (sessionStore st) rid = false) ->
  engine env (enhancedTaskOf params) (sdkOptions env cfg params)
  = QueryStarted ex ->
  last (established (ex_messages ex)) EmptyString = sid ->
  sid <> EmptyString ->
  let st' := snd (fst (runAgentAmong env st params context others)) in
  SessionStore.isActive (sessionStore st') sid = false
  /\ SessionStore.getQuery (sessionStore st') sid = None
  /\ JsMap.get (executionContexts st') sid = None
  /\ (forall r,
        SessionStore.get (sessionStore st') sid = Some r ->
        is_active r = false /\ last_active r = ex_end_time ex)
  /\ (keeps_session sid others ->
      SessionStore.has (sessionStore st') sid = true)
  /\ (leaves_session_alone sid others ->
      exists r,
        SessionStore.get (sessionStore st') sid = Some r
        /\ session_id r = sid
        /\ agent r = rp_agent params
        /\ is_active r = false
        /\ last_active r = ex_end_time ex).
Proof.
  intros Ha Hres Heng Hlast Hne. cbv zeta.
  rewrite (@runAgentAmong_run env st params context others cfg Ha Hres), Heng.
  cbv zeta. cbn [fst snd].
  rewrite loopAmong_sessionId. cbn [initialVars rv_sessionId].
  rewrite Hlast.
  assert (Hin : In sid (established (ex_messages ex))).
  { destruct (last_default_or_In (established (ex_messages ex)) EmptyString)
      as [E|H].
    - rewrite E in Hlast. simpl in Hlast. congruence.
    - now rewrite Hlast in H. }
  unfold cleanup. rewrite (proj2 (truthy_nonempty sid) Hne).
  cbn [sessionStore executionContexts].
  split; [apply complete_isActive|]. split; [apply complete_getQuery|].
  split; [apply JsMapFacts.get_delete_eq|]. split; [|split].
  - intros r Hr. now apply complete_record in Hr.
  - intros Hkeep. rewrite complete_has. apply Hkeep.
    apply loopAmong_has; auto.
  - intros Halone.
    destruct (@loopAmong_record params (ex_query ex) others sid
                (ex_messages ex) Halone 0 st (initialVars context)
                (or_intror Hin)) as (r & Hr & Hagent & Hid).
    rewrite <- (Halone (length (ex_messages ex))) in Hr.
    exists {| session_id := session_id r;
              agent := agent r;
              initial_task := initial_task r;
              created_at := created_at r;
              last_active := ex_end_time ex;
              is_active := false |}.
    split; [|cbn; auto].
    unfold SessionStore.get, SessionStore.complete in *.
    cbn [SessionStore.sessions]. rewrite Hr.
    apply JsMapFacts.get_set_eq.
Qed.

(** Whichever way the stream ends and whatever the other tasks do during
    the waits of the run, the cleanup closes the last session the stream
    established: under that id no session is active, no handle and no
    execution context stay registered, and a record there is inactive
    with [last_active] at the time of the cleanup; a later call resuming
    the id is never refused as already active.  While the other tasks
    keep the record of that session, the ledger still holds one and the
    later call is refused for an unknown agent only; while they leave it
    alone, it is the record filed for the agent of the call. *)
Theorem run_closes_its_session env st params context others cfg ex sid :
  JsMap.get (registry env) (rp_agent params) = Some cfg ->
  (forall rid,
     rp_resume params = Some rid -> rid <> EmptyString ->
     SessionStore.has (sessionStore st) rid = true
     /\ SessionStore.isActive (sessionStore st) rid = false) ->
  engine env (enhancedTaskOf params) (sdkOptions env cfg params)
  = QueryStarted ex ->
  last (established (ex_messages ex)) EmptyString = sid ->
  sid <> EmptyString ->
  let st' := snd (fst (runAgentAmong env st params context others)) in
  SessionStore.isActive (sessionStore st') sid = false
  /\ SessionStore.getQuery (sessionStore st') sid = None
  /\ JsMap.get (executionContexts st') sid = None
  /\ (forall r,
        SessionStore.get (sessionStore st') sid = Some r ->
        is_active r = false /\ last_active r = ex_end_time ex)
  /\ (keeps_session sid others ->
      SessionStore.has (sessionStore st') sid = true)
  /\ (leaves_session_alone sid others ->
      exists r,
        SessionStore.get (sessionStore st') sid = Some r
        /\ session_id r = sid
        /\ agent r = rp_agent params
        /\ is_active r = false
        /\ last_active r = ex_end_time ex)
  /\ (forall env' params' context' e,
        rp_resume params' = Some sid ->
        fst (fst (runAgent env' st' params' context')) = Throw e ->
        ~ raises (@Throw AgentResult e) SESSION_ALREADY_ACTIVE
        /\ (keeps_session sid others ->
            JsMap.get (registry env') (rp_agent params') = None)).
Proof.
  intros Ha Hres Heng Hlast Hne. cbv zeta.
  destruct (@runAgentAmong_closed env st params context others cfg ex sid
              Ha Hres Heng Hlast Hne) as (Hact & Hq & Hctx & Hrec & Hk & Hal).
  split; [exact Hact|]. split; [exact Hq|]. split; [exact Hctx|].
  split; [exact Hrec|]. split; [exact Hk|]. split; [exact Hal|].
  revert Hact Hk.
  generalize (snd (fst (runAgentAmong env st params context others))).
  intros st' Hact Hk env' params' context' e Hresume.
  unfold runAgent, AgentRegistry.getOrThrow.
  destruct (JsMap.get (registry env') (rp_agent params')) as [cfg'|].
  - rewrite Hresume. cbn [truthy_opt].
    rewrite (proj2 (truthy_nonempty sid) Hne). cbn [andb].
    destruct (SessionStore.has (sessionStore st') sid) eqn:Hhas; cbn [negb].
    + rewrite Hact. cbv zeta.
      destruct (engine env' _ _) as [err|ex']; [discriminate|].
      destruct (fold_left _ _ _) as [st2 rv2].
      destruct (ex_end ex'); discriminate.
    + cbn [fst]. intros H. injection H as <-. split.
      * simpl. discriminate.
      * intros Hkeep. specialize (Hk Hkeep). congruence.
  - cbn [fst]. intros H. injection H as <-. split; [|reflexivity].
    simpl. discriminate.
Qed.

(** A run whose stream throws, while another task saves a session of its
    own during the second wait. *)
Lemma run_closes_its_session_witness :
  let st' :=
    snd (fst (runAgentAmong (sampleEnv crashingEngine) sampleState
                {| rp_agent := "coder";
                   rp_task := "write it";
                   rp_resume := None;
                   rp_fork := None |} None sampleOthers)) in
  SessionStore.isActive (sessionStore st') "s2" = false
  /\ SessionStore.getQuery (sessionStore st') "s2" = None
  /\ JsMap.get (executionContexts st') "s2" = None
  /\ (exists r,
        SessionStore.get (sessionStore st') "s2" = Some r
        /\ session_id r = "s2"
        /\ agent r = "coder"
        /\ is_active r = false
        /\ last_active r = 50%Z)
  /\ SessionStore.isActive (sessionStore st') "s9" = true.
Proof.
  cbv zeta.
  destruct (@run_closes_its_session (sampleEnv crashingEngine) sampleState
              {| rp_agent := "coder";
                 rp_task := "write it";
                 rp_resume := None;
                 rp_fork := None |} None sampleOthers (sampleConfig "coder")
              {| ex_query := {| handle_id := 4 |};
                 ex_messages :=
                   [(30%Z, MsgSystemInit "s2");
                    (35%Z,
                     MsgAssistant (Some [ToolUse "Write" (Some "a.ts")]))];
                 ex_end := StreamThrows (Error "connection lost");
                 ex_end_time := 50 |} "s2" eq_refl)
    as (H1 & H2 & H3 & _ & _ & H6 & _).
  - intros rid H. discriminate H.
  - reflexivity.
  - reflexivity.
  - discriminate.
  - split; [exact H1|]. split; [exact H2|]. split; [exact H3|].
    split; [|reflexivity].
    apply H6. apply sampleOthers_alone. discriminate.
Defined.

(** A run writes only under the session ids its stream establishes. *)
Lemma runAgent_frame env st params context k :
  (forall cfg ex,
     JsMap.get (registry env) (rp_agent params) = Some cfg ->
     engine env (enhancedTaskOf params) (sdkOptions env cfg params)
     = QueryStarted ex ->
     ~ In k (established (ex_messages ex))) ->
  let st' := snd (fst (runAgent env st params context)) in
  SessionStore.get (sessionStore st') k = SessionStore.get (sessionStore st) k
  /\ SessionStore.getQuery (sessionStore st') k
     = SessionStore.getQuery (sessionStore st) k
  /\ JsMap.get (executionContexts st') k = JsMap.get (executionContexts st) k.
Proof.
  intros Hk. cbv zeta. unfold runAgent, AgentRegistry.getOrThrow.
  destruct (JsMap.get (registry env) (rp_agent params)) as [cfg|] eqn:Ha;
    auto.
  destruct (_ && _); auto.
  destruct (_ && _); auto.
  cbv zeta.
  destruct (engine env (enhancedTaskOf params) (sdkOptions env cfg params))
    as [e|ex] eqn:Eng; auto.
  specialize (Hk _ _ eq_refl Eng).
  pose proof (loop_sessionId params (ex_query ex) (ex_messages ex) st
                (initialVars context)) as Hs.
  cbn [initialVars rv_sessionId] in Hs.
  destruct (@loop_frame params (ex_query ex) k (ex_messages ex) st
              (initialVars context) Hk) as (H1 & H2 & H3).
  destruct (fold_left _ _ _) as [st1 rv]. cbn [fst snd] in *.
  assert (Hsid : rv_sessionId rv = EmptyString \/ rv_sessionId rv <> k).
  { rewrite Hs.
    destruct (last_default_or_In (established (ex_messages ex)) EmptyString)
      as [E|H].
    - left. now rewrite E.
    - right. intros E. apply Hk. now rewrite <- E. }
  destruct (cleanup_frame (ex_end_time ex) st1 Hsid) as (C1 & C2 & C3).
  destruct (ex_end ex); cbn [fst snd]; rewrite C1, C2, C3; auto.
Qed.



(* ====================================================================== *)
(** * Resuming a session                                                   *)
(* ====================================================================== *)

(** C6 (amended).  [runAgent] looks the agent up first: an unknown agent
    raises AGENT_NOT_FOUND whatever the resume id.  For a call whose agent
    resolves and whose resume id is not the empty string: an id absent from
    the store raises SESSION_NOT_FOUND, an id of an active session raises
    SESSION_ALREADY_ACTIVE, both without any engine call and with the state
    untouched.  For an id of an inactive session the run proceeds with one
    engine call that resumes the id; the record keeps its [initial_task]
    and [created_at]; when the last session the stream establishes is the
    resumed one, the record ends inactive with [last_active] set to the
    time the run ended; and when the engine fails before it establishes a
    session, or its stream never establishes the resumed id, the record
    is left exactly as it was, [last_active] included.  An empty resume id
    is treated as none: the run proceeds as a fresh one. *)
Theorem C6_resume_checks_then_run :
  (forall env st params context,
     JsMap.get (registry env) (rp_agent params) = None ->
     let out := runAgent env st params context in
     raises (fst (fst out)) AGENT_NOT_FOUND
     /\ engine_calls (snd out) = []
     /\ snd (fst out) = st)
  /\ (forall env st params context cfg rid,
        JsMap.get (registry env) (rp_agent params) = Some cfg ->
        rp_resume params = Some rid ->
        rid <> EmptyString ->
        let out := runAgent env st params context in
        (SessionStore.has (sessionStore st) rid = false ->
         raises (fst (fst out)) SESSION_NOT_FOUND
         /\ engine_calls (snd out) = []
         /\ snd (fst out) = st)
        /\ (SessionStore.has (sessionStore st) rid = true ->
            SessionStore.isActive (sessionStore st) rid = true ->
            raises (fst (fst out)) SESSION_ALREADY_ACTIVE
            /\ engine_calls (snd out) = []
            /\ snd (fst out) = st)
        /\ (forall r,
              SessionStore.get (sessionStore st) rid = Some r ->
              is_active r = false ->
              (exists result, fst (fst out) = Return result)
              /\ engine_calls (snd out)
                 = [(enhancedTaskOf params, sdkOptions env cfg params)]
              /\ opt_resume (sdkOptions env cfg params) = Some rid
              /\ exists r',
                   SessionStore.get (sessionStore (snd (fst out))) rid
                   = Some r'
                   /\ initial_task r' = initial_task r
                   /\ created_at r' = created_at r
                   /\ (forall ex,
                         engine env (enhancedTaskOf params)
                           (sdkOptions env cfg params) = QueryStarted ex ->
                         last (established (ex_messages ex)) EmptyString
                         = rid ->
                         last_active r' = ex_end_time ex
                         /\ is_active r' = false)
                   /\ (forall e,
                         engine env (enhancedTaskOf params)
                           (sdkOptions env cfg params) = QueryThrows e ->
                         r' = r)
                   /\ (forall ex,
                         engine env (enhancedTaskOf params)
                           (sdkOptions env cfg params) = QueryStarted ex ->
                         ~ In rid (established (ex_messages ex)) ->
                         r' = r)))
  /\ (forall env st params context cfg,
        JsMap.get (registry env) (rp_agent params) = Some cfg ->
        truthy_opt (rp_resume params) = false ->
        let out := runAgent env st params context in
        (exists result, fst (fst out) = Return result)
        /\ engine_calls (snd out)
           = [(enhancedTaskOf params, sdkOptions env cfg params)]
        /\ opt_resume (sdkOptions env cfg params) = None).
Proof.
  split; [|split].
  - intros env st params context Ha. cbv zeta.
    destruct (runAgent_agent_not_found env st params context Ha)
      as (H1 & H2 & H3).
    rewrite H3. auto.
  - intros env st params context cfg rid Ha Hr Hne. cbv zeta.
    split; [|split].
    + intros Hhas.
      rewrite (runAgent_session_not_found env st params context Ha Hr Hne
                 Hhas).
      simpl. auto.
    + intros Hhas Hact.
      rewrite (runAgent_session_active env st params context Ha Hr Hne
                 Hhas Hact).
      simpl. auto.
    + intros r Hget Hinactive.
      destruct (runAgent_keeps_origin env st params context rid Hget)
        as (r' & Hget' & Htask & Hcreated).
      assert (Hsame :
        (forall ex,
           engine env (enhancedTaskOf params) (sdkOptions env cfg params)
           = QueryStarted ex ->
           ~ In rid (established (ex_messages ex))) ->
        r' = r).
      { intros Hnot.
        destruct (@runAgent_frame env st params context rid) as (F & _).
        - intros cfg' ex Ha' Hex.
          assert (cfg' = cfg) by congruence. subst cfg'. now apply Hnot.
        - rewrite F in Hget'. congruence. }
      assert (Hrun : runAgent env st params context = _)
        by (apply (@runAgent_run env st params context cfg Ha);
            intros rid' Hr' _; assert (rid' = rid) by congruence; subst rid';
            unfold SessionStore.has, JsMap.has, SessionStore.isActive;
            unfold SessionStore.get in Hget; now rewrite Hget).
      rewrite Hrun in *. clear Hrun.
      assert (Hopt : opt_resume (sdkOptions env cfg params) = Some rid).
      { unfold sdkOptions. simpl. rewrite Hr. simpl.
        apply truthy_nonempty in Hne. now rewrite Hne. }
      destruct (engine env (enhancedTaskOf params)
                  (sdkOptions env cfg params)) as [e|ex] eqn:Eng.
      * simpl in *. split; [eauto|]. split; [reflexivity|].
        split; [exact Hopt|]. exists r'.
        split; [exact Hget'|]. split; [exact Htask|].
        split; [exact Hcreated|]. split; [intros ex Hex; discriminate|].
        split; [intros e' _|intros ex Hex; discriminate Hex].
        apply Hsame. intros ex Hex. discriminate Hex.
      * cbv zeta in *. cbn [fst snd] in *. split; [eauto|].
        split; [reflexivity|]. split; [exact Hopt|]. exists r'.
        split; [exact Hget'|]. split; [exact Htask|].
        split; [exact Hcreated|]. split; [|split].
        -- intros ex' Hex Hlast. injection Hex as <-.
           rewrite (loop_sessionId params (ex_query ex) (ex_messages ex)
                      st (initialVars context)) in Hget'.
           simpl in Hget'. rewrite Hlast in Hget'. unfold cleanup in Hget'.
           apply truthy_nonempty in Hne. rewrite Hne in Hget'.
           simpl in Hget'. apply complete_record in Hget'. tauto.
        -- intros e Hex. discriminate Hex.
        -- intros ex' Hex Hnot. injection Hex as <-.
           apply Hsame. intros ex' Hex'. now injection Hex' as <-.
  - intros env st params context cfg Ha Hfalsy. cbv zeta.
    assert (Hrun : runAgent env st params context = _)
      by (apply (@runAgent_run env st params context cfg Ha);
          intros rid Hr Hne; apply truthy_nonempty in Hne;
          rewrite Hr in Hfalsy; simpl in Hfalsy; congruence).
    rewrite Hrun. clear Hrun.
    assert (Hopt : opt_resume (sdkOptions env cfg params) = None).
    { unfold sdkOptions. simpl. now rewrite Hfalsy. }
    destruct (engine env (enhancedTaskOf params) (sdkOptions env cfg params));
      cbv zeta; cbn [fst snd]; eauto.
Qed.

(** Resuming the finished session "s1": the record keeps its first task and
    creation time and is touched at the end of the run. *)
Lemma C6_resume_witness :
  let params := {| rp_agent := "coder";
                   rp_task := "follow-up";
                   rp_resume := Some "s1";
                   rp_fork := None |} in
  let out := runAgent (sampleEnv resumingEngine) sampleState params None in
  exists r',
    SessionStore.get (sessionStore (snd (fst out))) "s1" = Some r'
    /\ initial_task r' = "first task"
    /\ created_at r' = 10%Z
    /\ last_active r' = 50%Z
    /\ is_active r' = false.
Proof.
  cbv zeta.
  destruct (proj1 (proj2 C6_resume_checks_then_run)
              (sampleEnv resumingEngine) sampleState
              {| rp_agent := "coder";
                 rp_task := "follow-up";
                 rp_resume := Some "s1";
                 rp_fork := None |}
              None (sampleConfig "coder") "s1" eq_refl eq_refl
              ltac:(discriminate))
    as (_ & _ & H).
  destruct (H {| session_id := "s1";
                 agent := "coder";
                 initial_task := "first task";
                 created_at := 10;
                 last_active := 20;
                 is_active := false |} eq_refl eq_refl)
    as (_ & _ & _ & r' & Hget & Htask & Hcreated & Hlast & _).
  exists r'. destruct (Hlast _ eq_refl eq_refl) as [Hl Hi].
  repeat split; assumption.
Defined.

(** Three calls the specification's sentence gets wrong: an unknown agent is
    reported before the unknown session; an empty resume id is not looked
    up at all; and a resumed run whose engine fails before it establishes
    the session leaves [last_active] as it was. *)
Lemma C6_resume_counterexample :
  let ghost := {| rp_agent := "ghost";
                  rp_task := "task";
                  rp_resume := Some "no-such-session";
                  rp_fork := None |} in
  let blank := {| rp_agent := "coder";
                  rp_task := "task";
                  rp_resume := Some EmptyString;
                  rp_fork := None |} in
  let again := {| rp_agent := "coder";
                  rp_task := "follow-up";
                  rp_resume := Some "s1";
                  rp_fork := None |} in
  (SessionStore.has (sessionStore sampleState) "no-such-session" = false
   /\ raises (fst (fst (runAgent (sampleEnv failingEngine) sampleState
                          ghost None)))
        AGENT_NOT_FOUND
   /\ ~ raises (fst (fst (runAgent (sampleEnv failingEngine) sampleState
                            ghost None)))
          SESSION_NOT_FOUND)
  /\ (SessionStore.has (sessionStore sampleState) EmptyString = false
      /\ length (engine_calls
                   (snd (runAgent (sampleEnv failingEngine) sampleState
                           blank None))) = 1
      /\ ~ raises (fst (fst (runAgent (sampleEnv failingEngine) sampleState
                               blank None)))
             SESSION_NOT_FOUND)
  /\ (SessionStore.get (sessionStore sampleState) "s1"
      = Some {| session_id := "s1";
                agent := "coder";
                initial_task := "first task";
                created_at := 10;
                last_active := 20;
                is_active := false |}
      /\ length (engine_calls
                   (snd (runAgent (sampleEnv failingEngine) sampleState
                           again None))) = 1
      /\ SessionStore.get
           (sessionStore
              (snd (fst (runAgent (sampleEnv failingEngine) sampleState
                           again None)))) "s1"
         = SessionStore.get (sessionStore sampleState) "s1").
Proof.
  cbv zeta. repeat split; vm_compute; congruence.
Qed.

(* ====================================================================== *)
(** * Delegation from a running agent                                      *)
(* ====================================================================== *)

(** While an agent runs, and as long as the other tasks at work during
    its waits leave alone the context registered for a session id its
    stream has established, that context is the context of the call: the
    context passed to the call, or for a root call a fresh root for the
    first session established (which also becomes the root session of a
    passed context that has none).  A delegation requested under the
    session id during the next wait is checked against that context, so
    depth and chain keep growing along nested delegations. *)
Theorem running_agent_delegates_from_its_context
    env st params q others msgs context sid0 rest sid dparams :
  established msgs = sid0 :: rest ->
  sid0 <> EmptyString ->
  In sid (sid0 :: rest) ->
  leaves_context_alone sid others ->
  let inflight :=
    others (length msgs)
      (fst (loopAmong params q others 0 msgs (st, initialVars context))) in
  let own :=
    match context with
    | None => createDefaultContext (rp_agent params) sid0
    | Some c =>
        if truthy (rootSessionId c) then c
        else {| depth := depth c;
                agentStack := agentStack c;
                rootSessionId := sid0 |}
    end in
  JsMap.get (executionContexts inflight) sid = Some own
  /\ handleDelegation env inflight dparams sid
     = handleDelegationWithContext env inflight dparams own
  /\ dr_context (fst (fst (handleDelegation env inflight dparams sid)))
     = {| snap_depth := depth own + 1;
          snap_chain := agentStack own ++ [dp_agent dparams] |}.
Proof.
  intros He Hne Hin Halone. cbv zeta.
  pose proof (@loopAmong_own_context params q others context sid0 rest sid
                msgs Halone 0 st (initialVars context) eq_refl He Hne Hin)
    as Hctx.
  rewrite <- (Halone (length msgs)) in Hctx.
  split; [exact Hctx|].
  unfold handleDelegation. rewrite Hctx. split; [reflexivity|].
  unfold handleDelegationWithContext.
  match goal with
  | |- context [createChildContext ?p ?t] =>
      destruct (createChildContext p t) as [child|e] eqn:E
  end.
  - apply createChildContext_Return in E. destruct E as (Ed & Es & _).
    destruct (runAgent _ _ _ _) as [[[result|e] st1] effects];
      cbn [fst dr_context]; [now rewrite Ed, Es | reflexivity].
  - reflexivity.
Qed.

(** A delegated run of "coder" at depth 1 has established "s2"; another
    task then saves a session of its own; "coder" asks to delegate back to
    "planner". *)
Lemma running_agent_delegates_from_its_context_witness :
  let inflight :=
    sampleOthers 1
      (fst (loopAmong
              {| rp_agent := "coder";
                 rp_task := "write it";
                 rp_resume := None;
                 rp_fork := None |} {| handle_id := 5 |} sampleOthers 0
              [(30%Z, MsgSystemInit "s2")]
              (sampleState,
               initialVars (Some {| depth := 1;
                                    agentStack := ["planner"; "coder"];
                                    rootSessionId := "s0" |})))) in
  JsMap.get (executionContexts inflight) "s2"
  = Some {| depth := 1;
            agentStack := ["planner"; "coder"];
            rootSessionId := "s0" |}
  /\ dr_context
       (fst (fst (handleDelegation (sampleEnv failingEngine) inflight
                    {| dp_agent := "planner";
                       dp_task := "help";
                       dp_context_data := None;
                       dp_wait_for_result := None |} "s2")))
     = {| snap_depth := 2;
          snap_chain := ["planner"; "coder"; "planner"] |}.
Proof.
  cbv zeta.
  destruct (@running_agent_delegates_from_its_context
              (sampleEnv failingEngine) sampleState
              {| rp_agent := "coder";
                 rp_task := "write it";
                 rp_resume := None;
                 rp_fork := None |} {| handle_id := 5 |} sampleOthers
              [(30%Z, MsgSystemInit "s2")]
              (Some {| depth := 1;
                       agentStack := ["planner"; "coder"];
                       rootSessionId := "s0" |})
              "s2" [] "s2"
              {| dp_agent := "planner";
                 dp_task := "help";
                 dp_context_data := None;
                 dp_wait_for_result := None |} eq_refl)
    as (H1 & _ & H3).
  - discriminate.
  - now left.
  - apply sampleOthers_alone. discriminate.
  - split; [exact H1 | exact H3].
Defined.

(* ====================================================================== *)
(** * Agent registry: what loading leaves in the table                     *)
(* ====================================================================== *)

Lemma find_app (A : Type) (p : A -> bool) (l1 l2 : list A) :
  find p (l1 ++ l2)
  = match find p l1 with
    | Some x => Some x
    | None => find p l2
    end.
Proof.
  induction l1 as [|x l1 IH]; simpl; auto. now destruct (p x).
Qed.

Lemma latest_app n (a b : list AgentConfig) :
  latest n (a ++ b)
  = match latest n b with
    | Some c => Some c
    | None => latest n a
    end.
Proof.
  unfold latest. now rewrite rev_app_distr, find_app.
Qed.

Lemma latest_name n configs c : latest n configs = Some c -> name c = n.
Proof.
  unfold latest. intros H. apply find_some in H.
  now apply String.eqb_eq.
Qed.

Lemma get_fold_set (configs : list AgentConfig) : forall table n,
  JsMap.get (fold_left (fun t c => JsMap.set t (name c) c) configs table) n
  = match latest n configs with
    | Some c => Some c
    | None => JsMap.get table n
    end.
Proof.
  induction configs as [|c configs IH]; intros table n; auto.
  cbn [fold_left]. rewrite IH.
  change (c :: configs) with ([c] ++ configs). rewrite latest_app.
  destruct (latest n configs); auto.
  unfold latest. simpl. rewrite JsMapFacts.get_set.
  now destruct (String.eqb (name c) n).
Qed.

Lemma loadFile_fold (files : list DirFile) : forall table log,
  fold_left loadFile files (table, log)
  = (fold_left (fun t c => JsMap.set t (name c) c)
       (flat_map
          (fun f => match file_load f with Return c => [c] | Throw _ => [] end)
          files)
       table,
     log
     ++ map (fun fe =>
               ELog ("[AgentRegistry] Failed to load " ++ fst fe ++ ": "
                     ++ messageOf (snd fe)))
          (flat_map
             (fun f =>
                match file_load f with
                | Return _ => []
                | Throw e => [(file_name f, e)]
                end)
             files)).
Proof.
  induction files as [|f files IH]; intros table log; simpl.
  - now rewrite app_nil_r.
  - destruct (file_load f) as [c|e]; simpl; rewrite IH; auto.
    now rewrite <- app_assoc.
Qed.

Lemma loadDir_eq fs table dir :
  loadDir fs table dir
  = match read_error fs dir with
    | Some e => (Throw e, table, [])
    | None =>
        (Return tt,
         fold_left (fun t c => JsMap.set t (name c) c)
           (definitions_in fs dir) table,
         map (fun fe =>
                ELog ("[AgentRegistry] Failed to load " ++ fst fe ++ ": "
                      ++ messageOf (snd fe)))
           (broken_files fs dir))
    end.
Proof.
  unfold loadDir, read_error, definitions_in, broken_files, markdown_files.
  destruct (dir_stat (fs dir)); auto.
  destruct (dir_list (fs dir)) as [files|e]; auto.
  now rewrite loadFile_fold.
Qed.

Lemma loadDirs_readable fs (dirs : list string) : forall table,
  forallb (readable fs) dirs = true ->
  loadDirs fs table dirs
  = (Return tt,
     fold_left (fun t c => JsMap.set t (name c) c)
       (flat_map (definitions_in fs) dirs) table,
     flat_map
       (fun d =>
          map (fun fe =>
                 ELog ("[AgentRegistry] Failed to load " ++ fst fe ++ ": "
                       ++ messageOf (snd fe)))
            (broken_files fs d))
       dirs).
Proof.
  induction dirs as [|d dirs IH]; intros table H; auto.
  simpl in H. apply andb_prop in H. destruct H as [Hd Hrest].
  cbn [loadDirs flat_map]. rewrite loadDir_eq.
  unfold readable in Hd. destruct (read_error fs d); [discriminate|].
  rewrite (IH _ Hrest). now rewrite fold_left_app.
Qed.

Lemma loadDirs_unreadable fs (pre : list string) d post e : forall table,
  forallb (readable fs) pre = true ->
  read_error fs d = Some e ->
  exists log,
    loadDirs fs table (pre ++ d :: post)
    = (Throw e,
       fold_left (fun t c => JsMap.set t (name c) c)
         (flat_map (definitions_in fs) pre) table,
       log).
Proof.
  induction pre as [|p pre IH]; intros table H He.
  - cbn [app loadDirs]. rewrite loadDir_eq, He. eauto.
  - simpl in H. apply andb_prop in H. destruct H as [Hp Hrest].
    cbn [app loadDirs flat_map]. rewrite loadDir_eq.
    unfold readable in Hp. destruct (read_error fs p); [discriminate|].
    destruct (IH (fold_left (fun t c => JsMap.set t (name c) c)
                    (definitions_in fs p) table) Hrest He) as (log & ->).
    rewrite fold_left_app. eauto.
Qed.

(** Loading directories that can all be read succeeds and replaces the
    table: afterwards a name resolves to the last definition of that name
    in the markdown files that load, taken in directory order and listing
    order, whatever the registry held before; the registry is marked
    loaded and remembers the directories; and one line is logged for each
    markdown file that fails to load, which is otherwise skipped. *)
Theorem loading_keeps_the_latest_definition fs reg dirs :
  forallb (readable fs) dirs = true ->
  let out := loadFromMultiple fs reg dirs in
  fst (fst out) = Return tt
  /\ loaded (snd (fst out)) = true
  /\ agentsDirs (snd (fst out)) = dirs
  /\ (forall n,
        JsMap.get (agents (snd (fst out))) n
        = latest n (flat_map (definitions_in fs) dirs))
  /\ snd out
     = flat_map
         (fun d =>
            map (fun fe =>
                   ELog ("[AgentRegistry] Failed to load " ++ fst fe ++ ": "
                         ++ messageOf (snd fe)))
              (broken_files fs d))
         dirs.
Proof.
  intros H. cbv zeta. unfold loadFromMultiple.
  rewrite (loadDirs_readable fs dirs JsMap.empty H). cbn [fst snd].
  repeat split. intros n. cbn [agents]. rewrite get_fold_set.
  now destruct (latest n _).
Qed.

Lemma loading_keeps_the_latest_definition_witness :
  let out :=
    loadFromMultiple sampleFs
      {| agents := sampleRegistry; agentsDirs := []; loaded := false |}
      ["/proj/.claude/agents"; "/missing"] in
  fst (fst out) = Return tt
  /\ JsMap.get (agents (snd (fst out))) "unknown" = None
  /\ snd out
     = [ELog "[AgentRegistry] Failed to load broken.md: Missing frontmatter"].
Proof.
  cbv zeta.
  destruct (@loading_keeps_the_latest_definition sampleFs
              {| agents := sampleRegistry; agentsDirs := []; loaded := false |}
              ["/proj/.claude/agents"; "/missing"] eq_refl)
    as (H1 & _ & _ & H4 & H5).
  split; [exact H1|]. split; [exact (H4 "unknown") | exact H5].
Defined.

(** When a directory cannot be read (its [stat] fails with something other
    than a missing entry, or its listing fails), loading throws that
    error: the registry is left holding only what the directories before
    it defined, the agents it held before the call are gone, and the
    loaded mark is as it was. *)
Theorem failed_load_keeps_only_what_was_read fs reg pre d post e :
  forallb (readable fs) pre = true ->
  read_error fs d = Some e ->
  let out := loadFromMultiple fs reg (pre ++ d :: post) in
  fst (fst out) = Throw e
  /\ loaded (snd (fst out)) = loaded reg
  /\ agentsDirs (snd (fst out)) = pre ++ d :: post
  /\ (forall n,
        JsMap.get (agents (snd (fst out))) n
        = latest n (flat_map (definitions_in fs) pre)).
Proof.
  intros H He. cbv zeta. unfold loadFromMultiple.
  destruct (@loadDirs_unreadable fs pre d post e JsMap.empty H He)
    as (log & ->).
  cbn [fst snd]. repeat split. intros n. cbn [agents].
  rewrite get_fold_set. now destruct (latest n _).
Qed.

Lemma failed_load_keeps_only_what_was_read_witness :
  let fs := fun dir =>
    if String.eqb dir "/locked"
    then {| dir_stat := StatFails (Error "EACCES"); dir_list := Return [] |}
    else sampleFs dir in
  let out :=
    loadFromMultiple fs
      {| agents := sampleRegistry; agentsDirs := []; loaded := true |}
      ["/locked"; "/home/.claude/agents"] in
  fst (fst out) = Throw (Error "EACCES")
  /\ JsMap.get (agents (snd (fst out))) "coder" = None.
Proof.
  cbv zeta.
  destruct (@failed_load_keeps_only_what_was_read
              (fun dir =>
                 if String.eqb dir "/locked"
                 then {| dir_stat := StatFails (Error "EACCES");
                         dir_list := Return [] |}
                 else sampleFs dir)
              {| agents := sampleRegistry; agentsDirs := []; loaded := true |}
              [] "/locked" ["/home/.claude/agents"] (Error "EACCES")
              eq_refl eq_refl)
    as (H1 & _ & _ & H4).
  split; [exact H1 | exact (H4 "coder")].
Defined.

(** The server loads the project directory first and the user directory
    second, so for a name defined in both the user-level definition is the
    one registered; a project-level definition is used only for a name
    the user directory does not define. *)
Theorem user_level_definition_is_registered fs reg cwdDir userDir :
  readable fs cwdDir = true ->
  readable fs userDir = true ->
  forall n,
    JsMap.get (agents (snd (fst (loadServerAgents fs reg cwdDir userDir)))) n
    = match latest n (definitions_in fs userDir) with
      | Some c => Some c
      | None => latest n (definitions_in fs cwdDir)
      end.
Proof.
  intros Hc Hu n. unfold loadServerAgents, loadFromMultiple.
  rewrite (loadDirs_readable fs [cwdDir; userDir] JsMap.empty)
    by (simpl; now rewrite Hc, Hu).
  cbn [fst snd agents flat_map]. rewrite app_nil_r, get_fold_set.
  rewrite latest_app.
  destruct (latest n (definitions_in fs userDir)); auto.
  now destruct (latest n (definitions_in fs cwdDir)).
Qed.

Lemma user_level_definition_is_registered_witness :
  JsMap.get
    (agents (snd (fst (loadServerAgents sampleFs freshRegistry
                         "/proj/.claude/agents" "/home/.claude/agents"))))
    "coder"
  = Some {| name := "coder";
            description := "user coder";
            systemPrompt := "user prompt";
            model := None |}.
Proof.
  apply (@user_level_definition_is_registered sampleFs freshRegistry
           "/proj/.claude/agents" "/home/.claude/agents" eq_refl eq_refl
           "coder").
Defined.

(** [reload] reads again the directories of the last load, also of one
    that failed, and the table then reflects the file system as it is
    at the reload only. *)
Theorem reload_reads_the_same_directories fs fs' reg dirs :
  forallb (readable fs') dirs = true ->
  let reg1 := snd (fst (loadFromMultiple fs reg dirs)) in
  let out := reload fs' reg1 in
  fst (fst out) = Return tt
  /\ agentsDirs (snd (fst out)) = dirs
  /\ (forall n,
        JsMap.get (agents (snd (fst out))) n
        = latest n (flat_map (definitions_in fs') dirs)).
Proof.
  intros H. cbv zeta.
  assert (Hd : agentsDirs (snd (fst (loadFromMultiple fs reg dirs))) = dirs).
  { unfold loadFromMultiple.
    now destruct (loadDirs fs JsMap.empty dirs) as [[[u|e] table] log]. }
  unfold reload. rewrite Hd.
  destruct dirs as [|d dirs].
  - cbn [length Nat.ltb Nat.leb fst snd]. repeat split; auto.
  - cbn [length Nat.ltb Nat.leb].
    generalize (snd (fst (loadFromMultiple fs reg (d :: dirs)))).
    intros reg1. unfold loadFromMultiple.
    rewrite (loadDirs_readable fs' (d :: dirs) JsMap.empty H).
    cbn [fst snd]. repeat split. intros n. cbn [agents].
    rewrite get_fold_set. now destruct (latest n _).
Qed.

Lemma reload_reads_the_same_directories_witness :
  let reg1 :=
    snd (fst (loadFromMultiple sampleFs freshRegistry
                ["/home/.claude/agents"])) in
  let emptied := fun _ : string =>
    {| dir_stat := NoEntry; dir_list := Return [] |} in
  JsMap.get (agents reg1) "reviewer"
  = Some {| name := "reviewer";
            description := "user reviewer";
            systemPrompt := "review";
            model := None |}
  /\ JsMap.get (agents (snd (fst (reload emptied reg1)))) "reviewer" = None.
Proof.
  cbv zeta. split; [reflexivity|].
  destruct (@reload_reads_the_same_directories sampleFs
              (fun _ : string =>
                 {| dir_stat := NoEntry; dir_list := Return [] |})
              freshRegistry ["/home/.claude/agents"] eq_refl)
    as (_ & _ & H).
  exact (H "reviewer").
Defined.

(* ====================================================================== *)
(** * Batch coordinator: the ids of the task results                       *)
(* ====================================================================== *)

Lemma nat_to_string_inj (a b : nat) :
  nat_to_string a = nat_to_string b -> a = b.
Proof.
  unfold nat_to_string. intros H.
  apply (f_equal NilEmpty.uint_of_string) in H.
  rewrite !NilEmpty.usu in H. injection H as H.
  apply (f_equal Nat.of_uint) in H.
  now rewrite !DecimalNat.Unsigned.of_to in H.
Qed.

Lemma NoDup_map_inj (A B : Type) (f : A -> B) (l : list A) :
  (forall x y, f x = f y -> x = y) -> NoDup l -> NoDup (map f l).
Proof.
  intros Hf. induction 1 as [|x l Hx _ IH]; simpl; constructor; auto.
  intros H. apply in_map_iff in H. destruct H as (y & Hy & Hin).
  apply Hf in Hy. now subst y.
Qed.

Lemma positional_ids invoke (tasks : list BatchTask) : forall i,
  (forall t, In t tasks -> truthy_opt (bt_id t) = false) ->
  map btr_id (mapi_from (batchTask invoke) i tasks)
  = map (fun k => ("task-" ++ nat_to_string k)%string)
      (seq i (length tasks)).
Proof.
  induction tasks as [|t tasks IH]; intros i H; auto.
  cbn [mapi_from map length seq]. f_equal.
  - specialize (H t (or_introl eq_refl)). unfold batchTask.
    destruct (bt_id t) as [id|]; simpl in H.
    + rewrite H. now destruct (run_outcome _).
    + now destruct (run_outcome _).
  - apply IH. intros t' Ht'. apply H. now right.
Qed.

(** When no task of a batch supplies an id (or only empty ones), the task
    results are identified by position, 'task-0', 'task-1', ... in input
    order, and no two results share an id. *)
Theorem unnamed_tasks_get_distinct_ids batchStart batchEnd invoke tasks :
  (forall t, In t tasks -> truthy_opt (bt_id t) = false) ->
  let out := runAgentsBatch batchStart batchEnd invoke tasks in
  map btr_id (results out)
  = map (fun k => ("task-" ++ nat_to_string k)%string)
      (seq 0 (length tasks))
  /\ NoDup (map btr_id (results out)).
Proof.
  intros H. cbv zeta. unfold runAgentsBatch. cbn [results].
  rewrite (positional_ids invoke tasks 0 H). split; [reflexivity|].
  apply NoDup_map_inj; [|apply seq_NoDup].
  intros x y E. simpl in E. apply nat_to_string_inj.
  now injection E.
Qed.

Lemma unnamed_tasks_get_distinct_ids_witness :
  map btr_id
    (results
       (runAgentsBatch 0 9
          (fun _ _ =>
             {| run_start := 1;
                run_outcome := Throw (Error "boom");
                run_end := 2 |})
          [{| bt_agent := "coder"; bt_task := "x"; bt_id := None |};
           {| bt_agent := "coder"; bt_task := "y";
              bt_id := Some EmptyString |}]))
  = ["task-0"; "task-1"].
Proof.
  apply (@unnamed_tasks_get_distinct_ids 0%Z 9%Z
           (fun _ _ =>
              {| run_start := 1;
                 run_outcome := Throw (Error "boom");
                 run_end := 2 |})
           [{| bt_agent := "coder"; bt_task := "x"; bt_id := None |};
            {| bt_agent := "coder"; bt_task := "y";
               bt_id := Some EmptyString |}]).
  intros t [<-|[<-|[]]]; reflexivity.
Defined.

(* ====================================================================== *)
(** * The tool-call handler                                                *)
(* ====================================================================== *)

(** What [runAgent] can throw. *)
Lemma runAgent_throw_cases env st params context e :
  fst (fst (runAgent env st params context)) = Throw e ->
  snd (fst (runAgent env st params context)) = st
  /\ snd (runAgent env st params context) = []
  /\ exists message code details,
       e = AgentError message code details
       /\ (code = AGENT_NOT_FOUND \/ code = SESSION_NOT_FOUND
           \/ code = SESSION_ALREADY_ACTIVE).
Proof.
  unfold runAgent, AgentRegistry.getOrThrow.
  destruct (JsMap.get (registry env) (rp_agent params)) as [cfg|].
  - destruct (_ && _).
    + cbn [fst snd]. intros H. injection H as <-.
      split; [reflexivity|]. split; [reflexivity|].
      do 3 eexists. split; [reflexivity | auto].
    + destruct (_ && _).
      * cbn [fst snd]. intros H. injection H as <-.
        split; [reflexivity|]. split; [reflexivity|].
        do 3 eexists. split; [reflexivity | auto].
      * cbv zeta. destruct (engine env _ _) as [err|ex]; [discriminate|].
        destruct (fold_left _ _ _) as [st1 rv].
        destruct (ex_end ex); discriminate.
  - cbn [fst snd]. intros H. injection H as <-.
    split; [reflexivity|]. split; [reflexivity|].
    do 3 eexists. split; [reflexivity | auto].
Qed.

(** The run_agent tool.  Without a non-empty [agent] and a non-empty
    [task] the call is refused with 'Missing required parameters: agent
    and task' under the code UNKNOWN_ERROR, nothing is run and nothing
    changes.  Otherwise the agent runs as a root call (no context): what
    [runAgent] returns is the payload, a failed execution included, and
    an error is reported only for its three precondition failures, with
    their code, no engine call and the state unchanged. *)
Theorem run_agent_tool_outcomes w st args :
  let out := callTool w st "run_agent" args in
  (truthy_opt (arg_agent args) && truthy_opt (arg_task args) = false ->
   out = (ToolError "Missing required parameters: agent and task"
            "UNKNOWN_ERROR", st, []))
  /\ (forall a t,
        arg_agent args = Some a -> arg_task args = Some t ->
        a <> EmptyString -> t <> EmptyString ->
        let run :=
          runAgent (w_env w) st
            {| rp_agent := a;
               rp_task := t;
               rp_resume := arg_resume args;
               rp_fork := arg_fork args |} None in
        snd (fst out) = snd (fst run)
        /\ snd out = snd run
        /\ (forall result,
              fst (fst run) = Return result ->
              fst (fst out) = ToolOk (AgentPayload result))
        /\ (forall e,
              fst (fst run) = Throw e ->
              fst (fst out) = ToolError (errMsgOf e) (errorCodeOf e)
              /\ In (errorCodeOf e)
                   ["AGENT_NOT_FOUND"; "SESSION_NOT_FOUND";
                    "SESSION_ALREADY_ACTIVE"]
              /\ snd (fst out) = st
              /\ snd out = [])).
Proof.
  cbv zeta. unfold callTool, callToolBody. cbn [String.eqb Ascii.eqb Bool.eqb].
  split.
  - intros H.
    destruct (truthy_opt (arg_agent args)), (truthy_opt (arg_task args));
      try discriminate H; reflexivity.
  - intros a t Ha Ht Hna Hnt. rewrite Ha, Ht. cbn [truthy_opt].
    apply truthy_nonempty in Hna, Hnt. rewrite Hna, Hnt. cbn [negb orb].
    pose proof (@runAgent_throw_cases (w_env w) st
                  {| rp_agent := a;
                     rp_task := t;
                     rp_resume := arg_resume args;
                     rp_fork := arg_fork args |} None) as Hthrow.
    destruct (runAgent _ _ _ _) as [[[result|e] st1] effects];
      cbn [fst snd] in *.
    + split; [reflexivity|]. split; [reflexivity|].
      split; [|discriminate]. intros r Hr. now injection Hr as <-.
    + destruct (Hthrow e eq_refl) as (-> & -> & m & c & d & -> & Hc).
      split; [reflexivity|]. split; [reflexivity|].
      split; [discriminate|]. intros e' He'. injection He' as <-.
      split; [reflexivity|]. split; [|split; reflexivity].
      cbn [errorCodeOf].
      destruct Hc as [-> | [-> | ->]]; simpl; auto.
Qed.

Lemma run_agent_tool_outcomes_witness :
  callTool (sampleWorld failingEngine) sampleState "run_agent"
    {| arg_agent := Some "coder";
       arg_task := Some EmptyString;
       arg_resume := None;
       arg_fork := None;
       arg_tasks := TasksFalsy;
       arg_active_only := None;
       arg_session_id := None |}
  = (ToolError "Missing required parameters: agent and task"
       "UNKNOWN_ERROR", sampleState, []).
Proof.
  apply (proj1 (@run_agent_tool_outcomes (sampleWorld failingEngine)
                  sampleState
                  {| arg_agent := Some "coder";
                     arg_task := Some EmptyString;
                     arg_resume := None;
                     arg_fork := None;
                     arg_tasks := TasksFalsy;
                     arg_active_only := None;
                     arg_session_id := None |})).
  reflexivity.
Defined.



(** A tool call that answers with an error has changed nothing and caused
    no effect, and its code is UNKNOWN_ERROR or one of the three
    precondition codes of [runAgent]; a tool name other than the four
    the server offers is answered with 'Unknown tool: <name>'. *)
Theorem failed_tool_call_changes_nothing w st toolName args :
  let out := callTool w st toolName args in
  (forall error code,
     fst (fst out) = ToolError error code ->
     snd (fst out) = st
     /\ snd out = []
     /\ In code ["UNKNOWN_ERROR"; "AGENT_NOT_FOUND"; "SESSION_NOT_FOUND";
                 "SESSION_ALREADY_ACTIVE"])
  /\ (~ In toolName ["run_agent"; "run_agents_batch"; "get_agent_sessions";
                     "cancel_agent"] ->
      out = (ToolError ("Unknown tool: " ++ toolName) "UNKNOWN_ERROR", st, [])).
Proof.
  cbv zeta. unfold callTool, callToolBody. split.
  - intros error code.
    destruct (String.eqb toolName "run_agent").
    { destruct (_ || _).
      - cbn [fst snd]. intros H. injection H as <- <-. simpl. auto.
      - match goal with
        | |- context [runAgent ?e ?s ?p ?c] =>
            pose proof (@runAgent_throw_cases e s p c) as Hthrow;
            destruct (runAgent e s p c) as [[[result|e0] st1] effects]
        end; cbn [fst snd] in *; [discriminate|].
        destruct (Hthrow e0 eq_refl) as (-> & -> & m & c & d & -> & Hc).
        intros H. injection H as <- <-. repeat split.
        cbn [errorCodeOf]. destruct Hc as [-> | [-> | ->]]; simpl; auto. }
    destruct (String.eqb toolName "run_agents_batch").
    { destruct (run_agents_batch_case _ _ _ _) as [[result|e0] executed]
        eqn:E; cbn [fst snd]; [discriminate|].
      intros H. injection H as <- <-. repeat split.
      unfold run_agents_batch_case in E.
      destruct (arg_tasks args) as [| |ts];
        try (injection E as <- _; simpl; auto).
      destruct (length ts =? 0)%nat; [injection E as <- _; simpl; auto|].
      destruct (10 <? length ts)%nat; [injection E as <- _; simpl; auto|].
      discriminate E. }
    destruct (String.eqb toolName "get_agent_sessions");
      [cbn [fst snd]; discriminate|].
    destruct (String.eqb toolName "cancel_agent").
    { destruct (negb _).
      - cbn [fst snd]. intros H. injection H as <- <-. simpl. auto.
      - destruct (SessionStore.cancel _ _ _ _ _) as [[c s0] eff].
        cbn [fst snd]. discriminate. }
    cbn [fst snd]. intros H. injection H as <- <-. simpl. auto.
  - intros Hn.
    destruct (String.eqb toolName "run_agent") eqn:E1;
      [apply String.eqb_eq in E1; destruct Hn; simpl; auto|].
    destruct (String.eqb toolName "run_agents_batch") eqn:E2;
      [apply String.eqb_eq in E2; destruct Hn; simpl; auto|].
    destruct (String.eqb toolName "get_agent_sessions") eqn:E3;
      [apply String.eqb_eq in E3; destruct Hn; simpl; auto|].
    destruct (String.eqb toolName "cancel_agent") eqn:E4;
      [apply String.eqb_eq in E4; destruct Hn; simpl; auto|].
    reflexivity.
Qed.

Lemma failed_tool_call_changes_nothing_witness :
  callTool (sampleWorld failingEngine) sampleState "delete_agent"
    {| arg_agent := None;
       arg_task := None;
       arg_resume := None;
       arg_fork := None;
       arg_tasks := TasksFalsy;
       arg_active_only := None;
       arg_session_id := None |}
  = (ToolError "Unknown tool: delete_agent" "UNKNOWN_ERROR", sampleState, []).
Proof.
  apply (proj2 (@failed_tool_call_changes_nothing
                  (sampleWorld failingEngine) sampleState "delete_agent"
                  {| arg_agent := None;
                     arg_task := None;
                     arg_resume := None;
                     arg_fork := None;
                     arg_tasks := TasksFalsy;
                     arg_active_only := None;
                     arg_session_id := None |})).
  intros [H|[H|[H|[H|[]]]]]; discriminate H.
Defined.

(* ====================================================================== *)
(** * Listing the sessions a run leaves                                    *)
(* ====================================================================== *)

Lemma list_In (st : SessionStore.t) (f : option ListFilter) sid r :
  SessionStore.get st sid = Some r ->
  passes f r = true ->
  In r (SessionStore.list st f).
Proof.
  intros Hget Hpass. rewrite list_as_filter.
  eapply Permutation_in;
    [apply Permutation_sym, (Array_sort_perm last_active)|].
  apply filter_In. split; [|exact Hpass].
  apply JsMapKeys.get_In in Hget. apply (in_map snd) in Hget. exact Hget.
Qed.

(** The get_agent_sessions tool never fails and changes nothing.  After a
    run that established a session, and provided the other tasks at work
    during the waits of the run left the record of that session alone,
    the tool lists the session as inactive, under the agent of the run
    and with [last_active] at the cleanup of the run, whenever it is
    asked without [active_only] and with no agent filter, an empty one,
    or the agent of the run. *)
Theorem closed_session_is_listed
    env st params context others cfg ex sid w args :
  JsMap.get (registry env) (rp_agent params) = Some cfg ->
  (forall rid,
     rp_resume params = Some rid -> rid <> EmptyString ->
     SessionStore.has (sessionStore st) rid = true
     /\ SessionStore.isActive (sessionStore st) rid = false) ->
  engine env (enhancedTaskOf params) (sdkOptions env cfg params)
  = QueryStarted ex ->
  last (established (ex_messages ex)) EmptyString = sid ->
  sid <> EmptyString ->
  leaves_session_alone sid others ->
  arg_active_only args <> Some true ->
  truthy_opt (arg_agent args) = false
  \/ arg_agent args = Some (rp_agent params) ->
  let st' := snd (fst (runAgentAmong env st params context others)) in
  exists sessions entry,
    callTool w st' "get_agent_sessions" args
    = (ToolOk (SessionsPayload sessions), st', [])
    /\ In entry sessions
    /\ json_session_id entry = sid
    /\ json_agent entry = rp_agent params
    /\ json_is_active entry = false
    /\ json_last_active entry = w_toISOString w (ex_end_time ex).
Proof.
  intros Ha Hres Heng Hlast Hne Halone Hactive Hagent. cbv zeta.
  destruct (@runAgentAmong_closed env st params context others cfg ex sid
              Ha Hres Heng Hlast Hne) as (_ & _ & _ & _ & _ & Hrec).
  destruct (Hrec Halone) as (r & Hr & Hid & Hag & Hact & Htime).
  revert Hr.
  generalize (snd (fst (runAgentAmong env st params context others))).
  intros st' Hr.
  unfold callTool, callToolBody. cbn [String.eqb Ascii.eqb Bool.eqb].
  eexists. eexists. split; [reflexivity|].
  unfold listJSON. split.
  - apply in_map. apply (@list_In _ _ sid r Hr).
    unfold passes. cbn [f_agent f_active_only].
    apply andb_true_intro. split.
    + destruct Hagent as [H|H].
      * destruct (arg_agent args) as [a|]; auto. simpl in H. now rewrite H.
      * rewrite H, Hag. rewrite String.eqb_refl.
        now destruct (truthy (rp_agent params)).
    + destruct (arg_active_only args) as [[|]|]; auto;
        now destruct Hactive.
  - cbn. rewrite Hid, Hag, Hact, Htime. auto.
Qed.

Lemma closed_session_is_listed_witness :
  let st' :=
    snd (fst (runAgentAmong (sampleEnv crashingEngine) sampleState
                {| rp_agent := "coder";
                   rp_task := "write it";
                   rp_resume := None;
                   rp_fork := None |} None sampleOthers)) in
  exists sessions entry,
    callTool (sampleWorld failingEngine) st' "get_agent_sessions"
      {| arg_agent := Some "coder";
         arg_task := None;
         arg_resume := None;
         arg_fork := None;
         arg_tasks := TasksFalsy;
         arg_active_only := Some false;
         arg_session_id := None |}
    = (ToolOk (SessionsPayload sessions), st', [])
    /\ In entry sessions
    /\ json_session_id entry = "s2"
    /\ json_agent entry = "coder"
    /\ json_is_active entry = false
    /\ json_last_active entry = "50".
Proof.
  apply (@closed_session_is_listed (sampleEnv crashingEngine) sampleState
           {| rp_agent := "coder";
              rp_task := "write it";
              rp_resume := None;
              rp_fork := None |} None sampleOthers (sampleConfig "coder")
           {| ex_query := {| handle_id := 4 |};
              ex_messages :=
                [(30%Z, MsgSystemInit "s2");
                 (35%Z,
                  MsgAssistant (Some [ToolUse "Write" (Some "a.ts")]))];
              ex_end := StreamThrows (Error "connection lost");
              ex_end_time := 50 |} "s2" (sampleWorld failingEngine)
           {| arg_agent := Some "coder";
              arg_task := None;
              arg_resume := None;
              arg_fork := None;
              arg_tasks := TasksFalsy;
              arg_active_only := Some false;
              arg_session_id := None |} eq_refl).
  - intros rid H. discriminate H.
  - reflexivity.
  - reflexivity.
  - discriminate.
  - apply sampleOthers_alone. discriminate.
  - discriminate.
  - now right.
Defined.
